(** * The snapshot pipeline of apps/execution-ts: a shallow embedding

    [core.ts] (token-universe resolution, retrying fetch, on-chain fan-out,
    quote metrics, batch hand-off) and [db.ts] (the SQLite store) are
    embedded as functions over an explicit world: every effect of the
    TypeScript code (clock, random draw, HTTP attempt, RPC call, file write)
    reads an oracle at the current tick and advances the tick, and thrown
    exceptions are values of a result type. *)

From Stdlib Require Import ZArith List String Ascii Bool Lia Floats.
From Stdlib Require Import Decimal DecimalString.
Import ListNotations.
Open Scope string_scope.
Open Scope list_scope.
Open Scope Z_scope.

(* ================================================================== *)
(** ** JavaScript built-ins used by the sources *)
(* ================================================================== *)

Module JS.

(** JS numbers are IEEE-754 binary64 values: primitive floats. *)
Definition number := float.

(** An integer as the nearest binary64 value (ties to even). *)
Definition of_Z (z : Z) : number :=
  SF2Prim (binary_normalize prec emax z 0 false).

(** [Math.floor] read back as an integer; [0] where the argument is not
    finite (no caller passes such an argument). *)
Definition floor (x : number) : Z :=
  match Prim2SF x with
  | S754_finite s m e =>
      let v := if s then Z.neg m else Z.pos m in
      if 0 <=? e then Z.shiftl v e else Z.shiftr v (- e)
  | _ => 0
  end.

(** [Math.round]: nearest integer, ties towards plus infinity; [None]
    for NaN and the infinities, which [Math.round] returns unchanged. *)
Definition round (x : number) : option Z :=
  match Prim2SF x with
  | S754_zero _ => Some 0
  | S754_finite s m e =>
      let v := if s then Z.neg m else Z.pos m in
      if 0 <=? e then Some (Z.shiftl v e)
      else Some (Z.shiftr (2 * v + Z.shiftl 1 (- e)) (- e + 1))
  | _ => None
  end.

(** [Number.isFinite]. *)
Definition isFinite (x : number) : bool := PrimFloat.is_finite x.

(** Truthiness of a number: [0], [-0] and [NaN] are falsy. *)
Definition truthy (x : number) : bool :=
  negb (PrimFloat.eqb x 0 || PrimFloat.is_nan x).

(** [x || d] on numbers. *)
Definition or_else (x d : number) : number := if truthy x then x else d.

(** Truthiness of a string: only the empty string is falsy. *)
Definition truthy_str (s : string) : bool := negb (s =? "")%string.

(** [Number(s)].  The empty string converts to [0] and a string of
    decimal digits to the nearest binary64 value of the integer it
    writes; for any other text (signs, fractions, exponents, blanks,
    [Infinity], hexadecimal, text that is no number) the conversion is
    the engine's, [parse]. *)
Definition Number (parse : string -> number) (s : string) : number :=
  if (s =? "")%string then 0%float
  else match NilEmpty.uint_of_string s with
       | Some u => of_Z (Z.of_uint u)
       | None => parse s
       end.

(** [BigInt(z).toString()]: the decimal digits. *)
Definition toString (z : Z) : string := NilZero.string_of_int (Z.to_int z).

(** [String(x)] for an integer number [x]: the decimal digits below
    [1e21]; from there on the engine's exponent form, [exponent]. *)
Definition String_ (exponent : Z -> string) (x : Z) : string :=
  if Z.abs x <? 10 ^ 21 then toString x else exponent x.

(** White space and line terminators of ECMAScript, as the bytes of their
    UTF-8 encoding: U+0009..U+000D and U+0020; U+00A0; U+1680;
    U+2000..U+200A, U+2028, U+2029, U+202F; U+205F; U+3000; U+FEFF. *)
Definition space1 (a : nat) : bool :=
  ((a =? 32) || ((9 <=? a) && (a <=? 13)))%nat.

Definition space2 (a b : nat) : bool := ((a =? 194) && (b =? 160))%nat.

Definition space3 (a b c : nat) : bool :=
  (((a =? 225) && (b =? 154) && (c =? 128))
   || ((a =? 226) && (b =? 128)
       && (((128 <=? c) && (c <=? 138)) || (c =? 168) || (c =? 169)
           || (c =? 175)))
   || ((a =? 226) && (b =? 129) && (c =? 159))
   || ((a =? 227) && (b =? 128) && (c =? 128))
   || ((a =? 239) && (b =? 187) && (c =? 191)))%nat.

Fixpoint trimStart (s : string) : string :=
  match s with
  | String a r =>
      if space1 (nat_of_ascii a) then trimStart r
      else
        match r with
        | String b r1 =>
            if space2 (nat_of_ascii a) (nat_of_ascii b) then trimStart r1
            else
              match r1 with
              | String c r2 =>
                  if space3 (nat_of_ascii a) (nat_of_ascii b) (nat_of_ascii c)
                  then trimStart r2 else s
              | EmptyString => s
              end
        | EmptyString => s
        end
  | EmptyString => EmptyString
  end.

Fixpoint rev_string (s acc : string) : string :=
  match s with
  | String c r => rev_string r (String c acc)
  | EmptyString => acc
  end.

(** [trimStart] on the reversed text: the bytes of a character come last
    byte first. *)
Fixpoint trimStart_reversed (s : string) : string :=
  match s with
  | String a r =>
      if space1 (nat_of_ascii a) then trimStart_reversed r
      else
        match r with
        | String b r1 =>
            if space2 (nat_of_ascii b) (nat_of_ascii a)
            then trimStart_reversed r1
            else
              match r1 with
              | String c r2 =>
                  if space3 (nat_of_ascii c) (nat_of_ascii b) (nat_of_ascii a)
                  then trimStart_reversed r2 else s
              | EmptyString => s
              end
        | EmptyString => s
        end
  | EmptyString => EmptyString
  end.

(** [String.prototype.trim]. *)
Definition trim (s : string) : string :=
  rev_string (trimStart_reversed (rev_string (trimStart s) "")) "".

Definition lower (c : ascii) : ascii :=
  let n := nat_of_ascii c in
  if ((65 <=? n) && (n <=? 90))%nat then ascii_of_nat (n + 32) else c.

(** [String.prototype.toLowerCase] on the letters A to Z; the bytes of
    other characters are kept, and none of them lower-cases to a
    character of ["1"] or ["true"], the texts [asBool] compares with. *)
Fixpoint toLowerCase (s : string) : string :=
  match s with
  | String c r => String (lower c) (toLowerCase r)
  | EmptyString => EmptyString
  end.

(** [arr.slice(0, n)] for a non-negative integer [n]. *)
Definition slice0 {A} (n : nat) (l : list A) : list A := firstn n l.

End JS.

(* ================================================================== *)
(** ** Exceptions, the world, and the effect monad *)
(* ================================================================== *)

(** What the TypeScript code can throw. *)
Inductive Exn : Type :=
| HttpError (status : option Z)   (* axios failure; [e.response.status] *)
| RpcError                        (* the RPC client or [getMint] failed *)
| InvalidPublicKey                (* [new PublicKey] on a bad address *)
| RangeError                      (* [BigInt] on a non-integer number *)
| SqliteError                     (* a constraint of the store failed *)
| FsError                         (* a file-system call failed *)
| SyntaxError                     (* [JSON.parse] *)
| TypeError                       (* [new Connection] on a bad endpoint *)
| ThrownUndefined.                (* [throw lastErr] with nothing caught *)

Inductive Res (A : Type) : Type :=
| Ok (a : A)
| Throw (e : Exn).
Arguments Ok {A} a.
Arguments Throw {A} e.

(** [TokenRow] of core.ts.  [decimals] is [Some d] exactly when
    [typeof t.decimals === "number"], the number being the integer [d]
    (token lists give the decimals of a mint as an integer). *)
Record TokenRow : Type := mkToken {
  address : string;
  symbol : option string;
  name : option string;
  decimals : option Z;
  tags : option (list string)
}.

(* ------------------------------------------------------------------ *)
(** *** The store (db.ts) *)

Module Db.

(** A row of table [snapshots]; key [(ts, mint)].  A nullable column is
    [None] for [null] or [undefined] in a row passed to the store, and for
    NULL in a stored row. *)
Record SnapshotRow : Type := mkSnap {
  s_ts : Z;
  s_mint : string;
  s_symbol : option string;
  s_decimals : Z;
  mint_authority_null : Z;
  freeze_authority_null : Z;
  token2022_danger : Z;
  lp_verified : Z;
  tvl_usd : option JS.number;
  impact_1k_pct : option JS.number;
  spread_pct : option JS.number;
  r_1m : option JS.number;
  r_5m : option JS.number;
  r_15m : option JS.number;
  volume_5m : option JS.number;
  unique_buyers_5m : Z;
  net_buy_usd_5m : option JS.number;
  top10_pct : option JS.number;
  flags_json : option string
}.

(** A row of table [prices]; key [(ts, mint)]. *)
Record PriceRow : Type := mkPrice {
  p_ts : Z;
  p_mint : string;
  price_usd : JS.number
}.

(** A row of table [tokens]; key [mint]. *)
Record TokenDirRow : Type := mkDir {
  d_mint : string;
  d_symbol : option string;
  d_name : option string;
  d_decimals : Z;
  verified : Z
}.

Record DB : Type := mkDB {
  snapshots : list SnapshotRow;
  prices : list PriceRow;
  tokens : list TokenDirRow;
  meta : list (string * string)
}.

Inductive Table : Type := TSnapshots | TPrices.

Definition same_snapshot_key (a b : SnapshotRow) : bool :=
  (s_ts a =? s_ts b)%Z && (s_mint a =? s_mint b)%string.

Definition same_price_key (a b : PriceRow) : bool :=
  (p_ts a =? p_ts b)%Z && (p_mint a =? p_mint b)%string.

(** A number bound to a REAL column, as the table gives it back: SQLite
    stores NaN as NULL, and a zero without its sign. *)
Definition real (x : JS.number) : option JS.number :=
  if PrimFloat.is_nan x then None
  else if PrimFloat.eqb x 0 then Some 0%float else Some x.

(** [r.x ?? null] bound to a nullable REAL column. *)
Definition or_null (x : option JS.number) : option JS.number :=
  match x with
  | Some v => real v
  | None => None
  end.

(** [r.x ?? 0] bound to a nullable REAL column. *)
Definition or_zero (x : option JS.number) : option JS.number :=
  match x with
  | Some v => real v
  | None => Some 0%float
  end.

(** The row the table holds for the row [r] passed to [insertSnapshots]. *)
Definition stored_snapshot (r : SnapshotRow) : SnapshotRow :=
  mkSnap (s_ts r) (s_mint r) (s_symbol r) (s_decimals r)
         (mint_authority_null r) (freeze_authority_null r)
         (token2022_danger r) (lp_verified r)
         (or_null (tvl_usd r)) (or_null (impact_1k_pct r))
         (or_null (spread_pct r))
         (or_zero (r_1m r)) (or_zero (r_5m r)) (or_zero (r_15m r))
         (or_zero (volume_5m r)) (unique_buyers_5m r)
         (or_zero (net_buy_usd_5m r)) (or_null (top10_pct r)) (flags_json r).

(** The row the table holds for the row [r] passed to [insertPrices];
    [price_usd] is NOT NULL, so there is none when the price is NaN. *)
Definition stored_price (r : PriceRow) : option PriceRow :=
  option_map (mkPrice (p_ts r) (p_mint r)) (real (price_usd r)).

(** INSERT INTO meta ... ON CONFLICT(key) DO UPDATE SET value. *)
Fixpoint upsert_meta (k v : string) (m : list (string * string))
  : list (string * string) :=
  match m with
  | [] => [(k, v)]
  | (k', v') :: r =>
      if (k' =? k)%string then (k, v) :: r else (k', v') :: upsert_meta k v r
  end.

Definition setMeta (d : DB) (key value : string) : DB :=
  mkDB (snapshots d) (prices d) (tokens d) (upsert_meta key value (meta d)).

(** DELETE FROM snapshots WHERE ts < ?; DELETE FROM prices WHERE ts < ?. *)
Definition pruneOlderThanMs (d : DB) (olderThanMs : Z) : DB :=
  mkDB (filter (fun r => negb (s_ts r <? olderThanMs)) (snapshots d))
       (filter (fun r => negb (p_ts r <? olderThanMs)) (prices d))
       (tokens d) (meta d).

(** SELECT COUNT( * ) FROM table. *)
Definition countRows (d : DB) (t : Table) : Z :=
  match t with
  | TSnapshots => Z.of_nat (List.length (snapshots d))
  | TPrices => Z.of_nat (List.length (prices d))
  end.

(** INSERT INTO tokens ... ON CONFLICT(mint) DO UPDATE SET ... *)
Fixpoint upsert_token (r : TokenDirRow) (t : list TokenDirRow)
  : list TokenDirRow :=
  match t with
  | [] => [r]
  | x :: rest =>
      if (d_mint x =? d_mint r)%string then r :: rest
      else x :: upsert_token r rest
  end.

Definition upsertTokens (d : DB) (rows : list TokenDirRow) : DB :=
  mkDB (snapshots d) (prices d)
       (fold_left (fun t r => upsert_token r t) rows (tokens d)) (meta d).

(** The plain INSERT of one transaction: a row whose key is already in
    the table (or earlier in the same batch) violates the primary key;
    the statement throws and the transaction is rolled back. *)
Fixpoint insert_snapshot_rows (rows tbl : list SnapshotRow)
  : option (list SnapshotRow) :=
  match rows with
  | [] => Some tbl
  | r :: rest =>
      if existsb (same_snapshot_key r) tbl then None
      else insert_snapshot_rows rest (tbl ++ [stored_snapshot r])
  end.

Definition insertSnapshots (d : DB) (rows : list SnapshotRow) : Res DB :=
  match rows with
  | [] => Ok d
  | _ =>
      match insert_snapshot_rows rows (snapshots d) with
      | Some t => Ok (mkDB t (prices d) (tokens d) (meta d))
      | None => Throw SqliteError
      end
  end.

(** INSERT OR REPLACE INTO prices: the row with the same key, if any, is
    deleted first. *)
Definition replace_price (t : list PriceRow) (r : PriceRow) : list PriceRow :=
  filter (fun x => negb (same_price_key x r)) t ++ [r].

(** The INSERT OR REPLACE statements of one transaction: a NaN price
    violates NOT NULL; the statement throws and the transaction is rolled
    back. *)
Fixpoint insert_price_rows (rows tbl : list PriceRow)
  : option (list PriceRow) :=
  match rows with
  | [] => Some tbl
  | r :: rest =>
      match stored_price r with
      | Some r' => insert_price_rows rest (replace_price tbl r')
      | None => None
      end
  end.

Definition insertPrices (d : DB) (rows : list PriceRow) : Res DB :=
  match rows with
  | [] => Ok d
  | _ =>
      match insert_price_rows rows (prices d) with
      | Some t => Ok (mkDB (snapshots d) t (tokens d) (meta d))
      | None => Throw SqliteError
      end
  end.

End Db.

(* ------------------------------------------------------------------ *)
(** *** External data *)

(** [QuoteResp] of core.ts, reduced to the fields the code reads.
    [outAmount] is the text of the field.  [priceImpactPct] is [Some x]
    when the field is not null or undefined, [x] being its [Number(...)]
    conversion. *)
Record QuoteResp : Type := mkQuote {
  outAmount : string;
  priceImpactPct : option JS.number
}.

(** An entry of the token directory's answer.  [id] is [Some s] exactly
    when [typeof x?.id === "string"]. *)
Record DirEntry : Type := mkEntry {
  id : option string;
  e_symbol : option string;
  e_name : option string;
  e_decimals : option Z;
  e_tags : option (list string)
}.

(** The [data] of an HTTP response, by the shapes the callers tell apart. *)
Inductive Body : Type :=
| BodyQuote (q : QuoteResp)
| BodyArray (l : list DirEntry)      (* [Array.isArray(data)] *)
| BodyTokens (l : list DirEntry)     (* [data.tokens] is an array *)
| BodyOther.          (* any other JSON value, [null] included *)

Inductive Url : Type :=
| QuoteUrl (base inputMint outputMint amount : string)
| TagUrl (base : string).

Record Request : Type := mkRequest {
  url : Url;
  headers : list (string * string)
}.

Inductive HttpOutcome : Type :=
| Response (data : Body)
| Failure (e : Exn).

(** The owner of an account, as far as [snapshot] looks at it. *)
Inductive ProgramId : Type := TOKEN_PROGRAM_ID | TOKEN_2022_PROGRAM_ID.

Inductive Owner : Type := OwnedBy (p : ProgramId) | OwnedByOther.

(** The fields of the decoded mint that [snapshot] reads. *)
Record MintInfo : Type := mkMint {
  m_decimals : option Z;
  mintAuthority : option string;
  freezeAuthority : option string
}.

(** The cache file [jup_verified_cache.json]. *)
Inductive CacheFile : Type :=
| CacheMissing                       (* [existsSync] is false *)
| CacheUnreadable                    (* reading or [JSON.parse] throws *)
| CacheMalformed                     (* falsy, or [items] is not an array *)
| CacheData (ts : option Z) (items : list TokenRow).

(** The seed file [tokens.seed.json]. *)
Inductive SeedFile : Type :=
| SeedMissing
| SeedUnreadable
| SeedNotArray
| SeedArray (items : list TokenRow).

(** The mutable world: a tick counting the effects performed so far, the
    two files, the database behind the [db] handle, and the delays slept. *)
Record World : Type := mkWorld {
  tick : nat;
  cacheFile : CacheFile;
  seedFile : SeedFile;
  db : Db.DB;
  slept : list Z
}.

(** What the outside answers, effect by effect, and what the runtime
    computes where these definitions do not: whether the RPC client
    accepts an endpoint, [Number] on text that is not all digits,
    [10 ** dec], and the exponent form of [String]. *)
Record Oracle : Type := mkOracle {
  clock : nat -> Z;                              (* [Date.now()] *)
  random : nat -> JS.number;                     (* [Math.random()] *)
  http : nat -> Request -> HttpOutcome;          (* [axios.get] *)
  pubkey_ok : string -> bool;                    (* [new PublicKey(s)] *)
  accountInfo : nat -> string -> Res (option Owner);       (* getAccountInfo *)
  mintOf : nat -> string -> ProgramId -> Res MintInfo;     (* getMint *)
  mkdir_ok : nat -> bool;                        (* [mkdirSync] *)
  write_ok : nat -> bool;                        (* [writeFileSync] *)
  endpoint_ok : string -> bool;                  (* [new Connection(url)] *)
  parseNumber : string -> JS.number;   (* [Number(s)], [s] not all digits *)
  pow10 : Z -> JS.number;                        (* [10 ** dec] *)
  exponentForm : Z -> string           (* [String(x)], [x] from 1e21 on *)
}.

(* ------------------------------------------------------------------ *)
(** *** The monad: state passing with exceptions *)

Definition M (A : Type) : Type := World -> Res A * World.

Definition ret {A} (a : A) : M A := fun w => (Ok a, w).

Definition throw {A} (e : Exn) : M A := fun w => (Throw e, w).

Definition bind {A B} (m : M A) (k : A -> M B) : M B :=
  fun w => match m w with
           | (Ok a, w') => k a w'
           | (Throw e, w') => (Throw e, w')
           end.

(** [try { m } catch (e) { h e }]: the world reached when [m] threw is
    kept. *)
Definition try_catch {A} (m : M A) (h : Exn -> M A) : M A :=
  fun w => match m w with
           | (Ok a, w') => (Ok a, w')
           | (Throw e, w') => h e w'
           end.

Notation "x <- m ;; k" := (bind m (fun x => k))
  (at level 61, m at next level, right associativity).
Notation "m ;;; k" := (bind m (fun _ => k))
  (at level 61, right associativity).

Definition next (w : World) : World :=
  mkWorld (S (tick w)) (cacheFile w) (seedFile w) (db w) (slept w).

Definition set_db (d : Db.DB) (w : World) : World :=
  mkWorld (tick w) (cacheFile w) (seedFile w) d (slept w).

Definition set_cache (c : CacheFile) (w : World) : World :=
  mkWorld (tick w) c (seedFile w) (db w) (slept w).

Definition Date_now (o : Oracle) : M Z :=
  fun w => (Ok (clock o (tick w)), next w).

Definition Math_random (o : Oracle) : M JS.number :=
  fun w => (Ok (random o (tick w)), next w).

Definition axios_get (o : Oracle) (req : Request) : M Body :=
  fun w => match http o (tick w) req with
           | Response data => (Ok data, next w)
           | Failure e => (Throw e, next w)
           end.

(** [await new Promise((r) => setTimeout(r, delay))]. *)
Definition setTimeout (delay : Z) : M unit :=
  fun w => (Ok tt, mkWorld (tick w) (cacheFile w) (seedFile w) (db w)
                            (slept w ++ [delay])).

Definition mkdirSync (o : Oracle) : M unit :=
  fun w => (if mkdir_ok o (tick w) then Ok tt else Throw FsError, next w).

(** [writeFileSync(TOKENS_CACHE_PATH, JSON.stringify({ ts, items }))]; a
    failed write leaves the file as it was. *)
Definition writeCacheFile (o : Oracle) (ts : Z) (items : list TokenRow) : M unit :=
  fun w => if write_ok o (tick w)
           then (Ok tt, next (set_cache (CacheData (Some ts) items) w))
           else (Throw FsError, next w).

(** The store calls, on the database of the world. *)
Definition db_read {A} (f : Db.DB -> A) : M A := fun w => (Ok (f (db w)), w).

Definition db_write (f : Db.DB -> Db.DB) : M unit :=
  fun w => (Ok tt, set_db (f (db w)) w).

Definition db_try (f : Db.DB -> Res Db.DB) : M unit :=
  fun w => match f (db w) with
           | Ok d => (Ok tt, set_db d w)
           | Throw e => (Throw e, w)
           end.

(* ================================================================== *)
(** ** core.ts *)
(* ================================================================== *)

(** The validated environment ([Env.parse]): the integer settings are
    positive integers, the dollar amounts are numbers. *)
Record Env : Type := mkEnv {
  RPC_URL : string;
  TOKEN_LIMIT : positive;
  JUP_API_KEY : string;
  JUP_OFFLINE : option string;
  FORCE_ONLINE : option string;
  JUP_TOKENS_CACHE_TTL_MS : positive;
  QUOTES_ENABLED : option string;
  QUOTE_MAX_TOKENS : positive;
  QUOTE_IMPACT_USD : JS.number;
  QUOTE_SPREAD_USD : JS.number;
  QUOTE_BASE_MINT : string
}.

Definition asBool (v : option string) : bool :=
  match v with
  | None => false
  | Some v =>
      if JS.truthy_str v then
        let s := JS.toLowerCase (JS.trim v) in
        (s =? "1")%string || (s =? "true")%string
      else false
  end.

Definition offline (env : Env) : bool :=
  asBool (JUP_OFFLINE env) && negb (asBool (FORCE_ONLINE env)).

Definition quotesEnabled (env : Env) : bool := asBool (QUOTES_ENABLED env).

Definition USDC_MINT (env : Env) : string := QUOTE_BASE_MINT env.

Definition SOL_MINT : string := "So11111111111111111111111111111111111111112".

(* ------------------------------------------------------------------ *)
(** *** fetchJsonWithBackoff *)

(** [e?.response?.status]. *)
Definition status_of (e : Exn) : option Z :=
  match e with
  | HttpError s => s
  | _ => None
  end.

(** [status === 429 || (status >= 500 && status < 600)]. *)
Definition retriable (status : option Z) : bool :=
  match status with
  | Some n => (n =? 429) || ((500 <=? n) && (n <? 600))
  | None => false
  end.

(** [Math.floor(Math.random() * 150)]. *)
Definition jitter (r : JS.number) : Z := JS.floor (r * 150)%float.

(** [Math.min(maxDelayMs, 400 * Math.pow(2, i)) + jitter]. *)
Definition backoff_delay (maxDelayMs : Z) (i : nat) (r : JS.number) : Z :=
  Z.min maxDelayMs (400 * 2 ^ Z.of_nat i) + jitter r.

(** The loop [for (let i = 0; i < attempts; i++)], entered at index [i]
    with [remaining = attempts - i] iterations to go. *)
Fixpoint fetch_loop (o : Oracle) (req : Request) (maxDelayMs : Z)
    (remaining i : nat) (lastErr : option Exn) : M Body :=
  match remaining with
  | O => throw (match lastErr with Some e => e | None => ThrownUndefined end)
  | S k =>
      try_catch (axios_get o req)
        (fun e =>
           if retriable (status_of e) then
             r <- Math_random o ;;
             setTimeout (backoff_delay maxDelayMs i r) ;;;
             fetch_loop o req maxDelayMs k (S i) (Some e)
           else throw e)
  end.

Definition fetchJsonWithBackoff (o : Oracle) (req : Request)
    (attempts : nat) (maxDelayMs : Z) : M Body :=
  fetch_loop o req maxDelayMs attempts 0 None.

(* ------------------------------------------------------------------ *)
(** *** Jupiter helpers *)

Definition api_base (env : Env) : string :=
  if JS.truthy_str (JUP_API_KEY env) then "https://api.jup.ag"
  else "https://lite-api.jup.ag".

Definition api_headers (env : Env) : list (string * string) :=
  [("accept", "application/json"); ("user-agent", "solana-sniper/0.1")]
  ++ (if JS.truthy_str (JUP_API_KEY env)
      then [("x-api-key", JUP_API_KEY env)] else []).

(** The request of [jupQuote]: the quote URL with its parameters, and the
    headers. *)
Definition quote_request (env : Env) (inputMint outputMint amount : string)
  : Request :=
  mkRequest (QuoteUrl (api_base env) inputMint outputMint amount)
            (api_headers env).

(** [jupQuote]: the body as it came ([return data as QuoteResp]), or
    [null] when the fetch threw. *)
Definition jupQuote (env : Env) (o : Oracle)
    (inputMint outputMint amount : string) : M (option Body) :=
  try_catch
    (data <- fetchJsonWithBackoff o
               (quote_request env inputMint outputMint amount) 3 1500 ;;
     ret (Some data))
    (fun _ => ret None).

(** The fields of [QuoteResp] the callers read off what [jupQuote]
    returned: [qi?.priceImpactPct], and [outAmount] under the test
    [qBuy && qBuy.outAmount].  A body of another shape has neither. *)
Definition quote_of (r : option Body) : option QuoteResp :=
  match r with
  | Some (BodyQuote q) => Some q
  | _ => None
  end.

(* ------------------------------------------------------------------ *)
(** *** Token-list helpers *)

Definition builtin_seed (env : Env) : list TokenRow :=
  [ mkToken SOL_MINT (Some "SOL") (Some "Solana") (Some 9) (Some ["verified"]);
    mkToken (USDC_MINT env) (Some "USDC") (Some "USD Coin") (Some 6)
            (Some ["verified"]) ].

Definition existsSync_seed : M bool :=
  fun w => (Ok (match seedFile w with SeedMissing => false | _ => true end), w).

(** [JSON.parse(readFileSync(TOKENS_SEED_PATH))], as an array or not. *)
Definition parse_seed : M (option (list TokenRow)) :=
  fun w => match seedFile w with
           | SeedArray l => (Ok (Some l), w)
           | SeedNotArray => (Ok None, w)
           | SeedMissing => (Throw FsError, w)
           | SeedUnreadable => (Throw SyntaxError, w)
           end.

Definition readSeed (env : Env) (limit : nat) : M (list TokenRow) :=
  r <- try_catch
         (ex <- existsSync_seed ;;
          if ex then
            arr <- parse_seed ;;
            match arr with
            | Some (x :: l) => ret (Some (JS.slice0 limit (x :: l)))
            | _ => ret None
            end
          else ret None)
         (fun _ => ret None) ;;
  match r with
  | Some l => ret l
  | None => ret (JS.slice0 limit (builtin_seed env))
  end.

Definition existsSync_cache : M bool :=
  fun w => (Ok (match cacheFile w with CacheMissing => false | _ => true end), w).

(** [JSON.parse(readFileSync(TOKENS_CACHE_PATH))]: [None] when the value
    is falsy or its [items] is not an array. *)
Definition parse_cache : M (option (option Z * list TokenRow)) :=
  fun w => match cacheFile w with
           | CacheData ts items => (Ok (Some (ts, items)), w)
           | CacheMalformed => (Ok None, w)
           | CacheMissing => (Throw FsError, w)
           | CacheUnreadable => (Throw SyntaxError, w)
           end.

Definition readCache (env : Env) (o : Oracle) (limit : nat) (soft : bool)
  : M (option (list TokenRow)) :=
  try_catch
    (ex <- existsSync_cache ;;
     if negb ex then ret None
     else
       raw <- parse_cache ;;
       match raw with
       | None => ret None
       | Some (ts, items) =>
           now <- Date_now o ;;
           let age := now - match ts with Some t => t | None => 0 end in
           if soft then ret (Some (JS.slice0 limit items))
           else if age <? Z.pos (JUP_TOKENS_CACHE_TTL_MS env)
                then ret (Some (JS.slice0 limit items))
                else ret None
       end)
    (fun _ => ret None).

(** [writeFileSync(..., JSON.stringify({ ts: Date.now(), items }))] inside
    [try { } catch {}]. *)
Definition saveCache (o : Oracle) (items : list TokenRow) : M unit :=
  try_catch (now <- Date_now o ;; writeCacheFile o now items)
            (fun _ => ret tt).

Definition has_id (x : DirEntry) : bool :=
  match id x with Some _ => true | None => false end.

Definition to_token (x : DirEntry) : TokenRow :=
  mkToken (match id x with Some s => s | None => "" end)
          (e_symbol x) (e_name x) (e_decimals x) (e_tags x).

(** [readCache(limit, true) ?? readSeed(limit)]. *)
Definition cache_or_seed (env : Env) (o : Oracle) (limit : nat)
  : M (list TokenRow) :=
  c <- readCache env o limit true ;;
  match c with
  | Some l => ret l
  | None => readSeed env limit
  end.

(** The request for the verified tag of the token directory. *)
Definition tag_request (env : Env) : Request :=
  mkRequest (TagUrl (api_base env)) (api_headers env).

(** The [try] block of [loadVerifiedTokens]: the tokens of the directory's
    answer, or [null] when the call fails or answers no non-empty array. *)
Definition directory_call (env : Env) (o : Oracle)
  : M (option (list TokenRow)) :=
  try_catch
    (data <- fetchJsonWithBackoff o (tag_request env) 3 1500 ;;
     let arr := match data with
                | BodyArray l => Some l
                | BodyTokens l => Some l
                | _ => None
                end in
     match arr with
     | Some (x :: l) => ret (Some (map to_token (filter has_id (x :: l))))
     | _ => ret None
     end)
    (fun _ => ret None).

Definition loadVerifiedTokens (env : Env) (o : Oracle) (limit : nat)
  : M (list TokenRow) :=
  mkdirSync o ;;;
  if offline env then
    cached <- cache_or_seed env o limit ;;
    saveCache o cached ;;;
    ret cached
  else
    c <- readCache env o limit false ;;
    match c with
    | Some cached => ret cached
    | None =>
        tokens <- directory_call env o ;;
        chosen <- match tokens with
                  | Some (t :: ts) => ret (t :: ts)
                  | _ => cache_or_seed env o limit
                  end ;;
        let finalList := JS.slice0 limit chosen in
        saveCache o finalList ;;;
        ret finalList
    end.

(* ------------------------------------------------------------------ *)
(** *** snapshot: the on-chain fan-out *)

(** [Promise.all(xs.map((x) => limit(async () => ...)))]: every unit runs
    to its end and the call returns when all have.  The units are composed
    here in submission order; the shared arrays they push to are threaded
    through as the accumulator [acc].  (Under the limiter the pushes happen
    in completion order, so the arrays are determined up to the order of
    their elements.) *)
Fixpoint for_each {A S} (f : A -> S -> M S) (l : list A) (acc : S) : M S :=
  match l with
  | [] => ret acc
  | x :: r => acc' <- f x acc ;; for_each f r acc'
  end.

(** [new Connection(url, "confirmed")]: the constructor throws a
    [TypeError] on an endpoint it does not accept. *)
Definition new_Connection (o : Oracle) (endpoint : string) : M unit :=
  fun w => (if endpoint_ok o endpoint then Ok tt else Throw TypeError, w).

Definition new_PublicKey (o : Oracle) (s : string) : M string :=
  fun w => (if pubkey_ok o s then Ok s else Throw InvalidPublicKey, w).

Definition getAccountInfo (o : Oracle) (pk : string) : M (option Owner) :=
  fun w => (accountInfo o (tick w) pk, next w).

Definition getMint (o : Oracle) (pk : string) (programId : ProgramId)
  : M MintInfo :=
  fun w => (mintOf o (tick w) pk programId, next w).

(** [(typeof t.decimals === "number" ? t.decimals : mintInfo.decimals) ?? 0]. *)
Definition row_decimals (t : TokenRow) (mintInfo : MintInfo) : Z :=
  match (match decimals t with
         | Some d => Some d
         | None => m_decimals mintInfo
         end) with
  | Some d => d
  | None => 0
  end.

Definition is_null {A} (x : option A) : Z :=
  match x with None => 1 | Some _ => 0 end.

Definition snapshot_row (ts : Z) (t : TokenRow) (mintInfo : MintInfo)
  : Db.SnapshotRow :=
  Db.mkSnap ts (address t) (symbol t) (row_decimals t mintInfo)
            (is_null (mintAuthority mintInfo))
            (is_null (freezeAuthority mintInfo))
            0 1 None None None (Some 0%float) (Some 0%float) (Some 0%float)
            (Some 0%float) 0 (Some 0%float) None None.

Definition token_row (t : TokenRow) (mintInfo : MintInfo) : Db.TokenDirRow :=
  Db.mkDir (address t) (symbol t) (name t) (row_decimals t mintInfo) 1.

Definition Rows : Type := (list Db.SnapshotRow * list Db.TokenDirRow)%type.

Definition onchain_unit (o : Oracle) (ts : Z) (t : TokenRow) (acc : Rows)
  : M Rows :=
  try_catch
    (mintPk <- new_PublicKey o (address t) ;;
     accInfo <- getAccountInfo o mintPk ;;
     match accInfo with
     | None => ret acc
     | Some owner =>
         let isToken2022 :=
           match owner with
           | OwnedBy TOKEN_2022_PROGRAM_ID => true
           | _ => false
           end in
         let programId :=
           if isToken2022 then TOKEN_2022_PROGRAM_ID else TOKEN_PROGRAM_ID in
         mintInfo <- getMint o mintPk programId ;;
         ret (fst acc ++ [snapshot_row ts t mintInfo],
              snd acc ++ [token_row t mintInfo])
     end)
    (fun _ => ret acc).

(* ------------------------------------------------------------------ *)
(** *** snapshot: the quote fan-out *)

Record Metrics : Type := mkMetrics {
  m_impact_1k_pct : option JS.number;
  m_spread_pct : option JS.number
}.

(** [metricsMap]: an object used as a map from mint to metrics; the newest
    binding of a key comes first and shadows the older ones. *)
Definition MetricsMap : Type := list (string * Metrics).

Definition metrics_set (k : string) (v : Metrics) (m : MetricsMap) : MetricsMap :=
  (k, v) :: m.

Fixpoint metrics_get (k : string) (m : MetricsMap) : option Metrics :=
  match m with
  | [] => None
  | (k', v) :: r => if (k' =? k)%string then Some v else metrics_get k r
  end.

(** The value [1e-12] substituted for a falsy denominator (the binary64
    number nearest to it). *)
Definition negligible : JS.number := 0x1.19799812dea11p-40%float.

(** [BigInt(Math.round(x))]: a [RangeError] unless the number is an
    integer. *)
Definition to_BigInt (x : JS.number) : M Z :=
  match JS.round x with
  | Some z => ret z
  | None => throw RangeError
  end.

Definition Quotes : Type := (list Db.PriceRow * MetricsMap)%type.

(** The round trip on [QUOTE_SPREAD_USD]: the spread, and [priceRows] with
    the mid price pushed when it is accepted. *)
Definition round_trip (env : Env) (o : Oracle) (ts : Z) (t : TokenRow)
    (dec : Z) (priceRows : list Db.PriceRow)
  : M (option JS.number * list Db.PriceRow) :=
  smallUsd <- to_BigInt (QUOTE_SPREAD_USD env * 1000000)%float ;;
  qBuy <- jupQuote env o (USDC_MINT env) (address t) (JS.toString smallUsd) ;;
  match quote_of qBuy with
  | None => ret (None, priceRows)
  | Some qBuy =>
      if JS.truthy_str (outAmount qBuy) then
        let outTok :=
          (JS.Number (parseNumber o) (outAmount qBuy) / pow10 o dec)%float in
        let pBuy := (QUOTE_SPREAD_USD env / JS.or_else outTok negligible)%float in
        qSell <- jupQuote env o (address t) (USDC_MINT env) (outAmount qBuy) ;;
        match quote_of qSell with
        | None => ret (None, priceRows)
        | Some qSell =>
            if JS.truthy_str (outAmount qSell) then
              let outUsd :=
                (JS.Number (parseNumber o) (outAmount qSell) / 1000000)%float in
              let inTok :=
                (JS.Number (parseNumber o) (outAmount qBuy) / pow10 o dec)%float in
              let pSell :=
                (JS.or_else outUsd 0 / JS.or_else inTok negligible)%float in
              let mid := ((pBuy + pSell) / 2)%float in
              if (0 <? mid)%float && JS.isFinite mid then
                ret (Some (((pBuy - pSell) / mid) * 100)%float,
                     priceRows ++ [Db.mkPrice ts (address t) mid])
              else ret (None, priceRows)
            else ret (None, priceRows)
        end
      else ret (None, priceRows)
  end.

(** The body of the [try] of one quote unit. *)
Definition quote_body (env : Env) (o : Oracle) (ts : Z) (t : TokenRow)
    (acc : Quotes) : M Quotes :=
  let dec := match decimals t with Some d => d | None => 0 end in
  buyAmountUSDC <- to_BigInt (QUOTE_IMPACT_USD env * 1000000)%float ;;
  qi <- jupQuote env o (USDC_MINT env) (address t) (JS.toString buyAmountUSDC) ;;
  let impactPct :=
    match quote_of qi with Some q => priceImpactPct q | None => None end in
  sp <- round_trip env o ts t dec (fst acc) ;;
  ret (snd sp, metrics_set (address t) (mkMetrics impactPct (fst sp)) (snd acc)).

Definition quote_unit (env : Env) (o : Oracle) (ts : Z) (t : TokenRow)
    (acc : Quotes) : M Quotes :=
  try_catch (quote_body env o ts t acc)
    (fun _ => ret (fst acc,
                   metrics_set (address t) (mkMetrics None None) (snd acc))).

(** [tokens.filter((t) => t.address !== USDC_MINT)
          .slice(0, Math.min(QUOTE_MAX_TOKENS, tokens.length))]. *)
Definition toQuote (env : Env) (tokens : list TokenRow) : list TokenRow :=
  JS.slice0 (Nat.min (Pos.to_nat (QUOTE_MAX_TOKENS env)) (List.length tokens))
            (filter (fun t => negb (address t =? USDC_MINT env)%string) tokens).

(* ------------------------------------------------------------------ *)
(** *** snapshot: merge, hand-off, result *)

Definition apply_metrics (metricsMap : MetricsMap) (r : Db.SnapshotRow)
  : Db.SnapshotRow :=
  match metrics_get (Db.s_mint r) metricsMap with
  | None => r
  | Some m =>
      Db.mkSnap (Db.s_ts r) (Db.s_mint r) (Db.s_symbol r) (Db.s_decimals r)
        (Db.mint_authority_null r) (Db.freeze_authority_null r)
        (Db.token2022_danger r) (Db.lp_verified r) (Db.tvl_usd r)
        (match m_impact_1k_pct m with
         | Some x => Some x
         | None => Db.impact_1k_pct r
         end)
        (match m_spread_pct m with
         | Some x => Some x
         | None => Db.spread_pct r
         end)
        (Db.r_1m r) (Db.r_5m r) (Db.r_15m r) (Db.volume_5m r)
        (Db.unique_buyers_5m r) (Db.net_buy_usd_5m r) (Db.top10_pct r)
        (Db.flags_json r)
  end.

(** What [snapshot] hands to the store. *)
Record Batch : Type := mkBatch {
  tokenRows : list Db.TokenDirRow;
  rows : list Db.SnapshotRow;
  priceRows : list Db.PriceRow
}.

Record Pruned : Type := mkPruned {
  pruned_snapshots : Z;
  pruned_prices : Z
}.

Record SnapshotResult : Type := mkResult {
  ts : Z;
  savedTokens : Z;
  prunedRows : option Pruned
}.

Definition RETENTION_MS : Z := 48 * 60 * 60 * 1000.

(** Step 1 of [snapshot]: the universe; an exception of the resolver is
    caught and gives the empty list. *)
Definition resolve_universe (env : Env) (o : Oracle) : M (list TokenRow) :=
  try_catch (loadVerifiedTokens env o (Pos.to_nat (TOKEN_LIMIT env)))
            (fun _ => ret []).

(** Steps 1 and 2 of [snapshot]: the epoch, the universe, retention,
    metadata. *)
Definition prepare (env : Env) (o : Oracle) : M (Z * list TokenRow * Pruned) :=
  ts <- Date_now o ;;
  tokens <- resolve_universe env o ;;
  let cutoff := ts - RETENTION_MS in
  beforeSnaps <- db_read (fun d => Db.countRows d Db.TSnapshots) ;;
  beforePrices <- db_read (fun d => Db.countRows d Db.TPrices) ;;
  db_write (fun d => Db.pruneOlderThanMs d cutoff) ;;;
  afterSnaps <- db_read (fun d => Db.countRows d Db.TSnapshots) ;;
  afterPrices <- db_read (fun d => Db.countRows d Db.TPrices) ;;
  db_write (fun d => Db.setMeta d "last_snapshot_ts"
                       (JS.String_ (exponentForm o) ts)) ;;;
  db_write (fun d => Db.setMeta d "rpc_url" (RPC_URL env)) ;;;
  db_write (fun d => Db.setMeta d "token_limit"
                       (JS.String_ (exponentForm o)
                                   (Z.pos (TOKEN_LIMIT env)))) ;;;
  ret (ts, tokens,
       mkPruned (beforeSnaps - afterSnaps) (beforePrices - afterPrices)).

(** Step 4: the quote fan-out, run only online and with quotes enabled. *)
Definition quote_phase (env : Env) (o : Oracle) (ts : Z)
    (tokens : list TokenRow) : M Quotes :=
  if negb (offline env) && quotesEnabled env
  then for_each (quote_unit env o ts) (toQuote env tokens) ([], [])
  else ret ([], []).

(** Step 5: [if (Object.keys(metricsMap).length) for (const r of rows) ...]. *)
Definition merge_metrics (metricsMap : MetricsMap)
    (rows : list Db.SnapshotRow) : list Db.SnapshotRow :=
  match metricsMap with
  | [] => rows
  | _ => map (apply_metrics metricsMap) rows
  end.

(** Steps 3 to 5 for a non-empty universe: the batch. *)
Definition collect (env : Env) (o : Oracle) (ts : Z) (tokens : list TokenRow)
  : M Batch :=
  new_Connection o (RPC_URL env) ;;;
  r <- for_each (onchain_unit o ts) tokens ([], []) ;;
  q <- quote_phase env o ts tokens ;;
  let priceRows := fst q ++ [Db.mkPrice ts (USDC_MINT env) 1%float] in
  let rows := merge_metrics (snd q) (fst r) in
  ret (mkBatch (snd r) rows priceRows).

(** The three store calls that end [snapshot]. *)
Definition persist (b : Batch) : M unit :=
  (match tokenRows b with
   | [] => ret tt
   | _ => db_write (fun d => Db.upsertTokens d (tokenRows b))
   end) ;;;
  (match rows b with
   | [] => ret tt
   | _ => db_try (fun d => Db.insertSnapshots d (rows b))
   end) ;;;
  (match priceRows b with
   | [] => ret tt
   | _ => db_try (fun d => Db.insertPrices d (priceRows b))
   end).

(** [snapshot] up to the hand-off: the epoch, the prune counts, and the
    batch ([None] on the early return for an empty universe). *)
Definition assemble (env : Env) (o : Oracle) : M (Z * Pruned * option Batch) :=
  p <- prepare env o ;;
  let '(ts, tokens, pruned) := p in
  match tokens with
  | [] => ret (ts, pruned, None)
  | _ => b <- collect env o ts tokens ;; ret (ts, pruned, Some b)
  end.

Definition snapshot (env : Env) (o : Oracle) : M SnapshotResult :=
  a <- assemble env o ;;
  let '(ts, pruned, batch) := a in
  match batch with
  | None => ret (mkResult ts 0 (Some pruned))
  | Some b =>
      persist b ;;;
      ret (mkResult ts (Z.of_nat (List.length (rows b))) (Some pruned))
  end.

(* ================================================================== *)
(** ** Vocabulary of the statements *)
(* ================================================================== *)

(** [wp m Q w]: running [m] in world [w] ends in an outcome and a world
    that satisfy [Q]. *)
Definition wp {A} (m : M A) (Q : Res A -> World -> Prop) (w : World) : Prop :=
  Q (fst (m w)) (snd (m w)).

(** The outcome is a normal return whose value and world satisfy [P]. *)
Definition returning {A} (P : A -> World -> Prop) : Res A -> World -> Prop :=
  fun r w => match r with Ok a => P a w | Throw _ => False end.

(** The failure caught at tick [n] for request [req], if the attempt made
    then fails. *)
Definition failure_at (o : Oracle) (req : Request) (n : nat) : option Exn :=
  match http o n req with
  | Failure e => Some e
  | Response _ => None
  end.

(** Attempt number [j] of a call of [fetchJsonWithBackoff] entered at tick
    [t], all earlier attempts having been retried: an attempt takes one
    tick and a retry one more for the random draw. *)
Definition attempt (o : Oracle) (req : Request) (t j : nat) : HttpOutcome :=
  http o (t + 2 * j)%nat req.

Definition retriable_failure (x : HttpOutcome) : Prop :=
  exists e, x = Failure e /\ retriable (status_of e) = true.

(** The delay slept after failed attempt [j]. *)
Definition delay_after (o : Oracle) (maxDelayMs : Z) (t j : nat) : Z :=
  backoff_delay maxDelayMs j (random o (t + 2 * j + 1)%nat).

(** The world after [j] retried attempts: [2 * j] ticks later, with the [j]
    delays slept, the rest untouched. *)
Definition after_retries (o : Oracle) (maxDelayMs : Z) (j : nat) (w : World)
  : World :=
  mkWorld (tick w + 2 * j)%nat (cacheFile w) (seedFile w) (db w)
          (slept w ++ map (delay_after o maxDelayMs (tick w)) (seq 0 j)).

(** Nothing but the tick and the sleep log differs between two worlds:
    the files and the database are the same. *)
Definition quiet (w w' : World) : Prop :=
  cacheFile w' = cacheFile w /\ seedFile w' = seedFile w /\ db w' = db w.

(** The program [snapshot] passes to [getMint] for an account owner. *)
Definition program_of (owner : Owner) : ProgramId :=
  match owner with
  | OwnedBy TOKEN_2022_PROGRAM_ID => TOKEN_2022_PROGRAM_ID
  | _ => TOKEN_PROGRAM_ID
  end.

(** The on-chain lookup of address [a] started at tick [n]: the decoded
    mint when the address is a public key, the account exists and
    [getMint] succeeds; [None] when any of the three fails. *)
Definition lookup (o : Oracle) (n : nat) (a : string) : option MintInfo :=
  if pubkey_ok o a then
    match accountInfo o n a with
    | Ok (Some owner) =>
        match mintOf o (S n) a (program_of owner) with
        | Ok mintInfo => Some mintInfo
        | Throw _ => None
        end
    | _ => None
    end
  else None.

(** Snapshot row [r] and directory row [d] stem from a token [t] of the
    universe and from the mint some lookup of its address returned. *)
Definition row_of (o : Oracle) (ts : Z) (tokens : list TokenRow)
    (r : Db.SnapshotRow) (d : Db.TokenDirRow) : Prop :=
  exists t mintInfo n,
    In t tokens /\ lookup o n (address t) = Some mintInfo /\
    Db.s_ts r = ts /\ Db.s_mint r = address t /\
    Db.s_decimals r = row_decimals t mintInfo /\
    d = token_row t mintInfo.

(** The test [mid > 0 && Number.isFinite(mid)]. *)
Definition accepted (mid : JS.number) : bool :=
  (0 <? mid)%float && JS.isFinite mid.

(** Price row [p] is the accepted mid price of a token of [l] at epoch
    [ts]. *)
Definition quoted_price (ts : Z) (l : list TokenRow) (p : Db.PriceRow) : Prop :=
  Db.p_ts p = ts /\ (exists t, In t l /\ Db.p_mint p = address t) /\
  accepted (Db.price_usd p) = true.

(** What one quote unit does to the shared [priceRows] and [metricsMap]:
    it binds the metrics of its token, and pushes a price row exactly when
    the spread is a number. *)
Definition quoted (ts : Z) (t : TokenRow) (acc acc' : Quotes) : Prop :=
  exists m,
    snd acc' = metrics_set (address t) m (snd acc) /\
    ((m_spread_pct m = None /\ fst acc' = fst acc) \/
     (exists s mid,
        m_spread_pct m = Some s /\ accepted mid = true /\
        fst acc' = fst acc ++ [Db.mkPrice ts (address t) mid])).

(** The seed list: the first [limit] entries of the seed file's array when
    that file holds a non-empty array, of the built-in list otherwise. *)
Definition seed_list (env : Env) (limit : nat) (f : SeedFile) : list TokenRow :=
  match f with
  | SeedArray (x :: l) => JS.slice0 limit (x :: l)
  | _ => JS.slice0 limit (builtin_seed env)
  end.

(** What a read of the cache gives in world [w]: the first [limit] cached
    items, on a soft read whatever their age, otherwise only while the age
    is below the TTL. *)
Definition cache_read (env : Env) (o : Oracle) (limit : nat) (soft : bool)
    (w : World) : option (list TokenRow) :=
  match cacheFile w with
  | CacheData ts items =>
      let age := clock o (tick w) - match ts with Some t => t | None => 0 end in
      if soft || (age <? Z.pos (JUP_TOKENS_CACHE_TTL_MS env))
      then Some (JS.slice0 limit items) else None
  | _ => None
  end.

(** The world after a read of the cache: the clock is read once when the
    file holds cache data. *)
Definition after_read (w : World) : World :=
  match cacheFile w with
  | CacheData _ _ => next w
  | _ => w
  end.

(** The world after [saveCache] started in [w]: the clock is read at tick
    [tick w], the write happens at the next tick and, when it succeeds,
    the file holds the items under that clock value. *)
Definition after_save (o : Oracle) (items : list TokenRow) (w : World) : World :=
  if write_ok o (S (tick w))
  then next (next (set_cache (CacheData (Some (clock o (tick w))) items) w))
  else next (next w).

(** The list [l] is what the directory answered to some attempt: the
    entries with a string [id] of a JSON array, or of the array under
    [tokens], mapped to [TokenRow]s. *)
Definition directory_tokens (env : Env) (o : Oracle) (l : list TokenRow)
  : Prop :=
  exists n entries,
    (http o n (tag_request env) = Response (BodyArray entries) \/
     http o n (tag_request env) = Response (BodyTokens entries)) /\
    l = map to_token (filter has_id entries).

(** A body returned by the fetch is the answer of some attempt. *)
Definition answered (o : Oracle) (req : Request) (r : Res Body) : Prop :=
  forall data, r = Ok data -> exists n, http o n req = Response data.

(** The list of [readCache(limit, true) ?? readSeed(limit)] in world [w]:
    the cached items whatever their age, else the seed list. *)
Definition fallback (env : Env) (o : Oracle) (limit : nat) (w : World)
  : list TokenRow :=
  match cache_read env o limit true w with
  | Some l => l
  | None => seed_list env limit (seedFile w)
  end.

(** The four ways [loadVerifiedTokens], started in [w] with the data
    directory in place, ends with list [l] in world [w']. *)
Inductive resolved (env : Env) (o : Oracle) (limit : nat) (w : World)
    (l : list TokenRow) (w' : World) : Prop :=
| OfflineRead :
    offline env = true ->
    l = fallback env o limit (next w) ->
    w' = after_save o l (after_read (next w)) ->
    resolved env o limit w l w'
| FreshHit :
    offline env = false ->
    cache_read env o limit false (next w) = Some l ->
    w' = after_read (next w) ->
    resolved env o limit w l w'
| FromDirectory (tokens : list TokenRow) (ws : World) :
    offline env = false ->
    cache_read env o limit false (next w) = None ->
    directory_tokens env o tokens -> tokens <> [] ->
    l = JS.slice0 limit tokens ->
    quiet w ws -> w' = after_save o l ws ->
    resolved env o limit w l w'
| StaleOrSeed (ws : World) :
    offline env = false ->
    cache_read env o limit false (next w) = None ->
    quiet w ws ->
    l = fallback env o limit ws ->
    w' = after_save o l (after_read ws) ->
    resolved env o limit w l w'.

(** The database after steps 1 and 2 of a run at epoch [ts]: pruned at
    [ts - 48h], with the three metadata entries set. *)
Definition store_after_prepare (env : Env) (o : Oracle) (ts : Z) (d : Db.DB)
  : Db.DB :=
  Db.setMeta
    (Db.setMeta
       (Db.setMeta (Db.pruneOlderThanMs d (ts - RETENTION_MS))
                   "last_snapshot_ts" (JS.String_ (exponentForm o) ts))
       "rpc_url" (RPC_URL env))
    "token_limit" (JS.String_ (exponentForm o) (Z.pos (TOKEN_LIMIT env))).

(** The prune counts reported for a run at epoch [ts] on database [d]. *)
Definition pruned_counts (ts : Z) (d : Db.DB) : Pruned :=
  mkPruned
    (Db.countRows d Db.TSnapshots
     - Db.countRows (Db.pruneOlderThanMs d (ts - RETENTION_MS)) Db.TSnapshots)
    (Db.countRows d Db.TPrices
     - Db.countRows (Db.pruneOlderThanMs d (ts - RETENTION_MS)) Db.TPrices).

(** The store [d] with the price rows [prs] put in one after the other,
    each replacing the row of its key: what [insertPrices] leaves when the
    rows are stored as they are. *)
Definition with_prices (d : Db.DB) (prs : list Db.PriceRow) : Db.DB :=
  Db.mkDB (Db.snapshots d) (fold_left Db.replace_price prs (Db.prices d))
          (Db.tokens d) (Db.meta d).

(** The fixed price row of the quote-base asset. *)
Definition base_price (env : Env) (ts : Z) : Db.PriceRow :=
  Db.mkPrice ts (USDC_MINT env) 1%float.

(** The prices of a round trip whose buy leg gave [outBuy] and whose sell
    leg gave [outSell], for a token of [dec] decimals. *)
Definition buy_price (env : Env) (o : Oracle) (dec : Z) (outBuy : string)
  : JS.number :=
  (QUOTE_SPREAD_USD env
   / JS.or_else (JS.Number (parseNumber o) outBuy / pow10 o dec)
                negligible)%float.

Definition sell_price (o : Oracle) (dec : Z) (outBuy outSell : string)
  : JS.number :=
  (JS.or_else (JS.Number (parseNumber o) outSell / 1000000) 0
   / JS.or_else (JS.Number (parseNumber o) outBuy / pow10 o dec)
                negligible)%float.

Definition mid_price (env : Env) (o : Oracle) (dec : Z)
    (outBuy outSell : string) : JS.number :=
  ((buy_price env o dec outBuy + sell_price o dec outBuy outSell) / 2)%float.

Definition spread_of (env : Env) (o : Oracle) (dec : Z)
    (outBuy outSell : string) : JS.number :=
  (((buy_price env o dec outBuy - sell_price o dec outBuy outSell)
    / mid_price env o dec outBuy outSell) * 100)%float.

(** [(typeof t.decimals === "number" ? t.decimals : 0) || 0]. *)
Definition quote_decimals (t : TokenRow) : Z :=
  match decimals t with Some d => d | None => 0 end.

(** A quote service that answers the two legs of token [t] whenever it is
    asked, with non-empty amounts. *)
Definition legs_answered (env : Env) (o : Oracle) (t : TokenRow)
    (qBuy qSell : QuoteResp) : Prop :=
  (exists impactUsd,
     JS.round (QUOTE_IMPACT_USD env * 1000000)%float = Some impactUsd) /\
  (exists smallUsd,
     JS.round (QUOTE_SPREAD_USD env * 1000000)%float = Some smallUsd /\
     forall n, http o n (quote_request env (USDC_MINT env) (address t)
                           (JS.toString smallUsd))
               = Response (BodyQuote qBuy)) /\
  JS.truthy_str (outAmount qBuy) = true /\
  (forall n, http o n (quote_request env (address t) (USDC_MINT env)
                         (outAmount qBuy))
             = Response (BodyQuote qSell)) /\
  JS.truthy_str (outAmount qSell) = true.

(* ------------------------------------------------------------------ *)
(** *** Concrete settings, oracles and worlds *)

Module Scenario.

Definition USDC : string := "EPjFWdd5AufqSSqeM2qN1xzybapC8G4wEGGkZwyTDt1v".

Definition BONK : string := "DezXAZ8z7PnrnRJjz3wXBoRgixCa6xjnB7YaB1pPB263".

(** Online, quotes enabled, the default amounts. *)
Definition env_online : Env :=
  mkEnv "https://api.mainnet-beta.solana.com" 50 "" None None 3600000
        (Some "1") 25 1000%float 20%float USDC.

(** Online with quotes disabled. *)
Definition env_plain : Env :=
  mkEnv "https://api.mainnet-beta.solana.com" 50 "" None None 3600000
        None 25 1000%float 20%float USDC.

(** [JUP_OFFLINE=true]. *)
Definition env_offline : Env :=
  mkEnv "https://api.mainnet-beta.solana.com" 50 "" (Some "true") None
        3600000 None 25 1000%float 20%float USDC.

Definition base_token : TokenRow :=
  mkToken USDC (Some "USDC") (Some "USD Coin") (Some 6) (Some ["verified"]).

Definition bonk_token : TokenRow :=
  mkToken BONK (Some "Bonk") (Some "Bonk") (Some 5) (Some ["verified"]).

Definition empty_db : Db.DB := Db.mkDB [] [] [] [].

Definition now : Z := 1700000000000.

(** The clock starts at [now] and advances a millisecond per tick. *)
Definition clock_from (t0 : Z) (n : nat) : Z := t0 + Z.of_nat n.

(** A network on which every request fails with status [status]. *)
Definition http_down (status : option Z) (n : nat) (req : Request)
  : HttpOutcome :=
  Failure (HttpError status).

(** A quote service answering every request with output amount [out]. *)
Definition http_quotes (out : string) (n : nat) (req : Request)
  : HttpOutcome :=
  match url req with
  | QuoteUrl _ _ _ _ => Response (BodyQuote (mkQuote out (Some 0.5%float)))
  | TagUrl _ => Failure (HttpError (Some 503))
  end.

(** A service that is rate limited at tick 0, fails with 503 at tick 2
    and answers from then on. *)
Definition http_flaky (n : nat) (req : Request) : HttpOutcome :=
  match n with
  | 0%nat => Failure (HttpError (Some 429))
  | 2%nat => Failure (HttpError (Some 503))
  | _ => Response BodyOther
  end.

(** The RPC node answers for the base mint only: the lookup of any other
    address fails. *)
Definition chain_base_only (n : nat) (a : string) : Res (option Owner) :=
  if (a =? USDC)%string then Ok (Some (OwnedBy TOKEN_PROGRAM_ID))
  else Throw RpcError.

Definition mint_usdc (n : nat) (a : string) (p : ProgramId) : Res MintInfo :=
  Ok (mkMint (Some 6) (Some "BJE5MMbqXjVwjAF7oxwPYXnTXDyspzZyt4vwenNw5ruG")
             (Some "7dGbd2QZcCKcTndnHcTL8q7SMVXAkp688NTQYwrRCrar")).

(** The base mint as a directory might list it, with 9 decimals where the
    chain says 6. *)
Definition base_mislisted : TokenRow :=
  mkToken USDC (Some "USDC") (Some "USD Coin") (Some 9) None.

(** A cache written three seconds before [now]. *)
Definition recent_cache : CacheFile :=
  CacheData (Some (now - 3000)) [base_token; bonk_token].

(** A seed file listing one token. *)
Definition seed_bonk : SeedFile := SeedArray [bonk_token].

Definition HOUR : Z := 60 * 60 * 1000.

(** A snapshot row and a price row of the base mint written at [t]. *)
Definition old_snapshot (t : Z) : Db.SnapshotRow :=
  Db.mkSnap t USDC (Some "USDC") 6 0 0 0 1 None None None
            (Some 0%float) (Some 0%float) (Some 0%float) (Some 0%float) 0
            (Some 0%float) None None.

Definition old_price (t : Z) : Db.PriceRow := Db.mkPrice t USDC 1%float.

(** A store holding rows written 49 and 47 hours before [now]. *)
Definition db_with_history : Db.DB :=
  Db.mkDB [old_snapshot (now - 49 * HOUR); old_snapshot (now - 47 * HOUR)]
          [old_price (now - 49 * HOUR); old_price (now - 47 * HOUR)]
          [] [].

Definition world_with_history : World :=
  mkWorld 0 recent_cache SeedMissing db_with_history [].

(** A chain on which no account is found. *)
Definition chain_empty (n : nat) (a : string) : Res (option Owner) := Ok None.

(** The correctly rounded power of ten, and for a negative exponent the
    rounded reciprocal of the positive power. *)
Definition power_of_ten (dec : Z) : JS.number :=
  if 0 <=? dec then JS.of_Z (10 ^ dec)
  else PrimFloat.div 1 (JS.of_Z (10 ^ (- dec))).

(** An engine for which every endpoint is good, text that is not all
    digits is no number, and powers are correctly rounded. *)
Definition oracle_on (chain : nat -> string -> Res (option Owner))
    (h : nat -> Request -> HttpOutcome) : Oracle :=
  mkOracle (clock_from now) (fun _ => 0.5%float) h (fun _ => true)
           chain mint_usdc (fun _ => true) (fun _ => true)
           (fun _ => true) (fun _ => PrimFloat.nan) power_of_ten JS.toString.

Definition oracle (h : nat -> Request -> HttpOutcome) : Oracle :=
  oracle_on chain_base_only h.

Definition world (c : CacheFile) (s : SeedFile) : World :=
  mkWorld 0 c s empty_db [].

End Scenario.

(* ================================================================== *)
(** ** More of the sources: the limiter and the command *)
(* ================================================================== *)

(* ------------------------------------------------------------------ *)
(** *** pLimit *)

Module Limit.

(** The bookkeeping of one limiter: the counter [active] and the [queue]
    of waiting [run] closures, each named by the task it starts.  The two
    logs record, for the statements, the tasks started and the tasks whose
    promise settled, in order. *)
Record State : Type := mkState {
  active : Z;
  queue : list nat;
  started : list nat;
  settled : list nat
}.

(** [pLimit(concurrency)]: [let active = 0; const queue = []]. *)
Definition init : State := mkState 0 [] [] [].

(** [run]: [active++; fn()...]. *)
Definition run (id : nat) (s : State) : State :=
  mkState (active s + 1) (queue s) (started s ++ [id]) (settled s).

(** The returned function applied to task [id]:
    [active < concurrency ? run() : queue.push(run)]. *)
Definition submit (concurrency : Z) (id : nat) (s : State) : State :=
  if active s <? concurrency then run id s
  else mkState (active s) (queue s ++ [id]) (started s) (settled s).

(** [next]: [active--; if (queue.length) queue.shift()!()]. *)
Definition next (s : State) : State :=
  match queue s with
  | [] => mkState (active s - 1) [] (started s) (settled s)
  | id :: q => run id (mkState (active s - 1) q (started s) (settled s))
  end.

(** The promise of task [id] settles, fulfilled or rejected: either
    handler ends with [next()]. *)
Definition settle (id : nat) (s : State) : State :=
  next (mkState (active s) (queue s) (started s) (settled s ++ [id])).

(** The states a program can drive a limiter into, with the tasks it
    submitted so far: a task is submitted once, and a promise settles
    once, after its task was started. *)
Inductive reachable (concurrency : Z) : State -> list nat -> Prop :=
| Fresh : reachable concurrency init []
| Submitted s tasks id :
    reachable concurrency s tasks ->
    ~ In id tasks ->
    reachable concurrency (submit concurrency id s) (tasks ++ [id])
| Settled s tasks id :
    reachable concurrency s tasks ->
    In id (started s) -> ~ In id (settled s) ->
    reachable concurrency (settle id s) tasks.

End Limit.

(* ------------------------------------------------------------------ *)
(** *** cli.ts: the [snapshot] command *)

Module Cli.

(** What the command leaves behind in the process: [process.exitCode]
    and whether [db.close()] ran. *)
Record Process : Type := mkProcess {
  exitCode : option Z;
  closed : bool
}.

(** The action from [const db = openDB()] on, the opened database being
    the one of the world: [try { snapshot } catch { exitCode = 1 }
    finally { db.close() }]. *)
Definition action (env : Env) (o : Oracle) (w : World) : Process * World :=
  match snapshot env o w with
  | (Ok res, w') => (mkProcess None true, w')
  | (Throw e, w') => (mkProcess (Some 1) true, w')
  end.

End Cli.

(* ------------------------------------------------------------------ *)
(** *** Keys and reads of the store *)

(** The primary keys of db.ts. *)
Definition snapshot_key (r : Db.SnapshotRow) : Z * string :=
  (Db.s_ts r, Db.s_mint r).

Definition price_key (p : Db.PriceRow) : Z * string :=
  (Db.p_ts p, Db.p_mint p).

(** What [SELECT value FROM meta WHERE key = ?] reads. *)
Definition meta_at (k : string) (m : list (string * string)) : option string :=
  option_map snd (find (fun kv => (fst kv =? k)%string) m).

(** What [SELECT * FROM tokens WHERE mint = ?] reads. *)
Definition token_at (mint : string) (t : list Db.TokenDirRow)
  : option Db.TokenDirRow :=
  find (fun x => (Db.d_mint x =? mint)%string) t.

(** What [SELECT * FROM prices WHERE ts = ? AND mint = ?] reads. *)
Definition price_at (ts : Z) (mint : string) (t : list Db.PriceRow)
  : option Db.PriceRow :=
  find (fun x => (Db.p_ts x =? ts) && (Db.p_mint x =? mint)%string) t.

(** The rows of a table stamped before [cutoff]. *)
Definition older_snapshots (cutoff : Z) (d : Db.DB) : list Db.SnapshotRow :=
  filter (fun r => Db.s_ts r <? cutoff) (Db.snapshots d).

Definition older_prices (cutoff : Z) (d : Db.DB) : list Db.PriceRow :=
  filter (fun r => Db.p_ts r <? cutoff) (Db.prices d).

(* ------------------------------------------------------------------ *)
(** *** Further settings *)

Module Edge.

(** An oracle under which the data directory cannot be made. *)
Definition oracle_no_dir : Oracle :=
  mkOracle (Scenario.clock_from Scenario.now) (fun _ => 0.5%float)
           (Scenario.http_down None) (fun _ => true)
           Scenario.chain_base_only Scenario.mint_usdc
           (fun _ => false) (fun _ => true)
           (fun _ => true) (fun _ => PrimFloat.nan) Scenario.power_of_ten
           JS.toString.

(** An oracle whose RPC client accepts only endpoints that start with
    [http]. *)
Definition oracle_strict : Oracle :=
  mkOracle (Scenario.clock_from Scenario.now) (fun _ => 0.5%float)
           (Scenario.http_down None) (fun _ => true)
           Scenario.chain_base_only Scenario.mint_usdc
           (fun _ => true) (fun _ => true)
           (fun url => String.prefix "http" url) (fun _ => PrimFloat.nan)
           Scenario.power_of_ten JS.toString.

(** The plain environment with an endpoint without a scheme. *)
Definition env_bad_endpoint : Env :=
  mkEnv "localhost:8899" 50 "" None None 3600000
        None 25 1000%float 20%float Scenario.USDC.

(** An oracle whose random draws are all 1/256, below 1/150. *)
Definition oracle_no_jitter (h : nat -> Request -> HttpOutcome) : Oracle :=
  mkOracle (Scenario.clock_from Scenario.now) (fun _ => 0.00390625%float)
           h (fun _ => true)
           Scenario.chain_base_only Scenario.mint_usdc
           (fun _ => true) (fun _ => true)
           (fun _ => true) (fun _ => PrimFloat.nan) Scenario.power_of_ten
           JS.toString.

(** A cache file written three seconds before [Scenario.now] whose list
    is empty. *)
Definition empty_cache : CacheFile := CacheData (Some (Scenario.now - 3000)) [].

(** A cache file of the same age that lists the base mint twice. *)
Definition twin_cache : CacheFile :=
  CacheData (Some (Scenario.now - 3000))
            [Scenario.base_token; Scenario.base_token].

(** A limiter of two slots after three submissions and the end of the
    first task. *)
Definition limiter : Limit.State :=
  Limit.settle 0 (Limit.submit 2 2 (Limit.submit 2 1 (Limit.submit 2 0 Limit.init))).

End Edge.

(** The oracle [o] with the network replaced by [h]. *)
Definition with_http (h : nat -> Request -> HttpOutcome) (o : Oracle) : Oracle :=
  mkOracle (clock o) (random o) h (pubkey_ok o) (accountInfo o) (mintOf o)
           (mkdir_ok o) (write_ok o) (endpoint_ok o) (parseNumber o)
           (pow10 o) (exponentForm o).

(** Between [w] and [w'] at most [k] delays were slept, each between 400
    and 1649 milliseconds, and the sleep log only grew. *)
Definition sleeps (k : nat) (w w' : World) : Prop :=
  exists delays,
    slept w' = slept w ++ delays /\
    (List.length delays <= k)%nat /\
    Forall (fun d => 400 <= d <= 1649) delays.

(** The computation [m] sleeps at most [k] such delays, whatever the world
    it starts in and however it ends. *)
Definition costs {A} (k : nat) (m : M A) : Prop :=
  forall w, sleeps k w (snd (m w)).

(* ================================================================== *)
(** ** Properties *)
(* ================================================================== *)

(** *** The program logic *)

Lemma wp_ret {A} (a : A) Q w : Q (Ok a) w -> wp (ret a) Q w.
Proof. exact (fun H => H). Qed.

Lemma wp_throw {A} (e : Exn) (Q : Res A -> World -> Prop) w :
  Q (Throw e) w -> wp (throw e) Q w.
Proof. exact (fun H => H). Qed.

Lemma wp_bind {A B} (m : M A) (k : A -> M B) Q w :
  wp m (fun r w' => match r with
                    | Ok a => wp (k a) Q w'
                    | Throw e => Q (Throw e) w'
                    end) w ->
  wp (bind m k) Q w.
Proof.
  unfold wp, bind. destruct (m w) as [[a | e] w']; simpl; auto.
Qed.

Lemma wp_try {A} (m : M A) (h : Exn -> M A) Q w :
  wp m (fun r w' => match r with
                    | Ok a => Q (Ok a) w'
                    | Throw e => wp (h e) Q w'
                    end) w ->
  wp (try_catch m h) Q w.
Proof.
  unfold wp, try_catch. destruct (m w) as [[a | e] w']; simpl; auto.
Qed.

Lemma wp_mono {A} (m : M A) (Q Q' : Res A -> World -> Prop) w :
  wp m Q w -> (forall r w', Q r w' -> Q' r w') -> wp m Q' w.
Proof. unfold wp. auto. Qed.

Lemma wp_run {A} (m : M A) Q w r w' : m w = (r, w') -> Q r w' -> wp m Q w.
Proof. unfold wp. intros ->. auto. Qed.

Lemma bind_ok {A B} (m : M A) (k : A -> M B) w a w' :
  m w = (Ok a, w') -> bind m k w = k a w'.
Proof. unfold bind. intros ->. reflexivity. Qed.

Lemma bind_throw {A B} (m : M A) (k : A -> M B) w e w' :
  m w = (Throw e, w') -> bind m k w = (Throw e, w').
Proof. unfold bind. intros ->. reflexivity. Qed.

Lemma wp_returning {A} (m : M A) (P : A -> World -> Prop) w :
  wp m (returning P) w -> exists a w', m w = (Ok a, w') /\ P a w'.
Proof.
  unfold wp, returning. destruct (m w) as [[a | e] w']; simpl; [eauto | tauto].
Qed.

(** *** fetchJsonWithBackoff *)

Lemma after_retries_0 o maxDelayMs w : after_retries o maxDelayMs 0 w = w.
Proof.
  destruct w. unfold after_retries. simpl.
  rewrite Nat.add_0_r, app_nil_r. reflexivity.
Qed.

Lemma seq_snoc (j : nat) : seq 0 (S j) = seq 0 j ++ [j].
Proof. rewrite seq_S. reflexivity. Qed.

(** One retried attempt: from the world reached after [j] retries, a
    retriable failure draws the jitter, sleeps and re-enters the loop. *)
Lemma fetch_loop_retry o req maxDelayMs k j lastErr w e :
  attempt o req (tick w) j = Failure e ->
  retriable (status_of e) = true ->
  fetch_loop o req maxDelayMs (S k) j lastErr (after_retries o maxDelayMs j w)
  = fetch_loop o req maxDelayMs k (S j) (Some e)
      (after_retries o maxDelayMs (S j) w).
Proof.
  intros Hatt Hret. unfold attempt in Hatt.
  cbn [fetch_loop]. unfold try_catch at 1, axios_get at 1.
  cbn [tick after_retries]. rewrite Hatt, Hret.
  unfold bind, Math_random, setTimeout. cbn.
  f_equal. unfold after_retries. rewrite seq_snoc, map_app, app_assoc. cbn.
  f_equal; [lia | ]. unfold delay_after.
  do 3 f_equal. f_equal. lia.
Qed.

(** After [j] retriable failures the loop stands at index [j] with the
    last failure remembered. *)
Lemma fetch_loop_retries o req maxDelayMs w :
  forall j k lastErr,
    (forall m, (m < j)%nat -> retriable_failure (attempt o req (tick w) m)) ->
    fetch_loop o req maxDelayMs (j + k) 0 lastErr w
    = fetch_loop o req maxDelayMs k j
        (match j with
         | O => lastErr
         | S j' => failure_at o req (tick w + 2 * j')
         end)
        (after_retries o maxDelayMs j w).
Proof.
  induction j as [| j IH]; intros k lastErr Hfail.
  - rewrite after_retries_0. reflexivity.
  - replace (S j + k)%nat with (j + S k)%nat by lia.
    rewrite (IH (S k) lastErr) by (intros; apply Hfail; lia).
    destruct (Hfail j) as (e & He & Hr); [lia | ].
    rewrite (fetch_loop_retry _ _ _ _ _ _ _ e He Hr).
    unfold failure_at. unfold attempt in He. rewrite He. reflexivity.
Qed.

Lemma retriable_iff status :
  retriable status = true <->
  exists n, status = Some n /\ (n = 429 \/ 500 <= n < 600).
Proof.
  unfold retriable. destruct status as [n | ].
  - rewrite orb_true_iff, andb_true_iff, Z.eqb_eq, Z.leb_le, Z.ltb_lt.
    split.
    + intros H. exists n. split; [reflexivity | lia].
    + intros (n' & [= <-] & H). lia.
  - split; [discriminate | intros (n & [=] & _)].
Qed.

(** *** The jitter *)

(** A mantissa of [d] binary digits is below [2 ^ d]. *)
Lemma digits2_pos_bound m : Z.pos m < 2 ^ Z.pos (digits2_pos m).
Proof.
  induction m as [m IH | m IH | ]; cbn [digits2_pos].
  - rewrite Pos2Z.inj_succ, Z.pow_succ_r by lia. lia.
  - rewrite Pos2Z.inj_succ, Z.pow_succ_r by lia. lia.
  - reflexivity.
Qed.

(** [Math.floor] of a number in [0, 1) is [0]. *)
Lemma floor_below_one x :
  (0 <=? x)%float = true -> (x <? 1)%float = true -> JS.floor x = 0.
Proof.
  rewrite leb_spec, ltb_spec. unfold JS.floor.
  pose proof (Prim2SF_valid x) as Hvalid.
  replace (Prim2SF 0) with (S754_zero false) by (vm_compute; reflexivity).
  replace (Prim2SF 1) with (S754_finite false 4503599627370496 (-52))
    by (vm_compute; reflexivity).
  destruct (Prim2SF x) as [s | s | | s m e]; try reflexivity.
  destruct s; [discriminate | ]. intros _.
  unfold SpecFloat.valid_binary, bounded, canonical_mantissa, fexp in Hvalid.
  apply andb_true_iff in Hvalid. destruct Hvalid as (Hcanon & _).
  apply Z.eqb_eq in Hcanon.
  pose proof (digits2_pos_bound m) as Hm.
  set (d := Z.pos (digits2_pos m)) in *.
  assert (Hd : d <= 53) by (change prec with 53 in Hcanon; lia).
  clearbody d. clear Hcanon x.
  unfold SFltb, SFcompare.
  destruct (Z.compare_spec e (-52)) as [He | He | He]; [ | | discriminate].
  - subst e.
    destruct (PosDef.Pos.compare_cont Eq m 4503599627370496) eqn:C;
      [discriminate | | discriminate].
    intros _.
    change (if 0 <=? -52 then Z.shiftl (Z.pos m) (-52)
            else Z.shiftr (Z.pos m) (- -52))
      with (Z.shiftr (Z.pos m) 52).
    rewrite (Z.shiftr_div_pow2 (Z.pos m) 52) by discriminate.
    apply Z.div_small. split; [apply Pos2Z.is_nonneg | exact C].
  - intros _. destruct (Z.leb_spec 0 e) as [H0 | _]; [lia | ].
    rewrite Z.shiftr_div_pow2 by lia. apply Z.div_small. split; [lia | ].
    eapply Z.lt_le_trans; [exact Hm | ]. apply Z.pow_le_mono_r; lia.
Qed.

(** [Math.floor] of a number in [0, 150) is between [0] and [149]. *)
Lemma floor_below_150 x :
  (0 <=? x)%float = true -> (x <? 150)%float = true -> 0 <= JS.floor x <= 149.
Proof.
  rewrite leb_spec, ltb_spec. unfold JS.floor.
  pose proof (Prim2SF_valid x) as Hvalid.
  replace (Prim2SF 0) with (S754_zero false) by (vm_compute; reflexivity).
  replace (Prim2SF 150) with (S754_finite false 5277655813324800 (-45))
    by (vm_compute; reflexivity).
  destruct (Prim2SF x) as [s | s | | s m e];
    [intros _ _; split; discriminate
    | destruct s; discriminate
    | discriminate
    | ].
  destruct s; [discriminate | ]. intros _.
  unfold SpecFloat.valid_binary, bounded, canonical_mantissa, fexp in Hvalid.
  apply andb_true_iff in Hvalid. destruct Hvalid as (Hcanon & _).
  apply Z.eqb_eq in Hcanon.
  pose proof (digits2_pos_bound m) as Hm.
  set (d := Z.pos (digits2_pos m)) in *.
  assert (Hd : d <= 53) by (change prec with 53 in Hcanon; lia).
  clearbody d. clear Hcanon x.
  unfold SFltb, SFcompare.
  destruct (Z.compare_spec e (-45)) as [He | He | He]; [ | | discriminate].
  - subst e.
    destruct (PosDef.Pos.compare_cont Eq m 5277655813324800) eqn:C;
      [discriminate | | discriminate].
    intros _.
    change (if 0 <=? -45 then Z.shiftl (Z.pos m) (-45)
            else Z.shiftr (Z.pos m) (- -45))
      with (Z.shiftr (Z.pos m) 45).
    rewrite (Z.shiftr_div_pow2 (Z.pos m) 45) by discriminate.
    split.
    + apply Z.div_pos; [apply Pos2Z.is_nonneg | reflexivity].
    + apply Z.lt_succ_r. apply Z.div_lt_upper_bound; [reflexivity | exact C].
  - intros _. destruct (Z.leb_spec 0 e) as [H0 | _]; [lia | ].
    rewrite Z.shiftr_div_pow2 by lia.
    assert (Hpos : 0 < 2 ^ (- e)) by (apply Z.pow_pos_nonneg; lia).
    assert (Hlow : 2 ^ 46 <= 2 ^ (- e)) by (apply Z.pow_le_mono_r; lia).
    assert (Hhigh : Z.pos m < 2 ^ 46 * 128).
    { eapply Z.lt_le_trans; [exact Hm | ].
      change (2 ^ 46 * 128) with (2 ^ 53). apply Z.pow_le_mono_r; lia. }
    clear Hm. remember (2 ^ 46) as A. remember (2 ^ (- e)) as B.
    clear HeqA HeqB.
    split.
    + apply Z.div_pos; [apply Pos2Z.is_nonneg | exact Hpos].
    + apply Z.lt_succ_r. apply Z.div_lt_upper_bound; [exact Hpos | ].
      change (Z.succ 149) with 150. lia.
Qed.

(** C3, as the code has it.
    [fetchJsonWithBackoff(url, headers, n, maxDelayMs)] with [n >= 1].
    A failure is retriable exactly when its status is 429 or in 500..599.
    After failed attempt [j] the code sleeps
    [min(maxDelayMs, 400 * 2^j) + floor(150 * random)] and tries again;
    the jitter is a whole number of milliseconds that depends on the
    draw: zero whenever the product [150 * random] is below 1, as for a
    draw of 0 or of 1/256, and between 0 and 149 whenever the product is
    below 150; it is 75 for a draw of 0.5.  If attempts [0..j-1] fail
    retriably and attempt [j < n] succeeds, its body is returned at once
    ([j + 1] attempts made, [j] delays slept); if attempt [j] fails with
    any other error, status-less ones included, that error is raised at
    once; if all [n] attempts fail retriably, the failure of the last one
    is raised. *)
Theorem fetchJsonWithBackoff_policy
    (o : Oracle) (req : Request) (n : nat) (maxDelayMs : Z) (w : World)
    (Hn : (1 <= n)%nat) :
  let run := fetchJsonWithBackoff o req n maxDelayMs w in
  let retried j :=
    forall m, (m < j)%nat -> retriable_failure (attempt o req (tick w) m) in
  (forall status, retriable status = true <->
                  exists s, status = Some s /\ (s = 429 \/ 500 <= s < 600))
  /\ retriable None = false
  /\ (forall j, delay_after o maxDelayMs (tick w) j
                = Z.min maxDelayMs (400 * 2 ^ Z.of_nat j)
                  + jitter (random o (tick w + 2 * j + 1)%nat))
  /\ ((forall r, (0 <=? r * 150)%float = true ->
                  ((r * 150 <? 1)%float = true -> jitter r = 0) /\
                  ((r * 150 <? 150)%float = true -> 0 <= jitter r <= 149))
      /\ jitter 0.5%float = 75 /\ jitter 0%float = 0
      /\ jitter 0.00390625%float = 0)
  /\ (forall j data, (j < n)%nat -> retried j ->
        attempt o req (tick w) j = Response data ->
        run = (Ok data, next (after_retries o maxDelayMs j w)))
  /\ (forall j e, (j < n)%nat -> retried j ->
        attempt o req (tick w) j = Failure e ->
        retriable (status_of e) = false ->
        run = (Throw e, next (after_retries o maxDelayMs j w)))
  /\ (forall e, retried n ->
        attempt o req (tick w) (n - 1) = Failure e ->
        run = (Throw e, after_retries o maxDelayMs n w)).
Proof.
  intros run retried. subst run retried. unfold fetchJsonWithBackoff.
  split; [exact retriable_iff | ].
  split; [reflexivity | ].
  split; [reflexivity | ].
  split.
  { split; [ | repeat split; vm_compute; reflexivity].
    intros r Hr. unfold jitter. split; intros Hlt.
    - apply floor_below_one; assumption.
    - apply floor_below_150; assumption. }
  split; [ | split].
  - intros j data Hj Hfail Hatt.
    replace n with (j + S (n - S j))%nat at 1 by lia.
    rewrite fetch_loop_retries by exact Hfail.
    cbn [fetch_loop]. unfold try_catch, axios_get.
    unfold attempt in Hatt. cbn [tick after_retries]. rewrite Hatt.
    reflexivity.
  - intros j e Hj Hfail Hatt Hterm.
    replace n with (j + S (n - S j))%nat at 1 by lia.
    rewrite fetch_loop_retries by exact Hfail.
    cbn [fetch_loop]. unfold try_catch, axios_get.
    unfold attempt in Hatt. cbn [tick after_retries]. rewrite Hatt, Hterm.
    reflexivity.
  - intros e Hfail Hatt.
    replace n with (n + 0)%nat at 1 by lia.
    rewrite fetch_loop_retries by exact Hfail.
    destruct n as [| n']; [lia | ].
    cbn [fetch_loop]. unfold failure_at. unfold attempt in Hatt.
    replace (S n' - 1)%nat with n' in Hatt by lia. rewrite Hatt.
    reflexivity.
Qed.

(** *** What the network and RPC calls leave untouched *)

Lemma quiet_refl w : quiet w w.
Proof. repeat split. Qed.

Lemma quiet_trans w1 w2 w3 : quiet w1 w2 -> quiet w2 w3 -> quiet w1 w3.
Proof.
  unfold quiet. intros (Hc & Hs & Hd) (Hc' & Hs' & Hd').
  repeat split; congruence.
Qed.

Lemma quiet_next w : quiet w (next w).
Proof. repeat split. Qed.

Create HintDb quiet.
#[local] Hint Resolve quiet_refl quiet_next : quiet.

Lemma wp_quiet_trans {A} (m : M A) (P : Res A -> Prop) w0 w :
  quiet w0 w ->
  wp m (fun r w' => P r /\ quiet w w') w ->
  wp m (fun r w' => P r /\ quiet w0 w') w.
Proof.
  intros H0 H. eapply wp_mono; [exact H | ].
  intros r w' (HP & Hq). split; [exact HP | eapply quiet_trans; eauto].
Qed.

(** Rate limited, then a 503, then an answer: two delays of
    [400 + 75] and [800 + 75] milliseconds, three attempts. *)
Lemma fetchJsonWithBackoff_policy_witness :
  fetchJsonWithBackoff (Scenario.oracle Scenario.http_flaky)
    (tag_request Scenario.env_online) 3 1500
    (Scenario.world CacheMissing SeedMissing)
  = (Ok BodyOther,
     mkWorld 5 CacheMissing SeedMissing Scenario.empty_db [475; 875]).
Proof.
  pose proof (fetchJsonWithBackoff_policy
                (Scenario.oracle Scenario.http_flaky)
                (tag_request Scenario.env_online) 3 1500
                (Scenario.world CacheMissing SeedMissing)
                (le_S _ _ (le_S _ _ (le_n 1)))) as H.
  cbv zeta in H. destruct H as (_ & _ & _ & _ & Hok & _ & _).
  rewrite (Hok 2%nat BodyOther).
  - vm_compute. reflexivity.
  - lia.
  - intros m Hm. destruct m as [| [| m]];
      [eexists; split; reflexivity | eexists; split; reflexivity | lia].
  - reflexivity.
Defined.

(** C3 as stated fails on the jitter: with draws of 1/256 the same three
    attempts sleep exactly [400] and [800] milliseconds, the jitter being
    zero both times. *)
Example retry_without_jitter :
  (forall n, random (Edge.oracle_no_jitter Scenario.http_flaky) n
             = 0.00390625%float)
  /\ jitter 0.00390625%float = 0
  /\ fetchJsonWithBackoff (Edge.oracle_no_jitter Scenario.http_flaky)
       (tag_request Scenario.env_online) 3 1500
       (Scenario.world CacheMissing SeedMissing)
     = (Ok BodyOther,
        mkWorld 5 CacheMissing SeedMissing Scenario.empty_db [400; 800]).
Proof.
  split; [intros n; reflexivity | ].
  split; vm_compute; reflexivity.
Qed.

Lemma fetch_loop_quiet o req maxDelayMs :
  forall k i lastErr w,
    wp (fetch_loop o req maxDelayMs k i lastErr)
       (fun r w' => answered o req r /\ quiet w w') w.
Proof.
  induction k as [| k IH]; intros i lastErr w; cbn [fetch_loop].
  - apply wp_throw. split; [intros data [=] | apply quiet_refl].
  - apply wp_try. unfold wp at 1, axios_get.
    destruct (http o (tick w) req) as [data | e] eqn:Hatt; cbn [fst snd].
    + split; [ | apply quiet_next].
      intros data' [= <-]. exists (tick w). exact Hatt.
    + destruct (retriable (status_of e)).
      * apply wp_bind. unfold wp at 1, Math_random. cbn [fst snd].
        apply wp_bind. unfold wp at 1, setTimeout. cbn [fst snd].
        apply wp_quiet_trans; [repeat split | apply IH].
      * apply wp_throw. split; [intros data [=] | apply quiet_next].
Qed.

(** [jupQuote] never throws: whatever the fetch raises becomes [null]. *)
Lemma jupQuote_returns env o inputMint outputMint amount w :
  wp (jupQuote env o inputMint outputMint amount)
     (returning (fun _ w' => quiet w w')) w.
Proof.
  unfold jupQuote. apply wp_try. apply wp_bind.
  eapply wp_mono; [apply fetch_loop_quiet | ].
  intros [data | e] w' (_ & Hq); [apply wp_ret | apply wp_ret]; exact Hq.
Qed.

(** A request answered at the first attempt. *)
Lemma jupQuote_answered env o inputMint outputMint amount w data :
  http o (tick w) (quote_request env inputMint outputMint amount)
  = Response data ->
  jupQuote env o inputMint outputMint amount w = (Ok (Some data), next w).
Proof.
  intros H. unfold jupQuote, fetchJsonWithBackoff, try_catch, bind.
  cbn [fetch_loop]. unfold try_catch, axios_get. rewrite H. reflexivity.
Qed.

(** *** The on-chain fan-out *)

(** One unit appends the rows of its token exactly when the lookup
    started at its tick succeeds, and never throws. *)
Lemma onchain_unit_spec o ts t acc w :
  exists w',
    onchain_unit o ts t acc w
    = (Ok (match lookup o (tick w) (address t) with
           | Some mintInfo => (fst acc ++ [snapshot_row ts t mintInfo],
                               snd acc ++ [token_row t mintInfo])
           | None => acc
           end), w')
    /\ quiet w w'.
Proof.
  unfold onchain_unit, lookup, try_catch, bind, new_PublicKey,
    getAccountInfo, getMint, ret.
  destruct (pubkey_ok o (address t)); [ | eauto with quiet].
  destruct (accountInfo o (tick w) (address t)) as [[owner | ] | e];
    [ | eauto with quiet ..].
  cbn [tick next].
  replace (if match owner with
              | OwnedBy TOKEN_2022_PROGRAM_ID => true
              | _ => false
              end
           then TOKEN_2022_PROGRAM_ID else TOKEN_PROGRAM_ID)
    with (program_of owner) by (destruct owner as [[ | ] | ]; reflexivity).
  destruct (mintOf o (S (tick w)) (address t) (program_of owner));
    eexists; (split; [reflexivity | repeat split]).
Qed.

(** A loop invariant for [for_each] whose units never throw. *)
Lemma for_each_invariant {A S} (f : A -> S -> M S) (l : list A)
    (I : S -> World -> Prop) :
  (forall x acc w, In x l -> I acc w -> wp (f x acc) (returning I) w) ->
  forall acc w, I acc w -> wp (for_each f l acc) (returning I) w.
Proof.
  induction l as [| x l IH]; intros Hf acc w HI; cbn [for_each].
  - apply wp_ret. exact HI.
  - apply wp_bind. eapply wp_mono; [apply (Hf x acc w); [left | ]; auto | ].
    intros [acc' | e] w' H; cbn in H; [ | contradiction].
    apply IH; [ | exact H]. intros y acc0 w0 Hy. apply Hf. right. exact Hy.
Qed.

Lemma for_each_app {A S} (f : A -> S -> M S) (l1 l2 : list A) acc w :
  for_each f (l1 ++ l2) acc w
  = bind (for_each f l1 acc) (for_each f l2) w.
Proof.
  revert acc w. induction l1 as [| x l1 IH]; intros acc w; simpl.
  - reflexivity.
  - unfold bind in *. destruct (f x acc w) as [[acc' | e] w'].
    + apply IH.
    + reflexivity.
Qed.

Lemma row_of_snapshot_row o ts tokens t mintInfo n :
  In t tokens -> lookup o n (address t) = Some mintInfo ->
  row_of o ts tokens (snapshot_row ts t mintInfo) (token_row t mintInfo).
Proof. intros Hin Hl. exists t, mintInfo, n. repeat split; assumption. Qed.

(** The fan-out never throws; every row pair it leaves stems from a token
    of the universe whose lookup succeeded. *)
Lemma onchain_fanout_spec o ts tokens w :
  wp (for_each (onchain_unit o ts) tokens ([], []))
     (returning (fun acc w' =>
        quiet w w' /\ Forall2 (row_of o ts tokens) (fst acc) (snd acc))) w.
Proof.
  apply for_each_invariant; [ | split; [apply quiet_refl | constructor]].
  intros t acc w0 Hin (Hq & Hrows).
  destruct (onchain_unit_spec o ts t acc w0) as (w' & Heq & Hq').
  eapply wp_run; [exact Heq | ]. cbn.
  split; [eapply quiet_trans; eauto | ].
  destruct (lookup o (tick w0) (address t)) as [mintInfo | ] eqn:Hl; cbn.
  - apply Forall2_app; [exact Hrows | ].
    constructor; [ | constructor].
    eapply row_of_snapshot_row; eauto.
  - exact Hrows.
Qed.

(** *** The quote fan-out *)

Lemma round_trip_spec env o ts t dec priceRows w :
  wp (round_trip env o ts t dec priceRows)
     (fun r w' =>
        quiet w w' /\
        match r with
        | Ok (sp, rows') =>
            (sp = None /\ rows' = priceRows) \/
            (exists s mid,
               sp = Some s /\ accepted mid = true /\
               rows' = priceRows ++ [Db.mkPrice ts (address t) mid])
        | Throw _ => True
        end) w.
Proof.
  unfold round_trip. apply wp_bind. unfold to_BigInt.
  destruct (JS.round (QUOTE_SPREAD_USD env * 1000000)%float) as [smallUsd | ];
    [ | apply wp_throw; auto with quiet].
  apply wp_ret. apply wp_bind.
  eapply wp_mono; [apply jupQuote_returns | ].
  intros [rBuy | e] w1 Hq1; cbn in Hq1; [ | contradiction].
  destruct (quote_of rBuy) as [qBuy | ]; [ | apply wp_ret; auto].
  destruct (JS.truthy_str (outAmount qBuy)); [ | apply wp_ret; auto].
  apply wp_bind. eapply wp_mono; [apply jupQuote_returns | ].
  intros [rSell | e] w2 Hq2; cbn in Hq2; [ | contradiction].
  assert (Hq : quiet w w2) by (eapply quiet_trans; eauto).
  destruct (quote_of rSell) as [qSell | ]; [ | apply wp_ret; auto].
  destruct (JS.truthy_str (outAmount qSell)); [ | apply wp_ret; auto].
  match goal with
  | |- context [if ?c then _ else _] => destruct c eqn:Hmid
  end; apply wp_ret; [ | auto].
  split; [exact Hq | ]. right. eexists _, _. repeat split. exact Hmid.
Qed.

(** A quote unit never throws. *)
Lemma quote_unit_spec env o ts t acc w :
  wp (quote_unit env o ts t acc)
     (returning (fun acc' w' => quiet w w' /\ quoted ts t acc acc')) w.
Proof.
  unfold quote_unit. apply wp_try.
  assert (Hcatch : forall w', quiet w w' ->
            wp (ret (fst acc,
                     metrics_set (address t) (mkMetrics None None) (snd acc)))
               (returning (fun acc' w'' => quiet w w'' /\ quoted ts t acc acc'))
               w').
  { intros w' Hq. apply wp_ret. split; [exact Hq | ].
    eexists. split; [reflexivity | left; split; reflexivity]. }
  unfold quote_body. apply wp_bind. unfold to_BigInt.
  destruct (JS.round (QUOTE_IMPACT_USD env * 1000000)%float) as [buyAmountUSDC | ];
    [ | apply wp_throw, Hcatch, quiet_refl].
  apply wp_ret. apply wp_bind.
  eapply wp_mono; [apply jupQuote_returns | ].
  intros [qi | e] w1 Hq1; cbn in Hq1; [ | contradiction].
  apply wp_bind. eapply wp_mono; [apply round_trip_spec | ].
  intros [[sp rows'] | e] w2 (Hq2 & H);
    assert (Hq : quiet w w2) by (eapply quiet_trans; eauto);
    [ | apply Hcatch, Hq].
  apply wp_ret. split; [exact Hq | ].
  eexists. split; [reflexivity | ]. cbn.
  destruct H as [(-> & ->) | (s & mid & -> & Hacc & ->)];
    [left; split; reflexivity | right; eauto].
Qed.

Lemma slice0_In {A} (n : nat) (l : list A) (x : A) :
  In x (JS.slice0 n l) -> In x l.
Proof.
  unfold JS.slice0. intros H. rewrite <- (firstn_skipn n l).
  apply in_or_app. left. exact H.
Qed.

Lemma toQuote_In env tokens t :
  In t (toQuote env tokens) ->
  In t tokens /\ address t <> USDC_MINT env.
Proof.
  unfold toQuote. intros H. apply slice0_In in H.
  apply filter_In in H. destruct H as (Hin & Hne). split; [exact Hin | ].
  apply negb_true_iff, String.eqb_neq in Hne. exact Hne.
Qed.

(** The quote phase never throws; every price row it leaves is an accepted
    mid price of a quoted token, and offline or with quotes disabled it
    leaves nothing. *)
Lemma quote_phase_spec env o ts tokens w :
  wp (quote_phase env o ts tokens)
     (returning (fun q w' =>
        quiet w w' /\
        Forall (quoted_price ts (toQuote env tokens)) (fst q) /\
        (negb (offline env) && quotesEnabled env = false -> q = ([], []))))
     w.
Proof.
  unfold quote_phase.
  destruct (negb (offline env) && quotesEnabled env);
    [ | apply wp_ret; split; [apply quiet_refl | split; [constructor | auto]]].
  eapply wp_mono.
  - apply (for_each_invariant (quote_unit env o ts) (toQuote env tokens)
             (fun q w' => quiet w w' /\
                Forall (quoted_price ts (toQuote env tokens)) (fst q))).
    + intros t acc w0 Hin (Hq & Hall).
      eapply wp_mono; [apply quote_unit_spec | ].
      intros [acc' | e] w' H; cbn in H; [ | contradiction].
      destruct H as (Hq' & m & _ & Hrows). cbn.
      split; [eapply quiet_trans; eauto | ].
      destruct Hrows as [(_ & ->) | (s & mid & _ & Hacc & ->)];
        [exact Hall | ].
      apply Forall_app. split; [exact Hall | ].
      constructor; [ | constructor].
      repeat split; [ | exact Hacc]. exists t. split; [exact Hin | reflexivity].
    + split; [apply quiet_refl | constructor].
  - intros [q | e] w' H; cbn in H |- *; [ | exact H].
    destruct H as (Hq & Hall).
    split; [exact Hq | split; [exact Hall | discriminate]].
Qed.

(** *** The token-universe resolver *)

Lemma readSeed_eq env limit w :
  readSeed env limit w = (Ok (seed_list env limit (seedFile w)), w).
Proof.
  destruct w as [n c [ | | | [| x l]] d sl]; reflexivity.
Qed.

Lemma readCache_eq env o limit soft w :
  readCache env o limit soft w
  = (Ok (cache_read env o limit soft w), after_read w).
Proof.
  destruct w as [n [ | | | ts items] sf d sl]; try reflexivity.
  unfold readCache, cache_read, after_read, bind, try_catch,
    existsSync_cache, parse_cache, Date_now, ret.
  cbn. destruct soft; cbn; [reflexivity | ].
  match goal with |- context [if ?c then _ else _] => destruct c end;
    reflexivity.
Qed.

Lemma saveCache_eq o items w :
  saveCache o items w = (Ok tt, after_save o items w).
Proof.
  unfold saveCache, after_save, try_catch, bind, Date_now, writeCacheFile, ret.
  cbn. destruct (write_ok o (S (tick w))); reflexivity.
Qed.

Lemma cache_or_seed_eq env o limit w :
  cache_or_seed env o limit w = (Ok (fallback env o limit w), after_read w).
Proof.
  unfold cache_or_seed, fallback, bind. rewrite readCache_eq.
  destruct (cache_read env o limit true w); [reflexivity | ].
  rewrite readSeed_eq. unfold after_read.
  destruct (cacheFile w); reflexivity.
Qed.

Lemma after_read_quiet w : quiet w (after_read w).
Proof. unfold after_read. destruct (cacheFile w); auto with quiet. Qed.

Lemma slice0_length {A} (n : nat) (l : list A) :
  (List.length (JS.slice0 n l) <= n)%nat.
Proof. apply firstn_le_length. Qed.

Lemma slice0_idempotent {A} (n : nat) (l : list A) :
  JS.slice0 n (JS.slice0 n l) = JS.slice0 n l.
Proof. unfold JS.slice0. rewrite firstn_firstn, Nat.min_id. reflexivity. Qed.

Lemma seed_list_length env limit f :
  (List.length (seed_list env limit f) <= limit)%nat.
Proof.
  unfold seed_list. destruct f as [ | | | [| x l]]; apply slice0_length.
Qed.

Lemma cache_read_length env o limit soft w l :
  cache_read env o limit soft w = Some l -> (List.length l <= limit)%nat.
Proof.
  unfold cache_read. destruct (cacheFile w); try discriminate.
  match goal with |- context [if ?c then _ else _] => destruct c end;
    [ | discriminate].
  intros [= <-]. apply slice0_length.
Qed.

Lemma fallback_length env o limit w :
  (List.length (fallback env o limit w) <= limit)%nat.
Proof.
  unfold fallback. destruct (cache_read env o limit true w) eqn:E.
  - eapply cache_read_length; eauto.
  - apply seed_list_length.
Qed.

(** The directory call never escapes its [try]; the tokens it gives are
    those of a non-empty array some attempt answered. *)
Lemma directory_call_spec env o w :
  wp (directory_call env o)
     (returning (fun tokens w' =>
        quiet w w' /\
        forall l, tokens = Some l -> directory_tokens env o l)) w.
Proof.
  unfold directory_call. apply wp_try. apply wp_bind.
  eapply wp_mono; [apply fetch_loop_quiet | ].
  intros [data | e] w' (Hans & Hq);
    [ | apply wp_ret; split; [exact Hq | intros l [=]]].
  destruct (Hans data eq_refl) as (n & Hn).
  destruct data as [q | [| x l] | [| x l] | ]; apply wp_ret;
    (split; [exact Hq | ]); intros l0 [= <-].
  - exists n, (x :: l). split; [left; exact Hn | reflexivity].
  - exists n, (x :: l). split; [right; exact Hn | reflexivity].
Qed.

Lemma fallback_sliced env o limit w :
  JS.slice0 limit (fallback env o limit w) = fallback env o limit w.
Proof.
  unfold fallback, cache_read, seed_list.
  destruct (cacheFile w) as [ | | | ts items]; cbn;
    try (destruct (seedFile w) as [ | | | [| x l]]); apply slice0_idempotent.
Qed.

Lemma after_save_quiet_but_cache o l w :
  seedFile (after_save o l w) = seedFile w /\ db (after_save o l w) = db w.
Proof. unfold after_save. destruct (write_ok o (S (tick w))); split; reflexivity. Qed.

(** [loadVerifiedTokens] throws exactly when the data directory cannot be
    made; otherwise it returns a list along one of the four paths. *)
Lemma loadVerifiedTokens_spec env o limit w :
  if mkdir_ok o (tick w)
  then exists l w', loadVerifiedTokens env o limit w = (Ok l, w')
                    /\ resolved env o limit w l w'
  else loadVerifiedTokens env o limit w = (Throw FsError, next w).
Proof.
  unfold loadVerifiedTokens, mkdirSync.
  destruct (mkdir_ok o (tick w)) eqn:Hmk;
    [ | erewrite bind_throw; [reflexivity | cbv beta; rewrite Hmk; reflexivity]].
  erewrite bind_ok by (cbv beta; rewrite Hmk; reflexivity).
  destruct (offline env) eqn:Hoff.
  - erewrite bind_ok by apply cache_or_seed_eq.
    erewrite bind_ok by apply saveCache_eq.
    eexists _, _. split; [reflexivity | ].
    apply OfflineRead; [exact Hoff | reflexivity | reflexivity].
  - erewrite bind_ok by apply readCache_eq.
    destruct (cache_read env o limit false (next w)) as [cached | ] eqn:Hread.
    + eexists _, _. split; [reflexivity | ].
      apply FreshHit; [exact Hoff | exact Hread | reflexivity].
    + destruct (wp_returning _ _ _
                  (directory_call_spec env o (after_read (next w))))
        as (tokens & ws & Hcall & Hq & Hdir).
      erewrite bind_ok by exact Hcall.
      assert (Hws : quiet w ws).
      { eapply quiet_trans; [ | exact Hq].
        eapply quiet_trans; [apply quiet_next | apply after_read_quiet]. }
      destruct tokens as [[| t ts] | ].
      * erewrite bind_ok by apply cache_or_seed_eq.
        erewrite bind_ok by apply saveCache_eq.
        eexists _, _. split; [reflexivity | ].
        rewrite fallback_sliced.
        eapply StaleOrSeed; eauto.
      * erewrite bind_ok by reflexivity.
        erewrite bind_ok by apply saveCache_eq.
        eexists _, _. split; [reflexivity | ].
        eapply FromDirectory; eauto. discriminate.
      * erewrite bind_ok by apply cache_or_seed_eq.
        erewrite bind_ok by apply saveCache_eq.
        eexists _, _. split; [reflexivity | ].
        rewrite fallback_sliced.
        eapply StaleOrSeed; eauto.
Qed.

Lemma resolved_length env o limit w l w' :
  resolved env o limit w l w' -> (List.length l <= limit)%nat.
Proof.
  intros [Hoff -> _ | Hoff Hread _ | tokens ws _ _ _ _ -> _ _ | ws _ _ _ -> _].
  - apply fallback_length.
  - eapply cache_read_length; eauto.
  - apply slice0_length.
  - apply fallback_length.
Qed.

(** The resolver touches neither the seed file nor the database. *)
Lemma resolved_store env o limit w l w' :
  resolved env o limit w l w' ->
  seedFile w' = seedFile w /\ db w' = db w.
Proof.
  assert (Hr : forall w0, quiet w w0 ->
            seedFile (after_read w0) = seedFile w /\ db (after_read w0) = db w).
  { intros w0 Hq. pose proof (quiet_trans _ _ _ Hq (after_read_quiet w0)) as H.
    destruct H as (_ & Hs & Hd). split; assumption. }
  intros [Hoff _ -> | Hoff _ -> | tokens ws _ _ _ _ _ Hq -> | ws _ _ Hq _ ->].
  - destruct (after_save_quiet_but_cache o l (after_read (next w))) as (-> & ->).
    apply Hr, quiet_next.
  - apply Hr, quiet_next.
  - destruct (after_save_quiet_but_cache o l ws) as (-> & ->).
    destruct Hq as (_ & Hs & Hd). split; assumption.
  - destruct (after_save_quiet_but_cache o l (after_read ws)) as (-> & ->).
    apply Hr, Hq.
Qed.

Lemma loadVerifiedTokens_mkdir_fails env o limit w :
  mkdir_ok o (tick w) = false ->
  loadVerifiedTokens env o limit w = (Throw FsError, next w).
Proof.
  intros H. pose proof (loadVerifiedTokens_spec env o limit w) as S.
  rewrite H in S. exact S.
Qed.

Lemma loadVerifiedTokens_returns env o limit w :
  mkdir_ok o (tick w) = true ->
  exists l w', loadVerifiedTokens env o limit w = (Ok l, w')
               /\ resolved env o limit w l w'.
Proof.
  intros H. pose proof (loadVerifiedTokens_spec env o limit w) as S.
  rewrite H in S. exact S.
Qed.

(** Step 1 of [snapshot] always has a universe, and the resolver leaves
    the seed file and the database alone. *)
Lemma resolve_universe_spec env o w :
  exists l w', resolve_universe env o w = (Ok l, w')
               /\ seedFile w' = seedFile w /\ db w' = db w.
Proof.
  unfold resolve_universe, try_catch.
  destruct (mkdir_ok o (tick w)) eqn:Hmk.
  - destruct (loadVerifiedTokens_returns env o (Pos.to_nat (TOKEN_LIMIT env))
                w Hmk) as (l & w' & -> & Hres).
    exists l, w'. split; [reflexivity | eapply resolved_store; eauto].
  - rewrite (loadVerifiedTokens_mkdir_fails env o (Pos.to_nat (TOKEN_LIMIT env))
               w Hmk).
    exists [], (next w). repeat split.
Qed.

(** C8, as the code has it.  The token-universe resolver never raises on
    account of the cache file, the seed file or the network: for every
    limit, every state of the two files (missing, unreadable, malformed,
    stale) and every behaviour of the directory service,
    [loadVerifiedTokens], once the data directory is in place, returns a
    list of at most [limit] tokens taken from the cache, the directory
    answer, or the seed.  It does raise to its caller when the data
    directory cannot be made: [mkdirSync] is called outside any [try],
    before anything is read.  The resolution step of [snapshot] catches
    that and yields a list in every world, the empty one in this case. *)
Theorem resolver_never_raises
    (env : Env) (o : Oracle) (limit : nat) (w : World) :
  (mkdir_ok o (tick w) = true ->
   exists l w',
     loadVerifiedTokens env o limit w = (Ok l, w') /\
     resolved env o limit w l w' /\
     (List.length l <= limit)%nat)
  /\ (mkdir_ok o (tick w) = false ->
      loadVerifiedTokens env o limit w = (Throw FsError, next w) /\
      resolve_universe env o w = (Ok [], next w))
  /\ (exists l w', resolve_universe env o w = (Ok l, w')).
Proof.
  split; [ | split].
  - intros Hmk.
    destruct (loadVerifiedTokens_returns env o limit w Hmk) as (l & w' & H & R).
    exists l, w'. split; [exact H | split; [exact R | ]].
    eapply resolved_length; eauto.
  - intros Hmk. split; [apply loadVerifiedTokens_mkdir_fails; exact Hmk | ].
    unfold resolve_universe, try_catch.
    rewrite (loadVerifiedTokens_mkdir_fails env o _ w Hmk). reflexivity.
  - destruct (resolve_universe_spec env o w) as (l & w' & H & _). eauto.
Qed.

(** With the cache unreadable, the directory down and no seed file, the
    resolver returns the built-in seed. *)
Lemma resolver_never_raises_witness :
  exists w',
    loadVerifiedTokens Scenario.env_online
      (Scenario.oracle (Scenario.http_down (Some 503))) 50
      (Scenario.world CacheUnreadable SeedMissing)
    = (Ok (builtin_seed Scenario.env_online), w').
Proof.
  destruct (proj1 (resolver_never_raises Scenario.env_online
                     (Scenario.oracle (Scenario.http_down (Some 503))) 50
                     (Scenario.world CacheUnreadable SeedMissing))
                  eq_refl) as (l & w' & H & _).
  exists w'. rewrite H. f_equal. f_equal.
  apply (f_equal fst) in H. vm_compute in H. injection H as <-. reflexivity.
Defined.

(** C8 as stated fails when the data directory cannot be made: the
    resolver throws the error of [mkdirSync] to its caller, whatever the
    cache file, the seed file and the network hold. *)
Example resolver_raises_without_data_dir :
  (forall n, mkdir_ok Edge.oracle_no_dir n = false)
  /\ loadVerifiedTokens Scenario.env_online Edge.oracle_no_dir 50
       (Scenario.world Scenario.recent_cache Scenario.seed_bonk)
     = (Throw FsError,
        next (Scenario.world Scenario.recent_cache Scenario.seed_bonk))
  /\ loadVerifiedTokens Scenario.env_offline Edge.oracle_no_dir 50
       (Scenario.world CacheMissing SeedMissing)
     = (Throw FsError, next (Scenario.world CacheMissing SeedMissing)).
Proof.
  split; [intros n; reflexivity | ].
  split; vm_compute; reflexivity.
Qed.

Lemma after_save_cache o l w :
  cacheFile (after_save o l w)
  = (if write_ok o (S (tick w))
     then CacheData (Some (clock o (tick w))) l else cacheFile w)
  /\ tick (after_save o l w) = S (S (tick w)).
Proof.
  unfold after_save. destruct (write_ok o (S (tick w))); split; reflexivity.
Qed.

Lemma after_read_cache w : cacheFile (after_read (next w)) = cacheFile w.
Proof. apply (quiet_trans _ _ _ (quiet_next w) (after_read_quiet (next w))). Qed.

(** C5, as the code has it.  Once the data directory is in place, every
    path of [loadVerifiedTokens] returns at most [limit] tokens.  On a
    fresh cache hit the cached list is returned and the cache file is left
    as it was.  On the other paths (offline, directory answer, stale cache
    or seed) the list is written to the cache file under the clock value
    read just before, and the file keeps its old content when that write
    fails. *)
Theorem resolve_bounded_and_cached
    (env : Env) (o : Oracle) (limit : nat) (w : World)
    (Hdir : mkdir_ok o (tick w) = true) :
  exists l w',
    loadVerifiedTokens env o limit w = (Ok l, w') /\
    (List.length l <= limit)%nat /\
    ((offline env = false /\
      cache_read env o limit false (next w) = Some l /\
      cacheFile w' = cacheFile w)
     \/
     ((offline env = true \/ cache_read env o limit false (next w) = None) /\
      exists n,
        tick w' = S (S n) /\
        cacheFile w' = (if write_ok o (S n)
                        then CacheData (Some (clock o n)) l
                        else cacheFile w))).
Proof.
  destruct (loadVerifiedTokens_returns env o limit w Hdir) as (l & w' & H & R).
  exists l, w'. split; [exact H | ].
  split; [eapply resolved_length; eauto | ].
  destruct R as [Hoff _ -> | Hoff Hread -> | tokens ws Hoff Hread _ _ _ Hq ->
                | ws Hoff Hread Hq _ ->].
  - right. split; [left; exact Hoff | ].
    exists (tick (after_read (next w))).
    destruct (after_save_cache o l (after_read (next w))) as (-> & ->).
    rewrite after_read_cache. split; reflexivity.
  - left. split; [exact Hoff | split; [exact Hread | ]].
    apply after_read_cache.
  - right. split; [right; exact Hread | ].
    exists (tick ws). destruct (after_save_cache o l ws) as (-> & ->).
    destruct Hq as (-> & _). split; reflexivity.
  - right. split; [right; exact Hread | ].
    exists (tick (after_read ws)).
    destruct (after_save_cache o l (after_read ws)) as (-> & ->).
    destruct (quiet_trans _ _ _ Hq (after_read_quiet ws)) as (-> & _).
    split; reflexivity.
Qed.

(** Offline with an empty data directory: the built-in seed is returned
    and written to the cache under the clock value of tick 1. *)
Lemma resolve_bounded_and_cached_witness :
  exists w',
    loadVerifiedTokens Scenario.env_offline
      (Scenario.oracle (Scenario.http_down None)) 50
      (Scenario.world CacheMissing SeedMissing)
    = (Ok (builtin_seed Scenario.env_offline), w') /\
    cacheFile w' = CacheData (Some (Scenario.now + 1))
                             (builtin_seed Scenario.env_offline).
Proof.
  destruct (resolve_bounded_and_cached Scenario.env_offline
              (Scenario.oracle (Scenario.http_down None)) 50
              (Scenario.world CacheMissing SeedMissing) eq_refl)
    as (l & w' & H & _).
  exists w'. rewrite H.
  vm_compute in H. injection H as <- <-. split; reflexivity.
Defined.

(** C5 as stated fails on a fresh cache hit: the cached list is returned
    and the cache file still carries the timestamp it had, three seconds
    before the clock of this run. *)
Lemma fresh_hit_is_not_persisted :
  exists l w',
    loadVerifiedTokens Scenario.env_online
      (Scenario.oracle (Scenario.http_down None)) 50
      (Scenario.world Scenario.recent_cache SeedMissing) = (Ok l, w')
    /\ clock (Scenario.oracle (Scenario.http_down None)) 0 = Scenario.now
    /\ cacheFile w' = CacheData (Some (Scenario.now - 3000)) l
    /\ forall n, cacheFile w'
                 <> CacheData
                      (Some (clock (Scenario.oracle (Scenario.http_down None)) n))
                      l.
Proof.
  eexists _, _. split; [vm_compute; reflexivity | ].
  split; [reflexivity | split; [vm_compute; reflexivity | ]].
  intros n H.
  apply (f_equal (fun c => match c with
                           | CacheData (Some t) _ => t
                           | _ => 0
                           end)) in H.
  change (Scenario.now - 3000 = Scenario.now + Z.of_nat n) in H.
  lia.
Qed.

Lemma seed_list_sliced env limit f :
  JS.slice0 limit (seed_list env limit f) = seed_list env limit f.
Proof.
  unfold seed_list. destruct f as [ | | | [| x l]]; apply slice0_idempotent.
Qed.

Lemma fallback_no_cache env o limit w :
  cacheFile w = CacheMissing ->
  fallback env o limit w = seed_list env limit (seedFile w)
  /\ after_read w = w.
Proof.
  intros H. unfold fallback, cache_read, after_read. rewrite H.
  split; reflexivity.
Qed.

(** The offline path, by inversion of the four paths. *)
Lemma offline_resolved env o limit w l w' :
  offline env = true ->
  resolved env o limit w l w' ->
  l = fallback env o limit (next w)
  /\ w' = after_save o l (after_read (next w)).
Proof.
  intros Hoff [_ H1 H2 | Hon _ _ | ? ? Hon _ _ _ _ _ _ | ? Hon _ _ _ _];
    [split; assumption | congruence ..].
Qed.

(** C4, as the code has it.  Offline, with no cache file and the data
    directory in place, [loadVerifiedTokens(limit)] returns the seed list
    cut to [limit]: the array of the seed file when that file holds a
    non-empty array, the built-in list otherwise.  A second call returns
    exactly the same list; when the write of the first call succeeded the
    cache file holds that list and the second call reads it from there. *)
Theorem offline_round_trip
    (env : Env) (o : Oracle) (limit : nat) (w : World)
    (Hoff : offline env = true)
    (Hcache : cacheFile w = CacheMissing)
    (Hdir : mkdir_ok o (tick w) = true) :
  let seed := seed_list env limit (seedFile w) in
  exists w1,
    loadVerifiedTokens env o limit w = (Ok seed, w1) /\
    ((forall x l, seedFile w <> SeedArray (x :: l)) ->
     seed = JS.slice0 limit (builtin_seed env)) /\
    (mkdir_ok o (tick w1) = true ->
     exists w2, loadVerifiedTokens env o limit w1 = (Ok seed, w2)) /\
    (write_ok o (S (S (tick w))) = true ->
     cacheFile w1 = CacheData (Some (clock o (S (tick w)))) seed /\
     cache_read env o limit true (next w1) = Some seed).
Proof.
  intros seed.
  destruct (loadVerifiedTokens_returns env o limit w Hdir) as (l & w1 & H & R).
  destruct (offline_resolved _ _ _ _ _ _ Hoff R) as (Hl & Hw1).
  destruct (fallback_no_cache env o limit (next w) Hcache) as (Hfb & Hrd).
  rewrite Hfb in Hl. rewrite Hrd in Hw1. change (l = seed) in Hl. subst l.
  assert (Hseed1 : seedFile w1 = seedFile w).
  { rewrite Hw1.
    exact (proj1 (after_save_quiet_but_cache o seed (next w))). }
  assert (Hcache1 : cacheFile w1
                    = if write_ok o (S (S (tick w)))
                      then CacheData (Some (clock o (S (tick w)))) seed
                      else CacheMissing).
  { rewrite Hw1. destruct (after_save_cache o seed (next w)) as (-> & _).
    cbn [tick next cacheFile]. rewrite Hcache. reflexivity. }
  assert (Hsoft : write_ok o (S (S (tick w))) = true ->
                  cache_read env o limit true (next w1) = Some seed).
  { intros Hw. unfold cache_read. cbn [cacheFile next].
    rewrite Hcache1, Hw. cbn. f_equal. apply seed_list_sliced. }
  exists w1. split; [exact H | ]. split; [ | split].
  - intros Hnone. subst seed. unfold seed_list.
    destruct (seedFile w) as [ | | | [| x l]]; try reflexivity.
    exfalso. exact (Hnone x l eq_refl).
  - intros Hdir1.
    destruct (loadVerifiedTokens_returns env o limit w1 Hdir1)
      as (l2 & w2 & H2 & R2).
    destruct (offline_resolved _ _ _ _ _ _ Hoff R2) as (Hl2 & _).
    exists w2. rewrite H2. f_equal. f_equal. rewrite Hl2.
    unfold fallback.
    destruct (write_ok o (S (S (tick w)))) eqn:Hw.
    + rewrite (Hsoft eq_refl). reflexivity.
    + unfold cache_read. cbn [cacheFile next seedFile]. rewrite Hcache1.
      rewrite Hseed1. reflexivity.
  - intros Hw. split; [ | exact (Hsoft Hw)].
    rewrite Hcache1, Hw. reflexivity.
Qed.

(** Offline in an empty data directory, limit 1: the first built-in entry,
    both times. *)
Lemma offline_round_trip_witness :
  exists w1 w2,
    loadVerifiedTokens Scenario.env_offline
      (Scenario.oracle (Scenario.http_down None)) 1
      (Scenario.world CacheMissing SeedMissing)
    = (Ok (JS.slice0 1 (builtin_seed Scenario.env_offline)), w1)
    /\ loadVerifiedTokens Scenario.env_offline
         (Scenario.oracle (Scenario.http_down None)) 1 w1
       = (Ok (JS.slice0 1 (builtin_seed Scenario.env_offline)), w2).
Proof.
  destruct (offline_round_trip Scenario.env_offline
              (Scenario.oracle (Scenario.http_down None)) 1
              (Scenario.world CacheMissing SeedMissing)
              eq_refl eq_refl eq_refl) as (w1 & H1 & _ & H2 & _).
  destruct (H2 eq_refl) as (w2 & H3).
  exists w1, w2. split; [exact H1 | exact H3].
Defined.

(** C4 as stated fails when a seed file is present: offline and without a
    cache, the list returned is the seed file's, not the built-in one. *)
Lemma seed_file_overrides_builtin :
  exists w',
    offline Scenario.env_offline = true
    /\ loadVerifiedTokens Scenario.env_offline
         (Scenario.oracle (Scenario.http_down None)) 50
         (Scenario.world CacheMissing Scenario.seed_bonk)
       = (Ok [Scenario.bonk_token], w')
    /\ [Scenario.bonk_token]
       <> JS.slice0 50 (builtin_seed Scenario.env_offline).
Proof.
  eexists. split; [reflexivity | ].
  split; [vm_compute; reflexivity | ].
  intros H. apply (f_equal (@List.length TokenRow)) in H. discriminate H.
Qed.

(** *** snapshot: preparation, batch, hand-off *)

Lemma set_db_same w : set_db (db w) w = w.
Proof. destruct w. reflexivity. Qed.

(** Steps 1 and 2 never throw: the epoch is the clock at entry, the
    universe is what the resolution step gave, and the database is pruned
    at the epoch minus 48 hours. *)
Lemma prepare_spec env o w :
  exists tokens w1,
    resolve_universe env o (next w) = (Ok tokens, w1) /\
    prepare env o w
    = (Ok (clock o (tick w), tokens, pruned_counts (clock o (tick w)) (db w)),
       set_db (store_after_prepare env o (clock o (tick w)) (db w)) w1).
Proof.
  destruct (resolve_universe_spec env o (next w)) as (tokens & w1 & H & _ & Hdb).
  exists tokens, w1. split; [exact H | ].
  unfold prepare. erewrite bind_ok by reflexivity.
  erewrite bind_ok by exact H.
  unfold bind, db_read, db_write, ret, store_after_prepare, pruned_counts.
  cbn [db set_db]. change (db (next w)) with (db w) in Hdb. rewrite Hdb.
  destruct w1. reflexivity.
Qed.

Lemma apply_metrics_keeps m r :
  Db.s_ts (apply_metrics m r) = Db.s_ts r /\
  Db.s_mint (apply_metrics m r) = Db.s_mint r /\
  Db.s_decimals (apply_metrics m r) = Db.s_decimals r.
Proof.
  unfold apply_metrics. destruct (metrics_get (Db.s_mint r) m);
    repeat split; reflexivity.
Qed.

Lemma merge_metrics_length m rs :
  List.length (merge_metrics m rs) = List.length rs.
Proof. unfold merge_metrics. destruct m; [reflexivity | apply length_map]. Qed.

Lemma merge_metrics_row_of o ts tokens m rs ds :
  Forall2 (row_of o ts tokens) rs ds ->
  Forall2 (row_of o ts tokens) (merge_metrics m rs) ds.
Proof.
  assert (Hmap : Forall2 (row_of o ts tokens) rs ds ->
                 Forall2 (row_of o ts tokens) (map (apply_metrics m) rs) ds).
  { induction 1 as [| r d rs' ds' Hrd _ IH]; cbn; constructor; [ | exact IH].
    destruct Hrd as (t & mintInfo & n & Hin & Hl & Hts & Hm & Hd & Hdir).
    destruct (apply_metrics_keeps m r) as (E1 & E2 & E3).
    exists t, mintInfo, n. rewrite E1, E2, E3. repeat split; assumption. }
  unfold merge_metrics. destruct m; [auto | exact Hmap].
Qed.

(** Steps 3 to 5 never throw.  The batch pairs the snapshot rows with the
    directory rows of the tokens whose lookup succeeded, and its price
    rows are the accepted mid prices of quoted tokens followed by the row
    of the base asset. *)
Lemma collect_spec env o ts tokens w :
  exists r q w1 w',
    for_each (onchain_unit o ts) tokens ([], []) w = (Ok r, w1) /\
    quote_phase env o ts tokens w1 = (Ok q, w') /\
    collect env o ts tokens w
    = (if endpoint_ok o (RPC_URL env)
       then (Ok (mkBatch (snd r) (merge_metrics (snd q) (fst r))
                         (fst q ++ [base_price env ts])), w')
       else (Throw TypeError, w)) /\
    quiet w w' /\
    Forall2 (row_of o ts tokens) (fst r) (snd r) /\
    Forall (quoted_price ts (toQuote env tokens)) (fst q) /\
    (negb (offline env) && quotesEnabled env = false -> q = ([], [])).
Proof.
  destruct (wp_returning _ _ _ (onchain_fanout_spec o ts tokens w))
    as (r & w1 & Hr & Hq1 & Hrows).
  destruct (wp_returning _ _ _ (quote_phase_spec env o ts tokens w1))
    as (q & w' & Hq & Hq2 & Hprices & Hoff).
  exists r, q, w1, w'. split; [exact Hr | ]. split; [exact Hq | ].
  split; [ | split; [eapply quiet_trans; eauto | auto]].
  unfold collect. unfold bind at 1, new_Connection.
  destruct (endpoint_ok o (RPC_URL env)); [ | reflexivity].
  erewrite bind_ok by exact Hr.
  erewrite bind_ok by exact Hq. reflexivity.
Qed.

(** A batch is collected only with an RPC client, and is then the one of
    the two fan-outs. *)
Lemma collect_returns env o ts tokens w b w' :
  collect env o ts tokens w = (Ok b, w') ->
  endpoint_ok o (RPC_URL env) = true /\
  exists r q w1,
    for_each (onchain_unit o ts) tokens ([], []) w = (Ok r, w1) /\
    quote_phase env o ts tokens w1 = (Ok q, w') /\
    b = mkBatch (snd r) (merge_metrics (snd q) (fst r))
                (fst q ++ [base_price env ts]) /\
    quiet w w' /\
    Forall2 (row_of o ts tokens) (fst r) (snd r) /\
    Forall (quoted_price ts (toQuote env tokens)) (fst q) /\
    (negb (offline env) && quotesEnabled env = false -> q = ([], [])).
Proof.
  intros H.
  destruct (collect_spec env o ts tokens w)
    as (r & q & w1 & w2 & Hr & Hq & Hc & Hquiet & Hrows & Hprices & Hoff).
  rewrite Hc in H.
  destruct (endpoint_ok o (RPC_URL env)); [ | discriminate].
  injection H as <- <-. split; [reflexivity | ].
  exists r, q, w1. split; [exact Hr | ]. split; [exact Hq | ].
  split; [reflexivity | ]. split; [exact Hquiet | ].
  split; [exact Hrows | ]. split; [exact Hprices | exact Hoff].
Qed.

(** Without an RPC client nothing is collected and nothing has happened. *)
Lemma collect_throws env o ts tokens w :
  endpoint_ok o (RPC_URL env) = false ->
  collect env o ts tokens w = (Throw TypeError, w).
Proof.
  intros H. unfold collect. unfold bind at 1, new_Connection. rewrite H.
  reflexivity.
Qed.

(** [snapshot] up to the hand-off throws only for want of an RPC client,
    and then with an empty universe it does not even ask for one. *)
Lemma assemble_spec env o w :
  exists tokens w1,
    prepare env o w
    = (Ok (clock o (tick w), tokens, pruned_counts (clock o (tick w)) (db w)),
       w1) /\
    db w1 = store_after_prepare env o (clock o (tick w)) (db w) /\
    match tokens with
    | [] =>
        assemble env o w
        = (Ok (clock o (tick w), pruned_counts (clock o (tick w)) (db w), None),
           w1)
    | _ =>
        if endpoint_ok o (RPC_URL env)
        then exists b w2,
               collect env o (clock o (tick w)) tokens w1 = (Ok b, w2) /\
               assemble env o w
               = (Ok (clock o (tick w),
                      pruned_counts (clock o (tick w)) (db w), Some b), w2)
        else assemble env o w = (Throw TypeError, w1)
    end.
Proof.
  destruct (prepare_spec env o w) as (tokens & w0 & _ & Hp).
  eexists tokens, _. split; [exact Hp | ]. split; [reflexivity | ].
  unfold assemble. destruct tokens as [| t tokens].
  - erewrite bind_ok by exact Hp. reflexivity.
  - destruct (collect_spec env o (clock o (tick w)) (t :: tokens)
                (set_db (store_after_prepare env o (clock o (tick w)) (db w)) w0))
      as (r & q & w1 & w2 & _ & _ & Hc & _).
    destruct (endpoint_ok o (RPC_URL env)).
    + eexists _, w2. split; [exact Hc | ].
      erewrite bind_ok by exact Hp. cbv iota beta.
      erewrite bind_ok by exact Hc. reflexivity.
    + erewrite bind_ok by exact Hp. cbv iota beta.
      erewrite bind_throw by exact Hc. reflexivity.
Qed.

(** A batch that reaches the hand-off was collected in the prepared
    world. *)
Lemma assemble_batch env o w ts pruned b w2 :
  assemble env o w = (Ok (ts, pruned, Some b), w2) ->
  ts = clock o (tick w) /\
  pruned = pruned_counts (clock o (tick w)) (db w) /\
  exists tokens w1,
    resolve_universe env o (next w) = (Ok tokens, w1) /\
    tokens <> [] /\
    collect env o ts tokens
            (set_db (store_after_prepare env o ts (db w)) w1) = (Ok b, w2).
Proof.
  intros H.
  destruct (prepare_spec env o w) as (tokens & w1 & Hres & Hp).
  unfold assemble in H. erewrite bind_ok in H by exact Hp. cbv iota beta in H.
  destruct tokens as [| t tokens]; [discriminate | ].
  destruct (collect env o (clock o (tick w)) (t :: tokens)
              (set_db (store_after_prepare env o (clock o (tick w)) (db w)) w1))
    as [[b' | e] w2'] eqn:Hc.
  - erewrite bind_ok in H by exact Hc. injection H as <- <- <- <-.
    split; [reflexivity | ]. split; [reflexivity | ].
    exists (t :: tokens), w1. split; [exact Hres | ].
    split; [discriminate | exact Hc].
  - erewrite bind_throw in H by exact Hc. discriminate.
Qed.

(** *** Numbers as the store keeps them *)

Lemma accepted_real x : accepted x = true -> Db.real x = Some x.
Proof.
  unfold accepted, JS.isFinite, PrimFloat.is_finite, Db.real.
  rewrite andb_true_iff, negb_true_iff, orb_false_iff.
  intros (Hpos & Hnan & _). rewrite Hnan.
  replace (PrimFloat.eqb x 0) with false; [reflexivity | ].
  symmetry. rewrite ltb_spec in Hpos. rewrite eqb_spec.
  change (Prim2SF 0) with (S754_zero false) in *.
  destruct (Prim2SF x) as [s | s | | s m e]; try reflexivity;
    cbn in Hpos; try discriminate; destruct s; try discriminate; reflexivity.
Qed.

(** Price rows with finite, strictly positive prices are stored as they
    are, and [insertPrices] does not throw on them. *)
Lemma insert_price_rows_accepted prs :
  Forall (fun p => accepted (Db.price_usd p) = true) prs ->
  forall tbl,
    Db.insert_price_rows prs tbl = Some (fold_left Db.replace_price prs tbl).
Proof.
  induction 1 as [| p prs Hp _ IH]; intros tbl; cbn [Db.insert_price_rows];
    [reflexivity | ].
  unfold Db.stored_price. rewrite (accepted_real _ Hp). cbn [option_map].
  destruct p as [pts pmint price]. cbn [Db.p_ts Db.p_mint Db.price_usd].
  rewrite IH. reflexivity.
Qed.

Lemma insertPrices_accepted d prs :
  Forall (fun p => accepted (Db.price_usd p) = true) prs ->
  Db.insertPrices d prs = Ok (with_prices d prs).
Proof.
  intros H. unfold Db.insertPrices, with_prices.
  rewrite (insert_price_rows_accepted _ H).
  destruct prs; [destruct d | ]; reflexivity.
Qed.

(** The price rows of a batch are finite and strictly positive. *)
Lemma collect_prices_accepted env o ts tokens w b w' :
  collect env o ts tokens w = (Ok b, w') ->
  Forall (fun p => accepted (Db.price_usd p) = true) (priceRows b).
Proof.
  intros H.
  destruct (collect_returns _ _ _ _ _ _ _ H)
    as (_ & r & q & w1 & _ & _ & -> & _ & _ & Hprices & _).
  cbn [priceRows]. apply Forall_app. split.
  - eapply Forall_impl; [ | exact Hprices]. intros p (_ & _ & Ha). exact Ha.
  - constructor; [vm_compute; reflexivity | constructor].
Qed.

(** The three store calls on a batch whose prices are finite and strictly
    positive: only the insertion of snapshot rows can throw, and then the
    directory rows are already written. *)
Lemma persist_eq b w :
  Forall (fun p => accepted (Db.price_usd p) = true) (priceRows b) ->
  persist b w
  = match Db.insertSnapshots (Db.upsertTokens (db w) (tokenRows b)) (rows b) with
    | Ok d => (Ok tt, set_db (with_prices d (priceRows b)) w)
    | Throw e => (Throw e, set_db (Db.upsertTokens (db w) (tokenRows b)) w)
    end.
Proof.
  intros Hacc.
  destruct b as [trs rs prs]. unfold persist. cbn [tokenRows rows priceRows].
  assert (Hup : forall w0,
            match trs with
            | [] => ret tt
            | _ => db_write (fun d => Db.upsertTokens d trs)
            end w0 = (Ok tt, set_db (Db.upsertTokens (db w0) trs) w0)).
  { intros [n c sf [sn pr tk mt] sl]. destruct trs; reflexivity. }
  assert (Hins : forall w0,
            match rs with
            | [] => ret tt
            | _ => db_try (fun d => Db.insertSnapshots d rs)
            end w0
            = match Db.insertSnapshots (db w0) rs with
              | Ok d => (Ok tt, set_db d w0)
              | Throw e => (Throw e, w0)
              end).
  { intros [n c sf d sl]. destruct rs; reflexivity. }
  assert (Hpr : forall w0,
            match prs with
            | [] => ret tt
            | _ => db_try (fun d => Db.insertPrices d prs)
            end w0 = (Ok tt, set_db (with_prices (db w0) prs) w0)).
  { intros w0. cbn [priceRows] in Hacc.
    pose proof (insertPrices_accepted (db w0) prs Hacc) as Hok.
    destruct prs; [destruct w0 as [n c sf [sn pr tk mt] sl]; reflexivity | ].
    unfold db_try. rewrite Hok. reflexivity. }
  erewrite bind_ok by apply Hup. unfold bind at 1. rewrite Hins.
  cbn [db set_db].
  destruct (Db.insertSnapshots (Db.upsertTokens (db w) trs) rs) as [d | e];
    [ | reflexivity].
  rewrite Hpr. destruct w. reflexivity.
Qed.

Lemma row_of_epoch o ts tokens rs ds :
  Forall2 (row_of o ts tokens) rs ds -> Forall (fun r => Db.s_ts r = ts) rs.
Proof.
  induction 1 as [| r d rs' ds' Hrd _ IH]; constructor; [ | exact IH].
  destruct Hrd as (t & mintInfo & n & _ & _ & Hts & _). exact Hts.
Qed.

(** Every row of a batch carries the epoch the batch was collected for. *)
Lemma collect_epoch env o ts tokens w b w' :
  collect env o ts tokens w = (Ok b, w') ->
  Forall (fun r => Db.s_ts r = ts) (rows b) /\
  Forall (fun p => Db.p_ts p = ts) (priceRows b).
Proof.
  intros H.
  destruct (collect_returns _ _ _ _ _ _ _ H)
    as (_ & r & q & w1 & _ & _ & -> & _ & Hrows & Hprices & _).
  cbn [rows priceRows]. split.
  - eapply row_of_epoch. apply merge_metrics_row_of. exact Hrows.
  - apply Forall_app. split.
    + eapply Forall_impl; [ | exact Hprices]. intros p (Hts & _). exact Hts.
    + constructor; [reflexivity | constructor].
Qed.

(** The epoch reported by [snapshot] is the clock read at entry. *)
Lemma snapshot_result_epoch env o w res w' :
  snapshot env o w = (Ok res, w') -> ts res = clock o (tick w).
Proof.
  destruct (assemble_spec env o w) as (tokens & w1 & _ & _ & Ha).
  unfold snapshot. destruct tokens as [| t tokens].
  - erewrite bind_ok by exact Ha. intros [= <- _]. reflexivity.
  - destruct (endpoint_ok o (RPC_URL env));
      [ | erewrite bind_throw by exact Ha; discriminate].
    destruct Ha as (b & w2 & _ & Ha). erewrite bind_ok by exact Ha.
    cbv iota beta. unfold bind. destruct (persist b w2) as [[[] | e] w3];
      [ | discriminate].
    intros [= <- _]. reflexivity.
Qed.

(** Which decimals a row gets: the directory's when it has a number, else
    the mint's, else zero. *)
Lemma row_decimals_cases t mintInfo :
  (forall x, decimals t = Some x -> row_decimals t mintInfo = x) /\
  (decimals t = None ->
   forall x, m_decimals mintInfo = Some x -> row_decimals t mintInfo = x) /\
  (decimals t = None -> m_decimals mintInfo = None ->
   row_decimals t mintInfo = 0).
Proof.
  unfold row_decimals. repeat split.
  - intros x ->. reflexivity.
  - intros -> x ->. reflexivity.
  - intros -> ->. reflexivity.
Qed.

(** C10.  A token whose lookup succeeds pushes one SnapshotRow and one
    directory row, and both carry the same decimals: the value of the
    token's directory entry when that is a number, whatever the mint says;
    the decimals of the on-chain mint only when the entry has none; and 0
    when both are absent.  Every pair of rows in a batch that is collected
    is of that form, and a batch is collected whenever the RPC client can
    be made. *)
Theorem directory_decimals_take_precedence
    (env : Env) (o : Oracle) (ts : Z) (tokens : list TokenRow) (w : World) :
  let chosen t mintInfo (dec : Z) :=
    (forall x, decimals t = Some x -> dec = x) /\
    (decimals t = None -> forall x, m_decimals mintInfo = Some x -> dec = x) /\
    (decimals t = None -> m_decimals mintInfo = None -> dec = 0) in
  (forall t mintInfo acc,
     lookup o (tick w) (address t) = Some mintInfo ->
     exists r d w',
       onchain_unit o ts t acc w = (Ok (fst acc ++ [r], snd acc ++ [d]), w') /\
       Db.s_mint r = address t /\ Db.d_mint d = address t /\
       chosen t mintInfo (Db.s_decimals r) /\
       chosen t mintInfo (Db.d_decimals d))
  /\ (forall b w',
       collect env o ts tokens w = (Ok b, w') ->
       Forall2 (fun r d =>
                  exists t mintInfo n,
                    In t tokens /\ lookup o n (address t) = Some mintInfo /\
                    Db.s_mint r = address t /\ Db.d_mint d = address t /\
                    chosen t mintInfo (Db.s_decimals r) /\
                    chosen t mintInfo (Db.d_decimals d))
               (rows b) (tokenRows b))
  /\ (endpoint_ok o (RPC_URL env) = true ->
      exists b w', collect env o ts tokens w = (Ok b, w')).
Proof.
  intros chosen. split; [ | split].
  - intros t mintInfo acc Hl.
    destruct (onchain_unit_spec o ts t acc w) as (w' & H & _).
    rewrite Hl in H.
    exists (snapshot_row ts t mintInfo), (token_row t mintInfo), w'.
    split; [exact H | ]. repeat split; try apply row_decimals_cases.
  - intros b w' Hc.
    destruct (collect_returns _ _ _ _ _ _ _ Hc)
      as (_ & r & q & w1 & _ & _ & -> & _ & Hrows & _).
    cbn [rows tokenRows].
    apply (merge_metrics_row_of _ _ _ (snd q)) in Hrows.
    eapply Forall2_impl; [ | exact Hrows].
    intros row d (t & mintInfo & n & Hin & Hl & _ & Hm & Hd & ->).
    exists t, mintInfo, n. rewrite Hd.
    repeat split; try assumption; try apply row_decimals_cases.
  - intros Hendpoint.
    destruct (collect_spec env o ts tokens w)
      as (r & q & w1 & w' & _ & _ & Hc & _).
    rewrite Hendpoint in Hc. eauto.
Qed.

(** The directory lists the base mint with 9 decimals, the chain says 6:
    both rows get 9. *)
Lemma directory_decimals_take_precedence_witness :
  exists r d w',
    onchain_unit (Scenario.oracle (Scenario.http_down None)) Scenario.now
      Scenario.base_mislisted ([], [])
      (Scenario.world CacheMissing SeedMissing)
    = (Ok ([r], [d]), w') /\
    Db.s_decimals r = 9 /\ Db.d_decimals d = 9 /\
    option_map m_decimals
      (lookup (Scenario.oracle (Scenario.http_down None)) 0 Scenario.USDC)
    = Some (Some 6).
Proof.
  destruct (proj1 (directory_decimals_take_precedence Scenario.env_online
                     (Scenario.oracle (Scenario.http_down None)) Scenario.now
                     [Scenario.base_mislisted]
                     (Scenario.world CacheMissing SeedMissing))
                  Scenario.base_mislisted
                  (mkMint (Some 6)
                     (Some "BJE5MMbqXjVwjAF7oxwPYXnTXDyspzZyt4vwenNw5ruG")
                     (Some "7dGbd2QZcCKcTndnHcTL8q7SMVXAkp688NTQYwrRCrar"))
                  ([], []) eq_refl)
    as (r & d & w' & H & _ & _ & (Hr & _) & (Hd & _)).
  exists r, d, w'. split; [exact H | ].
  split; [apply Hr; reflexivity | ].
  split; [apply Hd; reflexivity | reflexivity].
Defined.

(** *** Scenario A: the universe is the base asset and one more token *)

Lemma rows_only_for_found o ts tokens rs ds :
  Forall2 (row_of o ts tokens) rs ds ->
  forall r, In r rs -> exists n mintInfo, lookup o n (Db.s_mint r) = Some mintInfo.
Proof.
  induction 1 as [| r0 d rs' ds' Hrd _ IH]; intros r Hin; [contradiction | ].
  destruct Hin as [<- | Hin]; [ | exact (IH r Hin)].
  destruct Hrd as (t & mintInfo & n & _ & Hl & _ & Hm & _).
  exists n, mintInfo. rewrite Hm. exact Hl.
Qed.

Lemma merge_metrics_mints m rs r :
  In r (merge_metrics m rs) -> exists r0, In r0 rs /\ Db.s_mint r = Db.s_mint r0.
Proof.
  unfold merge_metrics. destruct m as [| b m].
  - intros H. exists r. split; [exact H | reflexivity].
  - intros H. apply in_map_iff in H. destruct H as (r0 & <- & Hin).
    exists r0. split; [exact Hin | apply apply_metrics_keeps].
Qed.

(** No quoted price row is for the base mint. *)
Lemma quoted_prices_not_base env ts tokens ps :
  Forall (quoted_price ts (toQuote env tokens)) ps ->
  filter (fun p => (Db.p_mint p =? USDC_MINT env)%string) ps = [].
Proof.
  induction 1 as [| p ps' Hp _ IH]; [reflexivity | ]. cbn.
  destruct Hp as (_ & (t & Hin & Hm) & _).
  apply toQuote_In in Hin. destruct Hin as (_ & Hne).
  rewrite Hm. apply String.eqb_neq in Hne. rewrite Hne. exact IH.
Qed.

(** The fan-out over two tokens of which the second is not found. *)
Lemma fanout_second_not_found o ts t1 t2 w :
  (forall n, lookup o n (address t2) = None) ->
  exists w',
    for_each (onchain_unit o ts) [t1; t2] ([], []) w
    = (Ok (match lookup o (tick w) (address t1) with
           | Some mintInfo => ([snapshot_row ts t1 mintInfo],
                               [token_row t1 mintInfo])
           | None => ([], [])
           end), w').
Proof.
  intros Hnone. cbn [for_each].
  destruct (onchain_unit_spec o ts t1 ([], []) w) as (w1 & H1 & _).
  erewrite bind_ok by exact H1.
  match goal with
  | |- context [onchain_unit o ts t2 ?acc] =>
      destruct (onchain_unit_spec o ts t2 acc w1) as (w2 & H2 & _)
  end.
  rewrite Hnone in H2. erewrite bind_ok by exact H2.
  exists w2. unfold ret. f_equal.
Qed.

Lemma prune_snapshots_In d cutoff r :
  In r (Db.snapshots (Db.pruneOlderThanMs d cutoff)) <->
  In r (Db.snapshots d) /\ cutoff <= Db.s_ts r.
Proof.
  unfold Db.pruneOlderThanMs. cbn [Db.snapshots]. rewrite filter_In.
  rewrite negb_true_iff, Z.ltb_ge. reflexivity.
Qed.

Lemma prune_prices_In d cutoff r :
  In r (Db.prices (Db.pruneOlderThanMs d cutoff)) <->
  In r (Db.prices d) /\ cutoff <= Db.p_ts r.
Proof.
  unfold Db.pruneOlderThanMs. cbn [Db.prices]. rewrite filter_In.
  rewrite negb_true_iff, Z.ltb_ge. reflexivity.
Qed.

Lemma store_after_prepare_tables env o ts d :
  Db.snapshots (store_after_prepare env o ts d)
  = Db.snapshots (Db.pruneOlderThanMs d (ts - RETENTION_MS)) /\
  Db.prices (store_after_prepare env o ts d)
  = Db.prices (Db.pruneOlderThanMs d (ts - RETENTION_MS)).
Proof. split; reflexivity. Qed.

(** Rows of one epoch go in when the table has no row of that epoch and
    their mints differ pairwise. *)
Lemma insert_snapshot_rows_fresh ts rs :
  Forall (fun r => Db.s_ts r = ts) rs ->
  NoDup (map Db.s_mint rs) ->
  forall tbl,
    (forall x, In x tbl -> Db.s_ts x = ts -> ~ In (Db.s_mint x) (map Db.s_mint rs)) ->
    Db.insert_snapshot_rows rs tbl = Some (tbl ++ map Db.stored_snapshot rs).
Proof.
  induction 1 as [| r rs' Hr _ IH]; intros Hnd tbl Hfresh; cbn.
  - rewrite app_nil_r. reflexivity.
  - inversion Hnd as [| ? ? Hnotin Hnd']; subst.
    destruct (existsb (Db.same_snapshot_key r) tbl) eqn:E.
    + apply existsb_exists in E. destruct E as (x & Hx & Hk).
      unfold Db.same_snapshot_key in Hk. apply andb_true_iff in Hk.
      destruct Hk as (Hk1 & Hk2). apply Z.eqb_eq in Hk1.
      apply String.eqb_eq in Hk2. exfalso.
      apply (Hfresh x Hx); [congruence | ]. left. exact Hk2.
    + rewrite IH; [rewrite <- app_assoc; reflexivity | exact Hnd' | ].
      intros x Hx Hts Hin. apply in_app_or in Hx. destruct Hx as [Hx | [<- | []]].
      * apply (Hfresh x Hx Hts). right. exact Hin.
      * exact (Hnotin Hin).
Qed.

(** [snapshot] after the hand-off: it returns when the snapshot rows go
    in, with the number of rows as [savedTokens]. *)
Lemma snapshot_after_assemble env o w ts pruned b w2 :
  assemble env o w = (Ok (ts, pruned, Some b), w2) ->
  snapshot env o w
  = match Db.insertSnapshots (Db.upsertTokens (db w2) (tokenRows b)) (rows b) with
    | Ok d =>
        (Ok (mkResult ts (Z.of_nat (List.length (rows b))) (Some pruned)),
         set_db (with_prices d (priceRows b)) w2)
    | Throw e =>
        (Throw e, set_db (Db.upsertTokens (db w2) (tokenRows b)) w2)
    end.
Proof.
  intros Ha.
  destruct (assemble_batch _ _ _ _ _ _ _ Ha)
    as (_ & _ & tokens & w1 & _ & _ & Hc).
  apply collect_prices_accepted in Hc.
  unfold snapshot. erewrite bind_ok by exact Ha. cbv iota beta.
  unfold bind. rewrite (persist_eq _ _ Hc).
  destruct (Db.insertSnapshots _ _); reflexivity.
Qed.

Lemma upsertTokens_snapshots d trs :
  Db.snapshots (Db.upsertTokens d trs) = Db.snapshots d /\
  Db.prices (Db.upsertTokens d trs) = Db.prices d.
Proof. split; reflexivity. Qed.

Lemma insertSnapshots_fresh ts d rs :
  Forall (fun r => Db.s_ts r = ts) rs ->
  NoDup (map Db.s_mint rs) ->
  (forall x, In x (Db.snapshots d) -> Db.s_ts x <> ts) ->
  exists d', Db.insertSnapshots d rs = Ok d'
             /\ Db.snapshots d' = Db.snapshots d ++ map Db.stored_snapshot rs
             /\ Db.prices d' = Db.prices d.
Proof.
  intros Hts Hnd Hfresh. unfold Db.insertSnapshots.
  destruct rs as [| r rs'].
  - exists d. rewrite app_nil_r. repeat split.
  - rewrite (insert_snapshot_rows_fresh ts (r :: rs') Hts Hnd).
    + eexists. split; [reflexivity | split; reflexivity].
    + intros x Hx Hxts. exfalso. exact (Hfresh x Hx Hxts).
Qed.

Lemma NoDup_short {A} (l : list A) : (List.length l <= 1)%nat -> NoDup l.
Proof.
  destruct l as [| a [| b l]]; cbn; intros H.
  - constructor.
  - constructor; [intros [] | constructor].
  - lia.
Qed.

(** C1, as the code has it.  The universe is [BASE, X] and every lookup
    of X fails.  Then the batch has no SnapshotRow for X and exactly one
    PriceRow for BASE, at price 1.0.  BASE itself is looked up like any
    token: the batch has one SnapshotRow when that lookup succeeds and
    none when it fails, and [savedTokens] is that count.  Offline or with
    quotes disabled the row of BASE is the only PriceRow.  All this for a
    run whose RPC client can be made: the constructor is given the
    configured endpoint and throws on one it does not accept.  The run
    returns whenever the store holds no snapshot row of its epoch. *)
Theorem scenario_A
    (env : Env) (o : Oracle) (w w1 : World) (BASE X : TokenRow)
    (Hbase : address BASE = USDC_MINT env)
    (Hendpoint : endpoint_ok o (RPC_URL env) = true)
    (Huniverse : resolve_universe env o (next w) = (Ok [BASE; X], w1))
    (Hfail : forall n, lookup o n (address X) = None) :
  let ts := clock o (tick w) in
  exists pruned b w2,
    assemble env o w = (Ok (ts, pruned, Some b), w2) /\
    (forall r, In r (rows b) -> Db.s_mint r <> address X) /\
    filter (fun p => (Db.p_mint p =? USDC_MINT env)%string) (priceRows b)
    = [Db.mkPrice ts (USDC_MINT env) 1%float] /\
    List.length (rows b)
    = match lookup o (tick w1) (USDC_MINT env) with
      | Some _ => 1%nat
      | None => 0%nat
      end /\
    (negb (offline env) && quotesEnabled env = false ->
     priceRows b = [Db.mkPrice ts (USDC_MINT env) 1%float]) /\
    (forall res w3, snapshot env o w = (Ok res, w3) ->
       savedTokens res = Z.of_nat (List.length (rows b))) /\
    ((forall x, In x (Db.snapshots (db w)) -> Db.s_ts x <> ts) ->
     exists res w3, snapshot env o w = (Ok res, w3)).
Proof.
  intros ts.
  destruct (prepare_spec env o w) as (tokens & w0 & Hres & Hp).
  rewrite Huniverse in Hres. injection Hres as <- <-.
  fold ts in Hp.
  set (wp := set_db (store_after_prepare env o ts (db w)) w1) in Hp.
  destruct (collect_spec env o ts [BASE; X] wp)
    as (r & q & wa & w2 & Hr & Hq & Hc & Hquiet & Hrows & Hprices & Hoff).
  rewrite Hendpoint in Hc.
  assert (Ha : assemble env o w
               = (Ok (ts, pruned_counts ts (db w),
                      Some (mkBatch (snd r) (merge_metrics (snd q) (fst r))
                                    (fst q ++ [base_price env ts]))), w2)).
  { unfold assemble. erewrite bind_ok by exact Hp. cbv iota beta.
    erewrite bind_ok by exact Hc. reflexivity. }
  destruct (fanout_second_not_found o ts BASE X wp Hfail) as (wa' & Hfan).
  rewrite Hfan in Hr. injection Hr as Hr _.
  change (tick wp) with (tick w1) in Hr. rewrite Hbase in Hr.
  assert (Hlen : List.length (merge_metrics (snd q) (fst r))
                 = match lookup o (tick w1) (USDC_MINT env) with
                   | Some _ => 1%nat
                   | None => 0%nat
                   end).
  { rewrite merge_metrics_length, <- Hr.
    destruct (lookup o (tick w1) (USDC_MINT env)); reflexivity. }
  eexists _, _, w2. split; [exact Ha | ]. cbn [rows priceRows].
  split; [ | split; [ | split; [exact Hlen | split; [ | split]]]].
  - intros row Hin Hmint. apply merge_metrics_mints in Hin.
    destruct Hin as (r0 & Hin0 & Hm0).
    destruct (rows_only_for_found _ _ _ _ _ Hrows r0 Hin0) as (n & mi & Hl).
    rewrite <- Hm0, Hmint, Hfail in Hl. discriminate.
  - rewrite filter_app, (quoted_prices_not_base env ts [BASE; X]) by exact Hprices.
    cbn. rewrite String.eqb_refl. reflexivity.
  - intros Hno. rewrite (Hoff Hno). reflexivity.
  - intros res w3. rewrite (snapshot_after_assemble _ _ _ _ _ _ _ Ha).
    cbn [rows tokenRows priceRows].
    destruct (Db.insertSnapshots _ _); [ | discriminate].
    intros [= <- _]. reflexivity.
  - intros Hfresh. rewrite (snapshot_after_assemble _ _ _ _ _ _ _ Ha).
    cbn [rows tokenRows priceRows].
    destruct (insertSnapshots_fresh ts
                (Db.upsertTokens (db w2) (snd r))
                (merge_metrics (snd q) (fst r))) as (d' & Hins & _).
    + eapply row_of_epoch. apply merge_metrics_row_of. exact Hrows.
    + apply NoDup_short. rewrite length_map, Hlen.
      destruct (lookup o (tick w1) (USDC_MINT env)); lia.
    + intros x Hx. destruct Hquiet as (_ & _ & Hdb).
      rewrite (proj1 (upsertTokens_snapshots _ _)), Hdb in Hx.
      change (db wp) with (store_after_prepare env o ts (db w)) in Hx.
      rewrite (proj1 (store_after_prepare_tables _ _ _ _)) in Hx.
      apply prune_snapshots_In in Hx. apply Hfresh. apply Hx.
    + rewrite Hins. eauto.
Qed.

(** Neither mint is found on chain: no snapshot row, the price row of the
    base asset alone, and zero saved tokens. *)
Lemma scenario_A_witness :
  exists w3,
    snapshot Scenario.env_plain
      (Scenario.oracle_on Scenario.chain_empty (Scenario.http_down None))
      (Scenario.world Scenario.recent_cache SeedMissing)
    = (Ok (mkResult Scenario.now 0 (Some (mkPruned 0 0))), w3)
    /\ Db.snapshots (db w3) = []
    /\ Db.prices (db w3) = [Db.mkPrice Scenario.now Scenario.USDC 1%float].
Proof.
  pose (o := Scenario.oracle_on Scenario.chain_empty (Scenario.http_down None)).
  pose (w := Scenario.world Scenario.recent_cache SeedMissing).
  assert (Hu : resolve_universe Scenario.env_plain o (next w)
               = (Ok [Scenario.base_token; Scenario.bonk_token],
                  snd (resolve_universe Scenario.env_plain o (next w))))
    by (vm_compute; reflexivity).
  destruct (scenario_A Scenario.env_plain o w _ Scenario.base_token
              Scenario.bonk_token eq_refl eq_refl Hu (fun n => eq_refl))
    as (pruned & b & w2 & _ & _ & _ & _ & _ & _ & Hret).
  destruct Hret as (res & w3 & Hs); [intros x [] | ].
  exists w3. fold o w. rewrite Hs.
  vm_compute in Hs. injection Hs as <- <-.
  split; [reflexivity | split; reflexivity].
Defined.

(** C1 as stated fails when the base mint itself is found on chain: the
    universe is [BASE, X] and the lookup of X fails, yet the run stores
    one snapshot row, that of BASE, and [savedTokens] is 1. *)
Lemma base_asset_is_saved :
  fst (resolve_universe Scenario.env_plain
         (Scenario.oracle (Scenario.http_down None))
         (next (Scenario.world Scenario.recent_cache SeedMissing)))
  = Ok [Scenario.base_token; Scenario.bonk_token]
  /\ (forall n, lookup (Scenario.oracle (Scenario.http_down None)) n
                  (address Scenario.bonk_token) = None)
  /\ fst (snapshot Scenario.env_plain
            (Scenario.oracle (Scenario.http_down None))
            (Scenario.world Scenario.recent_cache SeedMissing))
     = Ok (mkResult Scenario.now 1 (Some (mkPruned 0 0)))
  /\ map Db.s_mint
       (Db.snapshots
          (db (snd (snapshot Scenario.env_plain
                      (Scenario.oracle (Scenario.http_down None))
                      (Scenario.world Scenario.recent_cache SeedMissing)))))
     = [Scenario.USDC].
Proof.
  split; [vm_compute; reflexivity | ].
  split; [intros n; reflexivity | ].
  split; vm_compute; reflexivity.
Qed.

(** *** The round trip, leg by leg *)

(** No buy-leg quote, or one with an empty output amount: no spread and
    no price row. *)
Lemma round_trip_no_buy env o ts t dec priceRows w smallUsd q w1 :
  JS.round (QUOTE_SPREAD_USD env * 1000000)%float = Some smallUsd ->
  jupQuote env o (USDC_MINT env) (address t) (JS.toString smallUsd) w
  = (Ok q, w1) ->
  quote_of q = None \/ (exists b, quote_of q = Some b /\ outAmount b = "") ->
  round_trip env o ts t dec priceRows w = (Ok (None, priceRows), w1).
Proof.
  intros Hr Hq Hfalsy. unfold round_trip, to_BigInt. rewrite Hr.
  erewrite bind_ok by reflexivity. erewrite bind_ok by exact Hq.
  destruct Hfalsy as [E | (b & E & Hb)]; rewrite E; [reflexivity | ].
  rewrite Hb. reflexivity.
Qed.

(** Both legs answered with non-empty output amounts: the mid price
    decides. *)
Lemma round_trip_answered env o ts t dec priceRows w smallUsd qBuy w1 qSell w2 :
  JS.round (QUOTE_SPREAD_USD env * 1000000)%float = Some smallUsd ->
  jupQuote env o (USDC_MINT env) (address t) (JS.toString smallUsd) w
  = (Ok (Some (BodyQuote qBuy)), w1) ->
  JS.truthy_str (outAmount qBuy) = true ->
  jupQuote env o (address t) (USDC_MINT env) (outAmount qBuy) w1
  = (Ok (Some (BodyQuote qSell)), w2) ->
  JS.truthy_str (outAmount qSell) = true ->
  round_trip env o ts t dec priceRows w
  = (Ok (if accepted (mid_price env o dec (outAmount qBuy) (outAmount qSell))
         then (Some (spread_of env o dec (outAmount qBuy) (outAmount qSell)),
               priceRows
               ++ [Db.mkPrice ts (address t)
                     (mid_price env o dec (outAmount qBuy) (outAmount qSell))])
         else (None, priceRows)), w2).
Proof.
  intros Hr Hbuy Hb Hsell Hs. unfold round_trip, to_BigInt. rewrite Hr.
  erewrite bind_ok by reflexivity. erewrite bind_ok by exact Hbuy.
  cbn [quote_of]. rewrite Hb. erewrite bind_ok by exact Hsell.
  cbn [quote_of]. rewrite Hs.
  change ((0 <? ?m)%float && JS.isFinite ?m) with (accepted m).
  fold (buy_price env o dec (outAmount qBuy)).
  fold (sell_price o dec (outAmount qBuy) (outAmount qSell)).
  fold (mid_price env o dec (outAmount qBuy) (outAmount qSell)).
  fold (spread_of env o dec (outAmount qBuy) (outAmount qSell)).
  destruct (accepted _); reflexivity.
Qed.

(** With both legs answered and the mid price accepted, the unit pushes
    the price row of its token. *)
Lemma quote_unit_hit env o ts t qBuy qSell acc w :
  legs_answered env o t qBuy qSell ->
  accepted (mid_price env o (quote_decimals t) (outAmount qBuy) (outAmount qSell))
  = true ->
  exists m w',
    quote_unit env o ts t acc w
    = (Ok (fst acc
           ++ [Db.mkPrice ts (address t)
                 (mid_price env o (quote_decimals t)
                            (outAmount qBuy) (outAmount qSell))],
           metrics_set (address t) m (snd acc)), w').
Proof.
  intros ((a1 & Ha1) & (a2 & Ha2 & Hbuy) & Hb & Hsell & Hs) Hmid.
  destruct (wp_returning _ _ _
              (jupQuote_returns env o (USDC_MINT env) (address t)
                 (JS.toString a1) w)) as (qi & w1 & Hqi & _).
  pose proof (round_trip_answered env o ts t (quote_decimals t) (fst acc) w1
                a2 qBuy (next w1) qSell (next (next w1)) Ha2
                (jupQuote_answered _ _ _ _ _ _ _ (Hbuy (tick w1))) Hb
                (jupQuote_answered _ _ _ _ _ _ _ (Hsell (tick (next w1)))) Hs)
    as Hrt.
  rewrite Hmid in Hrt.
  unfold quote_unit, try_catch, quote_body, to_BigInt. rewrite Ha1.
  erewrite bind_ok by reflexivity. erewrite bind_ok by exact Hqi.
  fold (quote_decimals t). erewrite bind_ok by exact Hrt.
  eexists _, _. reflexivity.
Qed.

(** Later units keep the price rows pushed before them. *)
Lemma quote_units_keep env o ts l p :
  forall acc w,
    In p (fst acc) ->
    wp (for_each (quote_unit env o ts) l acc)
       (returning (fun acc' _ => In p (fst acc'))) w.
Proof.
  apply for_each_invariant. intros t acc w _ Hin.
  eapply wp_mono; [apply quote_unit_spec | ].
  intros [acc' | e] w' H; cbn in H |- *; [ | exact H].
  destruct H as (_ & m & _ & [(_ & ->) | (s & mid & _ & _ & ->)]);
    [exact Hin | apply in_or_app; left; exact Hin].
Qed.

Lemma quote_units_return env o ts l acc w :
  exists acc' w', for_each (quote_unit env o ts) l acc w = (Ok acc', w').
Proof.
  assert (H : wp (for_each (quote_unit env o ts) l acc)
                 (returning (fun _ _ => True)) w).
  { apply for_each_invariant; [ | exact I]. intros t0 acc0 w0 _ _.
    eapply wp_mono; [apply quote_unit_spec | ].
    intros [acc' | e] w1 H; [exact I | exact H]. }
  apply wp_returning in H. destruct H as (acc' & w' & H & _). eauto.
Qed.

Lemma quote_phase_hit env o ts tokens t qBuy qSell w :
  negb (offline env) && quotesEnabled env = true ->
  In t (toQuote env tokens) ->
  legs_answered env o t qBuy qSell ->
  accepted (mid_price env o (quote_decimals t) (outAmount qBuy) (outAmount qSell))
  = true ->
  forall q w',
    quote_phase env o ts tokens w = (Ok q, w') ->
    In (Db.mkPrice ts (address t)
          (mid_price env o (quote_decimals t) (outAmount qBuy) (outAmount qSell)))
       (fst q).
Proof.
  intros Hon Hin Hlegs Hmid q w'. unfold quote_phase. rewrite Hon.
  apply in_split in Hin. destruct Hin as (l1 & l2 & ->).
  rewrite for_each_app.
  destruct (quote_units_return env o ts l1 ([], []) w) as (acc1 & w1 & H1).
  erewrite bind_ok by exact H1. cbn [for_each].
  destruct (quote_unit_hit env o ts t qBuy qSell acc1 w1 Hlegs Hmid)
    as (m & w2 & H2).
  erewrite bind_ok by exact H2.
  match goal with
  | |- for_each _ l2 ?acc w2 = _ -> _ =>
      assert (Hin2 : In (Db.mkPrice ts (address t)
                           (mid_price env o (quote_decimals t)
                              (outAmount qBuy) (outAmount qSell)))
                        (fst acc))
        by (apply in_or_app; right; left; reflexivity);
      destruct (wp_returning _ _ _
                  (quote_units_keep env o ts l2 _ acc w2 Hin2))
        as (acc3 & w3 & H3 & Hin3)
  end.
  rewrite H3. intros [= <- _]. exact Hin3.
Qed.

(** C9.  The quote fan-out runs over the universe whether or not a token
    was found on chain.  Online and with quotes enabled, in a run whose
    RPC client can be made, a token among those quoted whose lookups all
    fail, and whose round trip is answered with an accepted (finite,
    strictly positive) mid price, has a PriceRow in the batch and no
    SnapshotRow. *)
Theorem price_row_without_snapshot_row
    (env : Env) (o : Oracle) (ts : Z) (tokens : list TokenRow) (t : TokenRow)
    (qBuy qSell : QuoteResp) (w : World)
    (Hon : negb (offline env) && quotesEnabled env = true)
    (Hquoted : In t (toQuote env tokens))
    (Hnotfound : forall n, lookup o n (address t) = None)
    (Hlegs : legs_answered env o t qBuy qSell)
    (Hmid : accepted (mid_price env o (quote_decimals t)
                                (outAmount qBuy) (outAmount qSell)) = true)
    (Hendpoint : endpoint_ok o (RPC_URL env) = true) :
  exists b w',
    collect env o ts tokens w = (Ok b, w') /\
    In (Db.mkPrice ts (address t)
          (mid_price env o (quote_decimals t) (outAmount qBuy) (outAmount qSell)))
       (priceRows b) /\
    (forall r, In r (rows b) -> Db.s_mint r <> address t).
Proof.
  destruct (collect_spec env o ts tokens w)
    as (r & q & w1 & w' & _ & Hq & Hc & _ & Hrows & _).
  rewrite Hendpoint in Hc.
  eexists _, w'. split; [exact Hc | ]. cbn [rows priceRows]. split.
  - apply in_or_app. left.
    eapply quote_phase_hit; eauto.
  - intros row Hin Hmint. apply merge_metrics_mints in Hin.
    destruct Hin as (r0 & Hin0 & Hm0).
    destruct (rows_only_for_found _ _ _ _ _ Hrows r0 Hin0) as (n & mi & Hl).
    rewrite <- Hm0, Hmint, Hnotfound in Hl. discriminate.
Qed.

(** A quote service answering 20000000 units to every request: 200 Bonk
    for 20 USDC and 20 USDC back, a mid price of 0.1.  The lookup of Bonk
    fails, yet the batch has its price row and no snapshot row. *)
Lemma price_row_without_snapshot_row_witness :
  exists b w',
    collect Scenario.env_online
      (Scenario.oracle (Scenario.http_quotes "20000000")) Scenario.now
      [Scenario.base_token; Scenario.bonk_token]
      (Scenario.world CacheMissing SeedMissing) = (Ok b, w') /\
    In (Db.mkPrice Scenario.now Scenario.BONK
          (mid_price Scenario.env_online
             (Scenario.oracle (Scenario.http_quotes "20000000"))
             5 "20000000" "20000000"))
       (priceRows b) /\
    (forall r, In r (rows b) -> Db.s_mint r <> Scenario.BONK).
Proof.
  apply (price_row_without_snapshot_row Scenario.env_online
           (Scenario.oracle (Scenario.http_quotes "20000000")) Scenario.now
           [Scenario.base_token; Scenario.bonk_token] Scenario.bonk_token
           (mkQuote "20000000" (Some 0.5%float))
           (mkQuote "20000000" (Some 0.5%float))).
  - vm_compute. reflexivity.
  - vm_compute. left. reflexivity.
  - intros n. reflexivity.
  - split; [exists 1000000000; vm_compute; reflexivity | ].
    split; [exists 20000000; split;
            [vm_compute; reflexivity | intros n; reflexivity] | ].
    split; [reflexivity | split; [intros n; reflexivity | reflexivity]].
  - vm_compute. reflexivity.
  - reflexivity.
Defined.

(** The same run end to end: the store ends with the price rows of Bonk
    and of the base asset, and with the snapshot row of the base asset
    only. *)
Example stored_price_without_snapshot :
  map Db.p_mint
    (Db.prices
       (db (snd (snapshot Scenario.env_online
                   (Scenario.oracle (Scenario.http_quotes "20000000"))
                   (Scenario.world Scenario.recent_cache SeedMissing)))))
  = [Scenario.BONK; Scenario.USDC]
  /\ map Db.s_mint
       (Db.snapshots
          (db (snd (snapshot Scenario.env_online
                      (Scenario.oracle (Scenario.http_quotes "20000000"))
                      (Scenario.world Scenario.recent_cache SeedMissing)))))
     = [Scenario.USDC].
Proof. split; vm_compute; reflexivity. Qed.

(** *** Degenerate quotes *)

(** The substituted denominator is never zero. *)
Lemma or_else_negligible_nonzero x :
  PrimFloat.eqb (JS.or_else x negligible) 0 = false.
Proof.
  unfold JS.or_else, JS.truthy.
  destruct (PrimFloat.eqb x 0) eqn:E; cbn; [reflexivity | ].
  destruct (PrimFloat.is_nan x); cbn; [reflexivity | exact E].
Qed.

(** Zero divided by any number is falsy: a zero or NaN. *)
Lemma zero_div_falsy y : JS.truthy (0 / y)%float = false.
Proof.
  unfold JS.truthy, PrimFloat.is_nan.
  rewrite negb_false_iff, orb_true_iff, !eqb_spec, div_spec.
  change (Prim2SF 0) with (S754_zero false).
  destruct (Prim2SF y) as [s | s | | s m e]; cbn; auto.
Qed.

Lemma buy_price_zero env o dec :
  buy_price env o dec "0" = (QUOTE_SPREAD_USD env / negligible)%float.
Proof.
  unfold buy_price, JS.or_else.
  change (JS.Number (parseNumber o) "0") with 0%float.
  rewrite zero_div_falsy. reflexivity.
Qed.

(** C2, as the code has it.  A quote unit never raises: it always binds
    the metrics of its token, and pushes a price row exactly when the
    spread is a number.  When the buy-leg quote is absent or its output
    amount is empty, the spread is null and no price row is pushed.  The
    two divisions by a token amount substitute 1e-12 for a falsy
    denominator, so they never divide by zero.  An output amount "0" is a
    non-empty string and passes the guard: the buy price is then the
    notional over 1e-12, whatever [10 ** dec] is, and when the sell leg
    answers a non-empty amount, whatever number that text converts to,
    the mid price decides whether a spread and a price row are
    produced. *)
Theorem quote_metrics_degenerate
    (env : Env) (o : Oracle) (ts : Z) (t : TokenRow) :
  (forall acc w,
     exists acc' w',
       quote_unit env o ts t acc w = (Ok acc', w') /\ quoted ts t acc acc')
  /\ (forall dec priceRows w smallUsd q w1,
        JS.round (QUOTE_SPREAD_USD env * 1000000)%float = Some smallUsd ->
        jupQuote env o (USDC_MINT env) (address t) (JS.toString smallUsd) w
        = (Ok q, w1) ->
        quote_of q = None \/
        (exists b, quote_of q = Some b /\ outAmount b = "") ->
        round_trip env o ts t dec priceRows w = (Ok (None, priceRows), w1))
  /\ (forall x, PrimFloat.eqb (JS.or_else x negligible) 0 = false)
  /\ JS.truthy_str "0" = true
  /\ (forall dec,
        buy_price env o dec "0" = (QUOTE_SPREAD_USD env / negligible)%float)
  /\ (forall dec priceRows w smallUsd qBuy w1 qSell w2,
        JS.round (QUOTE_SPREAD_USD env * 1000000)%float = Some smallUsd ->
        jupQuote env o (USDC_MINT env) (address t) (JS.toString smallUsd) w
        = (Ok (Some (BodyQuote qBuy)), w1) ->
        outAmount qBuy = "0" ->
        jupQuote env o (address t) (USDC_MINT env) "0" w1
        = (Ok (Some (BodyQuote qSell)), w2) ->
        JS.truthy_str (outAmount qSell) = true ->
        round_trip env o ts t dec priceRows w
        = (Ok (if accepted (mid_price env o dec "0" (outAmount qSell))
               then (Some (spread_of env o dec "0" (outAmount qSell)),
                     priceRows
                     ++ [Db.mkPrice ts (address t)
                           (mid_price env o dec "0" (outAmount qSell))])
               else (None, priceRows)), w2)).
Proof.
  split; [ | split; [ | split; [ | split; [ | split]]]].
  - intros acc w.
    destruct (wp_returning _ _ _ (quote_unit_spec env o ts t acc w))
      as (acc' & w' & H & _ & Hq).
    eauto.
  - intros dec priceRows w smallUsd q w1. apply round_trip_no_buy.
  - exact or_else_negligible_nonzero.
  - reflexivity.
  - exact (buy_price_zero env o).
  - intros dec priceRows w smallUsd qBuy w1 qSell w2 Hr Hbuy Hzero Hsell Hs.
    rewrite <- Hzero in Hsell |- *.
    apply (round_trip_answered env o ts t dec priceRows w smallUsd qBuy w1
             qSell w2 Hr Hbuy); [rewrite Hzero; reflexivity | exact Hsell | exact Hs].
Qed.

(** A service answering an empty output amount: the round trip stops at
    the buy leg, with no spread and no price row. *)
Lemma quote_metrics_degenerate_witness :
  round_trip Scenario.env_online (Scenario.oracle (Scenario.http_quotes ""))
    Scenario.now Scenario.bonk_token 5 []
    (Scenario.world CacheMissing SeedMissing)
  = (Ok (None, []), next (Scenario.world CacheMissing SeedMissing)).
Proof.
  destruct (quote_metrics_degenerate Scenario.env_online
              (Scenario.oracle (Scenario.http_quotes ""))
              Scenario.now Scenario.bonk_token) as (_ & Hno & _).
  apply (Hno 5 [] _ 20000000 (Some (BodyQuote (mkQuote "" (Some 0.5%float))))).
  - vm_compute. reflexivity.
  - vm_compute. reflexivity.
  - right. eexists. split; reflexivity.
Defined.

(** C2 as stated fails when the quote service answers an output amount
    "0" on both legs: the string passes the guard, the prices are
    [20 / 1e-12] and [0], the spread is 200 and a price row of 1e13 is
    pushed. *)
Lemma zero_output_yields_a_spread :
  (forall n req,
     url req = QuoteUrl (api_base Scenario.env_online) Scenario.USDC
                        Scenario.BONK "20000000" ->
     http (Scenario.oracle (Scenario.http_quotes "0")) n req
     = Response (BodyQuote (mkQuote "0" (Some 0.5%float))))
  /\ fst (quote_unit Scenario.env_online
            (Scenario.oracle (Scenario.http_quotes "0"))
            Scenario.now Scenario.bonk_token ([], [])
            (Scenario.world CacheMissing SeedMissing))
     = Ok ([Db.mkPrice Scenario.now Scenario.BONK 1e13%float],
           [(Scenario.BONK, mkMetrics (Some 0.5%float) (Some 200%float))]).
Proof.
  split.
  - intros n req Hurl. cbn. unfold Scenario.http_quotes. rewrite Hurl.
    reflexivity.
  - vm_compute. reflexivity.
Qed.

(** *** Retention *)

Lemma insert_snapshot_rows_app rs :
  forall tbl t,
    Db.insert_snapshot_rows rs tbl = Some t ->
    t = tbl ++ map Db.stored_snapshot rs.
Proof.
  induction rs as [| r rs IH]; intros tbl t; cbn.
  - intros [= <-]. rewrite app_nil_r. reflexivity.
  - destruct (existsb (Db.same_snapshot_key r) tbl); [discriminate | ].
    intros H. apply IH in H. rewrite <- app_assoc in H. exact H.
Qed.

Lemma insertSnapshots_Ok d rs d' :
  Db.insertSnapshots d rs = Ok d' ->
  Db.snapshots d' = Db.snapshots d ++ map Db.stored_snapshot rs /\
  Db.prices d' = Db.prices d.
Proof.
  unfold Db.insertSnapshots. destruct rs as [| r rs].
  - intros [= <-]. rewrite app_nil_r. split; reflexivity.
  - destruct (Db.insert_snapshot_rows (r :: rs) (Db.snapshots d)) as [t | ] eqn:E;
      [ | discriminate].
    intros [= <-]. apply insert_snapshot_rows_app in E. split; [exact E | reflexivity].
Qed.

Lemma replace_price_In t r x :
  In x (Db.replace_price t r) <->
  (In x t /\ Db.same_price_key x r = false) \/ x = r.
Proof.
  unfold Db.replace_price. rewrite in_app_iff, filter_In, negb_true_iff.
  cbn. intuition.
Qed.

(** A stored price row survives the upserts of rows of another epoch. *)
Lemma insert_prices_keeps prs :
  forall tbl x,
    In x tbl ->
    (forall p, In p prs -> Db.p_ts p <> Db.p_ts x) ->
    In x (fold_left Db.replace_price prs tbl).
Proof.
  induction prs as [| p prs IH]; intros tbl x Hin Hts; cbn; [exact Hin | ].
  apply IH; [ | intros q Hq; apply Hts; right; exact Hq].
  apply replace_price_In. left. split; [exact Hin | ].
  unfold Db.same_price_key. apply andb_false_iff. left.
  apply Z.eqb_neq. intros E. apply (Hts p); [left; reflexivity | ].
  symmetry. exact E.
Qed.

(** What the upserts leave was stored before or is one of the new rows. *)
Lemma insert_prices_from prs :
  forall tbl x,
    In x (fold_left Db.replace_price prs tbl) -> In x tbl \/ In x prs.
Proof.
  induction prs as [| p prs IH]; intros tbl x; cbn; [auto | ].
  intros H. apply IH in H. destruct H as [H | H]; [ | auto].
  apply replace_price_In in H. destruct H as [(H & _) | ->]; auto.
Qed.

(** The store after a whole run, whatever its outcome: the snapshot and
    price tables are the pruned ones plus rows of the epoch of the run. *)
Lemma snapshot_store env o w :
  let now := clock o (tick w) in
  let pruned := Db.pruneOlderThanMs (db w) (now - RETENTION_MS) in
  let d' := db (snd (snapshot env o w)) in
  (exists news,
     Db.snapshots d' = Db.snapshots pruned ++ news /\
     Forall (fun r => Db.s_ts r = now) news) /\
  (exists prs,
     Db.prices d' = fold_left Db.replace_price prs (Db.prices pruned) /\
     Forall (fun p => Db.p_ts p = now) prs).
Proof.
  intros now pruned d'. subst d'.
  destruct (assemble_spec env o w) as (tokens & w1 & _ & Hdb & Ha).
  fold now in Hdb, Ha.
  destruct (store_after_prepare_tables env o now (db w)) as (Hs & Hp).
  fold pruned in Hs, Hp. rewrite <- Hdb in Hs, Hp.
  destruct tokens as [| t tokens].
  - unfold snapshot. erewrite bind_ok by exact Ha. cbn [snd ret].
    rewrite Hs, Hp. split; exists []; (split; [ | constructor]).
    + rewrite app_nil_r. reflexivity.
    + reflexivity.
  - destruct (endpoint_ok o (RPC_URL env)).
    2:{ unfold snapshot. erewrite bind_throw by exact Ha. cbn [snd].
        rewrite Hs, Hp. split; exists []; (split; [ | constructor]).
        - rewrite app_nil_r. reflexivity.
        - reflexivity. }
    destruct Ha as (b & w2 & Hc & Ha).
    destruct (collect_epoch _ _ _ _ _ _ _ Hc) as (Hrows & Hprices).
    assert (Hdb2 : db w2 = db w1).
    { destruct (collect_returns _ _ _ _ _ _ _ Hc)
        as (_ & r & q & w1' & _ & _ & _ & Hq & _).
      apply Hq. }
    rewrite (snapshot_after_assemble _ _ _ _ _ _ _ Ha).
    destruct (Db.insertSnapshots _ _) as [d | e] eqn:Hins; cbn [snd db set_db].
    + apply insertSnapshots_Ok in Hins. destruct Hins as (Hs' & Hp').
      rewrite (proj1 (upsertTokens_snapshots _ _)) in Hs'.
      rewrite (proj2 (upsertTokens_snapshots _ _)) in Hp'.
      rewrite Hdb2 in Hs', Hp'. split.
      * exists (map Db.stored_snapshot (rows b)). split.
        -- unfold with_prices. cbn [Db.snapshots]. rewrite Hs', Hs.
           reflexivity.
        -- apply Forall_map. exact Hrows.
      * exists (priceRows b). split; [ | exact Hprices].
        unfold with_prices. cbn [Db.prices]. rewrite Hp', Hp. reflexivity.
    + rewrite (proj1 (upsertTokens_snapshots _ _)).
      rewrite (proj2 (upsertTokens_snapshots _ _)). rewrite Hdb2, Hs, Hp.
      split; exists []; (split; [ | constructor]).
      * rewrite app_nil_r. reflexivity.
      * reflexivity.
Qed.

(** C6.  [pruneOlderThanMs(db, cutoff)] deletes exactly the snapshot rows
    and the price rows whose timestamp is strictly below the cutoff, and
    touches nothing else.  A run prunes with the cutoff 48 hours before
    its epoch: of the rows stored before the run, one stamped 49 hours
    before the epoch is gone from the store after the run, and one
    stamped 47 hours before it is still there. *)
Theorem prune_is_exact :
  (forall d cutoff,
     (forall r, In r (Db.snapshots (Db.pruneOlderThanMs d cutoff)) <->
                In r (Db.snapshots d) /\ ~ Db.s_ts r < cutoff) /\
     (forall p, In p (Db.prices (Db.pruneOlderThanMs d cutoff)) <->
                In p (Db.prices d) /\ ~ Db.p_ts p < cutoff) /\
     Db.tokens (Db.pruneOlderThanMs d cutoff) = Db.tokens d /\
     Db.meta (Db.pruneOlderThanMs d cutoff) = Db.meta d)
  /\ (forall env o w,
        let now := clock o (tick w) in
        let cutoff := now - 48 * 3600000 in
        let d' := db (snd (snapshot env o w)) in
        (exists tokens w1,
           prepare env o w
           = (Ok (now, tokens, pruned_counts now (db w)), w1) /\
           Db.snapshots (db w1)
           = Db.snapshots (Db.pruneOlderThanMs (db w) cutoff) /\
           Db.prices (db w1)
           = Db.prices (Db.pruneOlderThanMs (db w) cutoff)) /\
        (forall r, In r (Db.snapshots (db w)) ->
           (Db.s_ts r = now - 49 * 3600000 -> ~ In r (Db.snapshots d')) /\
           (Db.s_ts r = now - 47 * 3600000 -> In r (Db.snapshots d'))) /\
        (forall p, In p (Db.prices (db w)) ->
           (Db.p_ts p = now - 49 * 3600000 -> ~ In p (Db.prices d')) /\
           (Db.p_ts p = now - 47 * 3600000 -> In p (Db.prices d')))).
Proof.
  split.
  - intros d cutoff. split; [ | split; [ | split; reflexivity]].
    + intros r. rewrite prune_snapshots_In. intuition lia.
    + intros p. rewrite prune_prices_In. intuition lia.
  - intros env o w now cutoff d'.
    assert (Hcut : cutoff = now - RETENTION_MS) by reflexivity.
    split; [ | split].
    + destruct (assemble_spec env o w) as (tokens & w1 & Hp & Hdb & _).
      exists tokens, w1. split; [exact Hp | ]. rewrite Hdb, Hcut.
      apply store_after_prepare_tables.
    + intros r Hin.
      destruct (proj1 (snapshot_store env o w)) as (news & Hs & Hnews).
      fold now in Hs, Hnews. rewrite <- Hcut in Hs. fold d' in Hs.
      rewrite Hs. split; intros Hts.
      * intros H. apply in_app_or in H. destruct H as [H | H].
        -- apply prune_snapshots_In in H. subst cutoff. lia.
        -- rewrite Forall_forall in Hnews. apply Hnews in H. lia.
      * apply in_or_app. left. apply prune_snapshots_In.
        split; [exact Hin | subst cutoff; lia].
    + intros p Hin.
      destruct (proj2 (snapshot_store env o w)) as (prs & Hs & Hprs).
      fold now in Hs, Hprs. rewrite <- Hcut in Hs. fold d' in Hs.
      rewrite Hs. rewrite Forall_forall in Hprs. split; intros Hts.
      * intros H. apply insert_prices_from in H. destruct H as [H | H].
        -- apply prune_prices_In in H. subst cutoff. lia.
        -- apply Hprs in H. lia.
      * apply insert_prices_keeps.
        -- apply prune_prices_In. split; [exact Hin | subst cutoff; lia].
        -- intros q Hq. apply Hprs in Hq. lia.
Qed.

(** A store with rows written 49 and 47 hours before the run: after the
    run the older snapshot row and price row are gone, the younger ones
    remain. *)
Lemma prune_is_exact_witness :
  (~ In (Scenario.old_snapshot (Scenario.now - 49 * Scenario.HOUR))
        (Db.snapshots (db (snd (snapshot Scenario.env_plain
                       (Scenario.oracle (Scenario.http_down None))
                       Scenario.world_with_history))))
   /\ In (Scenario.old_snapshot (Scenario.now - 47 * Scenario.HOUR))
         (Db.snapshots (db (snd (snapshot Scenario.env_plain
                       (Scenario.oracle (Scenario.http_down None))
                       Scenario.world_with_history)))))
  /\ (~ In (Scenario.old_price (Scenario.now - 49 * Scenario.HOUR))
           (Db.prices (db (snd (snapshot Scenario.env_plain
                       (Scenario.oracle (Scenario.http_down None))
                       Scenario.world_with_history))))
      /\ In (Scenario.old_price (Scenario.now - 47 * Scenario.HOUR))
            (Db.prices (db (snd (snapshot Scenario.env_plain
                       (Scenario.oracle (Scenario.http_down None))
                       Scenario.world_with_history))))).
Proof.
  destruct (proj2 prune_is_exact Scenario.env_plain
              (Scenario.oracle (Scenario.http_down None))
              Scenario.world_with_history) as (_ & Hsnap & Hprice).
  cbv zeta in Hsnap, Hprice.
  assert (H49 : In (Scenario.old_snapshot (Scenario.now - 49 * Scenario.HOUR))
                  (Db.snapshots (db Scenario.world_with_history)))
    by (left; reflexivity).
  assert (H47 : In (Scenario.old_snapshot (Scenario.now - 47 * Scenario.HOUR))
                  (Db.snapshots (db Scenario.world_with_history)))
    by (right; left; reflexivity).
  assert (P49 : In (Scenario.old_price (Scenario.now - 49 * Scenario.HOUR))
                  (Db.prices (db Scenario.world_with_history)))
    by (left; reflexivity).
  assert (P47 : In (Scenario.old_price (Scenario.now - 47 * Scenario.HOUR))
                  (Db.prices (db Scenario.world_with_history)))
    by (right; left; reflexivity).
  split; split.
  - exact (proj1 (Hsnap _ H49) ltac:(vm_compute; reflexivity)).
  - exact (proj2 (Hsnap _ H47) ltac:(vm_compute; reflexivity)).
  - exact (proj1 (Hprice _ P49) ltac:(vm_compute; reflexivity)).
  - exact (proj2 (Hprice _ P47) ltac:(vm_compute; reflexivity)).
Defined.

(** C7.  [snapshot] reads the clock once, at entry.  Whenever it reaches
    the hand-off, every SnapshotRow and every PriceRow of the batch it
    hands to the store carries that epoch, which is also the [ts] of the
    result; and it reaches the hand-off whenever its RPC client can be
    made.  In the store after the run, whatever its outcome, the rows
    added to the pruned tables all carry that epoch. *)
Theorem batch_shares_epoch (env : Env) (o : Oracle) (w : World) :
  let epoch := clock o (tick w) in
  (forall e pruned batch w',
     assemble env o w = (Ok (e, pruned, batch), w') ->
     e = epoch /\
     (forall b, batch = Some b ->
        Forall (fun r => Db.s_ts r = epoch) (rows b) /\
        Forall (fun p => Db.p_ts p = epoch) (priceRows b)))
  /\ (endpoint_ok o (RPC_URL env) = true ->
      exists pruned batch w',
        assemble env o w = (Ok (epoch, pruned, batch), w'))
  /\ (forall res w'', snapshot env o w = (Ok res, w'') -> ts res = epoch)
  /\ (let before := Db.pruneOlderThanMs (db w) (epoch - RETENTION_MS) in
      let after := db (snd (snapshot env o w)) in
      exists news prs,
        Db.snapshots after = Db.snapshots before ++ news /\
        Forall (fun r => Db.s_ts r = epoch) news /\
        Db.prices after = fold_left Db.replace_price prs (Db.prices before) /\
        Forall (fun p => Db.p_ts p = epoch) prs).
Proof.
  intros epoch.
  split; [ | split; [ | split; [apply snapshot_result_epoch | ]]].
  - intros e pruned batch w' H.
    destruct (assemble_spec env o w) as (tokens & w1 & _ & _ & Ha).
    destruct tokens as [| t tokens].
    + rewrite Ha in H. injection H as <- _ <- _.
      split; [reflexivity | intros b [=]].
    + destruct (endpoint_ok o (RPC_URL env)); [ | congruence].
      destruct Ha as (b & w2 & Hc & Ha). rewrite Ha in H.
      injection H as <- _ <- _. split; [reflexivity | ].
      intros b' [= <-]. eapply collect_epoch. exact Hc.
  - intros Hendpoint.
    destruct (assemble_spec env o w) as (tokens & w1 & _ & _ & Ha).
    destruct tokens as [| t tokens].
    + eexists _, None, w1. exact Ha.
    + rewrite Hendpoint in Ha. destruct Ha as (b & w2 & _ & Ha).
      eexists _, (Some b), w2. exact Ha.
  - destruct (snapshot_store env o w) as ((news & Hs & Hn) & (prs & Hp & Hq)).
    exists news, prs. auto.
Qed.

(* ================================================================== *)
(** ** Further properties of the sources *)
(* ================================================================== *)

(** *** The store, table by table *)

Lemma filter_filter {A} (f g : A -> bool) (l : list A) :
  filter f (filter g l) = filter (fun x => g x && f x) l.
Proof.
  induction l as [| x l IH]; cbn; [reflexivity | ].
  destruct (g x); cbn; [destruct (f x) | ]; rewrite IH; reflexivity.
Qed.

Lemma filter_split_length {A} (f : A -> bool) (l : list A) :
  List.length l
  = (List.length (filter f l) + List.length (filter (fun x => negb (f x)) l))%nat.
Proof.
  induction l as [| x l IH]; cbn; [reflexivity | ].
  destruct (f x); cbn; lia.
Qed.

(** X1.  Pruning twice is pruning once at the later cutoff: in particular
    [pruneOlderThanMs] is idempotent, and a second prune at the same or an
    earlier cutoff deletes nothing and leaves the row counts as they
    are. *)
Theorem prune_twice (d : Db.DB) (c1 c2 : Z) :
  Db.pruneOlderThanMs (Db.pruneOlderThanMs d c1) c2
  = Db.pruneOlderThanMs d (Z.max c1 c2)
  /\ Db.pruneOlderThanMs (Db.pruneOlderThanMs d c1) c1
     = Db.pruneOlderThanMs d c1
  /\ forall t, Db.countRows (Db.pruneOlderThanMs (Db.pruneOlderThanMs d c1) c1) t
               = Db.countRows (Db.pruneOlderThanMs d c1) t.
Proof.
  assert (H : forall a b,
            Db.pruneOlderThanMs (Db.pruneOlderThanMs d a) b
            = Db.pruneOlderThanMs d (Z.max a b)).
  { intros a b. unfold Db.pruneOlderThanMs. cbn [Db.snapshots Db.prices
      Db.tokens Db.meta]. rewrite !filter_filter. f_equal.
    - apply filter_ext. intros r.
      destruct (Z.ltb_spec (Db.s_ts r) a), (Z.ltb_spec (Db.s_ts r) b),
        (Z.ltb_spec (Db.s_ts r) (Z.max a b)); cbn; try reflexivity; lia.
    - apply filter_ext. intros r.
      destruct (Z.ltb_spec (Db.p_ts r) a), (Z.ltb_spec (Db.p_ts r) b),
        (Z.ltb_spec (Db.p_ts r) (Z.max a b)); cbn; try reflexivity; lia. }
  split; [apply H | ].
  assert (Hid : Db.pruneOlderThanMs (Db.pruneOlderThanMs d c1) c1
                = Db.pruneOlderThanMs d c1)
    by (rewrite H, Z.max_id; reflexivity).
  split; [exact Hid | intros t; rewrite Hid; reflexivity].
Qed.

Lemma pruned_counts_eq ts d :
  pruned_counts ts d
  = mkPruned (Z.of_nat (List.length (older_snapshots (ts - RETENTION_MS) d)))
             (Z.of_nat (List.length (older_prices (ts - RETENTION_MS) d))).
Proof.
  unfold pruned_counts, older_snapshots, older_prices, Db.countRows,
    Db.pruneOlderThanMs. cbn [Db.snapshots Db.prices]. f_equal.
  - rewrite (filter_split_length (fun r => Db.s_ts r <? ts - RETENTION_MS)
               (Db.snapshots d)) at 1. lia.
  - rewrite (filter_split_length (fun r => Db.p_ts r <? ts - RETENTION_MS)
               (Db.prices d)) at 1. lia.
Qed.

(** The result of a run that returns: the epoch, and the prune counts of
    the database it started from. *)
Lemma snapshot_result env o w res w' :
  snapshot env o w = (Ok res, w') ->
  ts res = clock o (tick w) /\
  prunedRows res = Some (pruned_counts (clock o (tick w)) (db w)).
Proof.
  destruct (assemble_spec env o w) as (tokens & w1 & _ & _ & Ha).
  unfold snapshot. destruct tokens as [| t tokens].
  - erewrite bind_ok by exact Ha. intros [= <- _]. split; reflexivity.
  - destruct (endpoint_ok o (RPC_URL env)).
    2:{ erewrite bind_throw by exact Ha. discriminate. }
    destruct Ha as (b & w2 & _ & Ha). erewrite bind_ok by exact Ha.
    cbv iota beta. unfold bind. destruct (persist b w2) as [[[] | e] w3];
      [ | discriminate].
    intros [= <- _]. split; reflexivity.
Qed.

(** X2.  The [prunedRows] a run reports are the numbers of snapshot rows
    and of price rows that were stamped more than 48 hours before its
    epoch when it started: never negative, and zero on a store without
    such rows. *)
Theorem pruned_rows_are_counted
    (env : Env) (o : Oracle) (w w' : World) (res : SnapshotResult)
    (Hrun : snapshot env o w = (Ok res, w')) :
  let cutoff := clock o (tick w) - 48 * 3600000 in
  prunedRows res
  = Some (mkPruned (Z.of_nat (List.length (older_snapshots cutoff (db w))))
                   (Z.of_nat (List.length (older_prices cutoff (db w))))).
Proof.
  intros cutoff. destruct (snapshot_result _ _ _ _ _ Hrun) as (_ & ->).
  rewrite pruned_counts_eq. reflexivity.
Qed.

(** The store of the history scenario holds one snapshot row and one
    price row older than 48 hours; the run reports one of each. *)
Lemma pruned_rows_are_counted_witness :
  exists res w',
    snapshot Scenario.env_plain (Scenario.oracle (Scenario.http_down None))
      Scenario.world_with_history = (Ok res, w')
    /\ prunedRows res = Some (mkPruned 1 1).
Proof.
  assert (Hrun : snapshot Scenario.env_plain
                   (Scenario.oracle (Scenario.http_down None))
                   Scenario.world_with_history
                 = (Ok (mkResult Scenario.now 1 (Some (mkPruned 1 1))),
                    snd (snapshot Scenario.env_plain
                           (Scenario.oracle (Scenario.http_down None))
                           Scenario.world_with_history)))
    by (vm_compute; reflexivity).
  pose proof (pruned_rows_are_counted _ _ _ _ _ Hrun) as H.
  eexists _, _. split; [exact Hrun | ].
  cbv zeta in H. rewrite H. vm_compute. reflexivity.
Defined.

Lemma find_app {A} (f : A -> bool) (l1 l2 : list A) :
  find f (l1 ++ l2)
  = match find f l1 with Some x => Some x | None => find f l2 end.
Proof.
  induction l1 as [| x l1 IH]; cbn; [reflexivity | ].
  destruct (f x); [reflexivity | exact IH].
Qed.

Lemma upsert_meta_keys k v m :
  map fst (Db.upsert_meta k v m)
  = if existsb (fun kv => (fst kv =? k)%string) m
    then map fst m else map fst m ++ [k].
Proof.
  induction m as [| [k' v'] m IH]; cbn; [reflexivity | ].
  destruct (String.eqb_spec k' k) as [-> | Hne]; cbn; [reflexivity | ].
  rewrite IH. destruct (existsb _ m); reflexivity.
Qed.

Lemma upsert_meta_at k v m k' :
  meta_at k' (Db.upsert_meta k v m)
  = if (k =? k')%string then Some v else meta_at k' m.
Proof.
  unfold meta_at. induction m as [| [k0 v0] m IH]; cbn.
  - destruct (k =? k')%string; reflexivity.
  - destruct (String.eqb_spec k0 k) as [-> | Hne]; cbn.
    + destruct (k =? k')%string; reflexivity.
    + destruct (String.eqb_spec k0 k') as [-> | Hne']; cbn.
      * apply String.eqb_neq in Hne. rewrite String.eqb_sym, Hne. reflexivity.
      * exact IH.
Qed.

Lemma existsb_key_In (k : string) (m : list (string * string)) :
  existsb (fun kv => (fst kv =? k)%string) m = true <-> In k (map fst m).
Proof.
  rewrite existsb_exists, in_map_iff. split.
  - intros (kv & Hin & E). apply String.eqb_eq in E. eauto.
  - intros (kv & E & Hin). exists kv. split; [exact Hin | ].
    apply String.eqb_eq. exact E.
Qed.

(** X3.  [setMeta] is an upsert by key: afterwards the key reads as the
    value just written and every other key reads as before; the rows keep
    their order, a new key goes last, keys that were unique stay unique,
    and the other three tables are untouched. *)
Theorem setMeta_upserts (d : Db.DB) (key value : string) :
  (forall k, meta_at k (Db.meta (Db.setMeta d key value))
             = if (key =? k)%string then Some value
               else meta_at k (Db.meta d))
  /\ (map fst (Db.meta (Db.setMeta d key value))
      = if existsb (fun kv => (fst kv =? key)%string) (Db.meta d)
        then map fst (Db.meta d) else map fst (Db.meta d) ++ [key])
  /\ (NoDup (map fst (Db.meta d)) ->
      NoDup (map fst (Db.meta (Db.setMeta d key value))))
  /\ Db.snapshots (Db.setMeta d key value) = Db.snapshots d
  /\ Db.prices (Db.setMeta d key value) = Db.prices d
  /\ Db.tokens (Db.setMeta d key value) = Db.tokens d.
Proof.
  split; [intros k; apply upsert_meta_at | ].
  split; [apply upsert_meta_keys | ].
  split; [ | repeat split].
  intros Hnd. cbn [Db.setMeta Db.meta]. rewrite upsert_meta_keys.
  destruct (existsb _ (Db.meta d)) eqn:E; [exact Hnd | ].
  apply NoDup_app; [exact Hnd | constructor; [intros [] | constructor] | ].
  intros k Hk [<- | []]. apply existsb_key_In in Hk. congruence.
Qed.

Lemma upsert_token_at r t mint :
  token_at mint (Db.upsert_token r t)
  = if (Db.d_mint r =? mint)%string then Some r else token_at mint t.
Proof.
  unfold token_at. induction t as [| x t IH]; cbn.
  - destruct (Db.d_mint r =? mint)%string; reflexivity.
  - destruct (String.eqb_spec (Db.d_mint x) (Db.d_mint r)) as [E | Hne]; cbn.
    + rewrite E. destruct (Db.d_mint r =? mint)%string; reflexivity.
    + destruct (String.eqb_spec (Db.d_mint x) mint) as [E' | Hne']; cbn.
      * rewrite <- E'. apply String.eqb_neq in Hne.
        rewrite String.eqb_sym, Hne. reflexivity.
      * exact IH.
Qed.

Lemma upsert_token_mints r t :
  map Db.d_mint (Db.upsert_token r t)
  = if existsb (fun x => (Db.d_mint x =? Db.d_mint r)%string) t
    then map Db.d_mint t else map Db.d_mint t ++ [Db.d_mint r].
Proof.
  induction t as [| x t IH]; cbn; [reflexivity | ].
  destruct (String.eqb_spec (Db.d_mint x) (Db.d_mint r)) as [E | Hne]; cbn.
  - rewrite E. reflexivity.
  - rewrite IH. destruct (existsb _ t); reflexivity.
Qed.

Lemma upsert_token_unique r t :
  NoDup (map Db.d_mint t) -> NoDup (map Db.d_mint (Db.upsert_token r t)).
Proof.
  intros Hnd. rewrite upsert_token_mints.
  destruct (existsb _ t) eqn:E; [exact Hnd | ].
  apply NoDup_app; [exact Hnd | constructor; [intros [] | constructor] | ].
  intros m Hm [<- | []].
  assert (existsb (fun x => (Db.d_mint x =? Db.d_mint r)%string) t = true);
    [ | congruence].
  apply in_map_iff in Hm. destruct Hm as (x & Hx & Hin).
  apply existsb_exists. exists x. split; [exact Hin | ].
  apply String.eqb_eq. exact Hx.
Qed.

(** X4.  [upsertTokens] leaves one directory row per mint: for a mint of
    the batch, the last row the batch has for it; for any other mint, the
    row stored before.  Mints that were unique stay unique and the other
    tables are untouched. *)
Theorem upsertTokens_last_wins (d : Db.DB) (rows : list Db.TokenDirRow) :
  (forall mint,
     token_at mint (Db.tokens (Db.upsertTokens d rows))
     = match token_at mint (List.rev rows) with
       | Some r => Some r
       | None => token_at mint (Db.tokens d)
       end)
  /\ (NoDup (map Db.d_mint (Db.tokens d)) ->
      NoDup (map Db.d_mint (Db.tokens (Db.upsertTokens d rows))))
  /\ Db.snapshots (Db.upsertTokens d rows) = Db.snapshots d
  /\ Db.prices (Db.upsertTokens d rows) = Db.prices d
  /\ Db.meta (Db.upsertTokens d rows) = Db.meta d.
Proof.
  split; [ | split; [ | repeat split]].
  - intros mint. cbn [Db.upsertTokens Db.tokens].
    generalize (Db.tokens d) as t.
    induction rows as [| r rows IH]; intros t; [reflexivity | ].
    cbn [fold_left List.rev].
    rewrite IH. unfold token_at at 3. rewrite find_app.
    fold (token_at mint (List.rev rows)).
    destruct (token_at mint (List.rev rows)); [reflexivity | ].
    rewrite upsert_token_at. cbn.
    destruct (Db.d_mint r =? mint)%string; reflexivity.
  - cbn [Db.upsertTokens Db.tokens]. generalize (Db.tokens d) as t.
    induction rows as [| r rows IH]; intros t Hnd; cbn; [exact Hnd | ].
    apply IH, upsert_token_unique, Hnd.
Qed.

Lemma same_price_key_iff a b :
  Db.same_price_key a b = true <-> price_key a = price_key b.
Proof.
  unfold Db.same_price_key, price_key.
  rewrite andb_true_iff, Z.eqb_eq, String.eqb_eq.
  split; [intros (-> & ->); reflexivity | intros [= -> ->]; auto].
Qed.

Lemma replace_price_at t r ts mint :
  price_at ts mint (Db.replace_price t r)
  = if (Db.p_ts r =? ts) && (Db.p_mint r =? mint)%string then Some r
    else price_at ts mint t.
Proof.
  unfold price_at, Db.replace_price. rewrite find_app. cbn [find].
  induction t as [| x t IH]; cbn [filter find].
  - destruct ((Db.p_ts r =? ts) && (Db.p_mint r =? mint)%string); reflexivity.
  - destruct (Db.same_price_key x r) eqn:K; cbn [negb find].
    + apply same_price_key_iff in K. unfold price_key in K.
      injection K as -> ->. rewrite IH.
      destruct ((Db.p_ts r =? ts) && (Db.p_mint r =? mint)%string); reflexivity.
    + destruct ((Db.p_ts x =? ts) && (Db.p_mint x =? mint)%string) eqn:F;
        [ | exact IH].
      destruct ((Db.p_ts r =? ts) && (Db.p_mint r =? mint)%string) eqn:G;
        [ | reflexivity].
      exfalso. apply andb_true_iff in F, G.
      destruct F as (F1 & F2), G as (G1 & G2).
      apply Z.eqb_eq in F1, G1. apply String.eqb_eq in F2, G2.
      assert (Db.same_price_key x r = true); [ | congruence].
      apply same_price_key_iff. unfold price_key. congruence.
Qed.

Lemma replace_price_unique t r :
  NoDup (map price_key t) -> NoDup (map price_key (Db.replace_price t r)).
Proof.
  intros Hnd. unfold Db.replace_price. rewrite map_app. cbn [map].
  apply NoDup_app.
  - induction t as [| x t IH]; cbn; [constructor | ].
    inversion Hnd as [| ? ? Hx Hnd']; subst.
    destruct (negb (Db.same_price_key x r)); [ | exact (IH Hnd')].
    cbn. constructor; [ | exact (IH Hnd')].
    intros Hin. apply Hx. apply in_map_iff in Hin.
    destruct Hin as (y & Hy & Hin). apply filter_In in Hin.
    apply in_map_iff. exists y. split; [exact Hy | apply Hin].
  - constructor; [intros [] | constructor].
  - intros k Hk [<- | []]. apply in_map_iff in Hk.
    destruct Hk as (y & Hy & Hin). apply filter_In in Hin.
    destruct Hin as (_ & Hn). apply negb_true_iff in Hn.
    apply same_price_key_iff in Hy. congruence.
Qed.

Lemma stored_price_key r r' :
  Db.stored_price r = Some r' ->
  Db.p_ts r' = Db.p_ts r /\ Db.p_mint r' = Db.p_mint r.
Proof.
  unfold Db.stored_price. destruct (Db.real (Db.price_usd r)); cbn;
    [ | discriminate].
  intros [= <-]. split; reflexivity.
Qed.

Lemma stored_price_none r :
  Db.stored_price r = None <-> PrimFloat.is_nan (Db.price_usd r) = true.
Proof.
  unfold Db.stored_price, Db.real.
  destruct (PrimFloat.is_nan (Db.price_usd r)); cbn.
  - split; reflexivity.
  - destruct (PrimFloat.eqb (Db.price_usd r) 0); cbn; split; discriminate.
Qed.

(** The price rows go in exactly when none of them has a NaN price. *)
Lemma insert_price_rows_none rows :
  forall tbl,
    Db.insert_price_rows rows tbl = None <->
    Exists (fun r => PrimFloat.is_nan (Db.price_usd r) = true) rows.
Proof.
  induction rows as [| r rows IH]; intros tbl; cbn [Db.insert_price_rows].
  - split; [discriminate | intros H; inversion H].
  - destruct (Db.stored_price r) as [r' | ] eqn:E.
    + rewrite IH. split; [intros H; right; exact H | ].
      intros H. inversion H as [? ? Hn | ? ? Hx]; subst; [ | exact Hx].
      apply stored_price_none in Hn. congruence.
    + split; [ | reflexivity]. intros _. left.
      apply stored_price_none. exact E.
Qed.

Lemma insert_price_rows_at rows :
  forall tbl t,
    Db.insert_price_rows rows tbl = Some t ->
    forall ts mint,
      price_at ts mint t
      = match price_at ts mint (List.rev rows) with
        | Some r => Db.stored_price r
        | None => price_at ts mint tbl
        end.
Proof.
  induction rows as [| r rows IH]; intros tbl t; cbn [Db.insert_price_rows].
  - intros [= <-] ts mint. reflexivity.
  - destruct (Db.stored_price r) as [r' | ] eqn:E; [ | discriminate].
    intros H ts mint. rewrite (IH _ _ H). cbn [List.rev].
    unfold price_at at 3. rewrite find_app.
    fold (price_at ts mint (List.rev rows)).
    destruct (price_at ts mint (List.rev rows)); [reflexivity | ].
    rewrite replace_price_at. cbn [find].
    destruct (stored_price_key _ _ E) as (-> & ->).
    destruct ((Db.p_ts r =? ts) && (Db.p_mint r =? mint)%string);
      [symmetry; exact E | reflexivity].
Qed.

Lemma insert_price_rows_unique rows :
  forall tbl t,
    Db.insert_price_rows rows tbl = Some t ->
    NoDup (map price_key tbl) -> NoDup (map price_key t).
Proof.
  induction rows as [| r rows IH]; intros tbl t; cbn [Db.insert_price_rows].
  - intros [= <-] H. exact H.
  - destruct (Db.stored_price r) as [r' | ]; [ | discriminate].
    intros H Hnd. apply (IH _ _ H), replace_price_unique, Hnd.
Qed.

(** X5.  [insertPrices] is INSERT OR REPLACE by [(ts, mint)] into a column
    that is NOT NULL.  It throws the constraint error, storing nothing,
    exactly when a price of the batch is NaN.  Otherwise, for a key of the
    batch the stored row is the last row the batch has for it, with the
    price as the column stores it; for any other key it is the row stored
    before; keys that were unique stay unique and the other tables are
    untouched. *)
Theorem insertPrices_last_wins (d : Db.DB) (rows : list Db.PriceRow) :
  let refused :=
    Exists (fun r => PrimFloat.is_nan (Db.price_usd r) = true) rows in
  (refused -> Db.insertPrices d rows = Throw SqliteError)
  /\ (~ refused -> exists d', Db.insertPrices d rows = Ok d')
  /\ (forall e, Db.insertPrices d rows = Throw e ->
                e = SqliteError /\ refused)
  /\ (forall d',
        Db.insertPrices d rows = Ok d' ->
        ~ refused
        /\ (forall ts mint,
              price_at ts mint (Db.prices d')
              = match price_at ts mint (List.rev rows) with
                | Some r => Db.stored_price r
                | None => price_at ts mint (Db.prices d)
                end)
        /\ (NoDup (map price_key (Db.prices d)) ->
            NoDup (map price_key (Db.prices d')))
        /\ Db.snapshots d' = Db.snapshots d
        /\ Db.tokens d' = Db.tokens d
        /\ Db.meta d' = Db.meta d).
Proof.
  intros refused. subst refused. unfold Db.insertPrices.
  destruct rows as [| r rows'].
  - split; [intros H; inversion H | ].
    split; [intros _; exists d; reflexivity | ].
    split; [discriminate | ].
    intros d' [= <-]. split; [intros H; inversion H | ].
    split; [intros ts mint; reflexivity | auto].
  - destruct (Db.insert_price_rows (r :: rows') (Db.prices d)) as [t | ] eqn:E.
    + assert (Hn : ~ Exists (fun r => PrimFloat.is_nan (Db.price_usd r) = true)
                     (r :: rows')).
      { intros H. apply (insert_price_rows_none _ (Db.prices d)) in H.
        congruence. }
      split; [intros H; exfalso; exact (Hn H) | ].
      split; [intros _; eexists; reflexivity | ].
      split; [discriminate | ].
      intros d' [= <-]. split; [exact Hn | ]. cbn [Db.prices Db.snapshots
        Db.tokens Db.meta].
      split; [exact (insert_price_rows_at _ _ _ E) | ].
      split; [exact (insert_price_rows_unique _ _ _ E) | auto].
    + apply insert_price_rows_none in E.
      split; [reflexivity | ].
      split; [intros H; exfalso; exact (H E) | ].
      split; [intros e [= <-]; split; [reflexivity | exact E] | discriminate].
Qed.

Lemma same_snapshot_key_iff a b :
  Db.same_snapshot_key a b = true <-> snapshot_key a = snapshot_key b.
Proof.
  unfold Db.same_snapshot_key, snapshot_key.
  rewrite andb_true_iff, Z.eqb_eq, String.eqb_eq.
  split; [intros (-> & ->); reflexivity | intros [= -> ->]; auto].
Qed.

Lemma key_stored_iff r tbl :
  existsb (Db.same_snapshot_key r) tbl = true
  <-> In (snapshot_key r) (map snapshot_key tbl).
Proof.
  rewrite existsb_exists, in_map_iff. split.
  - intros (x & Hin & K). apply same_snapshot_key_iff in K. eauto.
  - intros (x & K & Hin). exists x. split; [exact Hin | ].
    apply same_snapshot_key_iff. congruence.
Qed.

(** The rows go in exactly when their keys are pairwise distinct and not
    stored yet. *)
Lemma insert_snapshot_rows_iff rs :
  forall tbl t,
    Db.insert_snapshot_rows rs tbl = Some t <->
    t = tbl ++ map Db.stored_snapshot rs /\
    NoDup (map snapshot_key rs) /\
    (forall k, In k (map snapshot_key rs) -> ~ In k (map snapshot_key tbl)).
Proof.
  induction rs as [| r rs IH]; intros tbl t; cbn.
  - rewrite app_nil_r. split.
    + intros [= <-]. split; [reflexivity | split; [constructor | intros k []]].
    + intros (-> & _). reflexivity.
  - destruct (existsb (Db.same_snapshot_key r) tbl) eqn:E.
    + split; [discriminate | ]. intros (_ & _ & Hdis). exfalso.
      apply key_stored_iff in E. apply (Hdis (snapshot_key r)); auto.
    + assert (Hr : ~ In (snapshot_key r) (map snapshot_key tbl)).
      { intros H. apply key_stored_iff in H. congruence. }
      rewrite IH, <- app_assoc. cbn [app]. rewrite map_app. cbn [map].
      change (snapshot_key (Db.stored_snapshot r)) with (snapshot_key r).
      split.
      * intros (-> & Hnd & Hdis). split; [reflexivity | ]. split.
        -- constructor; [ | exact Hnd]. intros Hin.
           apply (Hdis _ Hin). apply in_or_app. right. left. reflexivity.
        -- intros k [<- | Hk]; [exact Hr | ]. intros Hin.
           apply (Hdis _ Hk). apply in_or_app. left. exact Hin.
      * intros (-> & Hnd & Hdis). split; [reflexivity | ].
        inversion Hnd as [| ? ? Hnotin Hnd']; subst. split; [exact Hnd' | ].
        intros k Hk Hin. apply in_app_or in Hin.
        destruct Hin as [Hin | [<- | []]].
        -- apply (Hdis k); [right; exact Hk | exact Hin].
        -- exact (Hnotin Hk).
Qed.

(** X6.  [insertSnapshots] is all or nothing on the primary key
    [(ts, mint)]: it succeeds exactly when the keys of the batch are
    pairwise distinct and none of them is stored, and then appends the
    batch in order, each row as its columns store it (a NaN as NULL, an
    absent return, volume or net buy as 0), leaving the other tables alone
    and stored keys unique; otherwise it throws the constraint error and
    stores nothing. *)
Theorem insertSnapshots_all_or_nothing (d : Db.DB) (rows : list Db.SnapshotRow) :
  let compatible :=
    NoDup (map snapshot_key rows) /\
    (forall k, In k (map snapshot_key rows) ->
               ~ In k (map snapshot_key (Db.snapshots d))) in
  (compatible ->
   Db.insertSnapshots d rows
   = Ok (Db.mkDB (Db.snapshots d ++ map Db.stored_snapshot rows)
                 (Db.prices d) (Db.tokens d) (Db.meta d)))
  /\ (~ compatible -> Db.insertSnapshots d rows = Throw SqliteError)
  /\ (forall d',
        Db.insertSnapshots d rows = Ok d' ->
        compatible /\
        (NoDup (map snapshot_key (Db.snapshots d)) ->
         NoDup (map snapshot_key (Db.snapshots d'))))
  /\ (forall e, Db.insertSnapshots d rows = Throw e ->
                e = SqliteError /\ ~ compatible).
Proof.
  intros compatible. subst compatible.
  assert (Hcases :
            match Db.insert_snapshot_rows rows (Db.snapshots d) with
            | Some t =>
                t = Db.snapshots d ++ map Db.stored_snapshot rows /\
                NoDup (map snapshot_key rows) /\
                (forall k, In k (map snapshot_key rows) ->
                           ~ In k (map snapshot_key (Db.snapshots d)))
            | None =>
                ~ (NoDup (map snapshot_key rows) /\
                   (forall k, In k (map snapshot_key rows) ->
                              ~ In k (map snapshot_key (Db.snapshots d))))
            end).
  { destruct (Db.insert_snapshot_rows rows (Db.snapshots d)) as [t | ] eqn:E.
    - apply insert_snapshot_rows_iff. exact E.
    - intros (Hnd & Hdis).
      assert (Db.insert_snapshot_rows rows (Db.snapshots d)
              = Some (Db.snapshots d ++ map Db.stored_snapshot rows))
        by (apply insert_snapshot_rows_iff; auto).
      congruence. }
  assert (Hnil : rows = [] ->
                 Db.mkDB (Db.snapshots d ++ map Db.stored_snapshot rows)
                         (Db.prices d) (Db.tokens d) (Db.meta d) = d).
  { intros ->. cbn [map]. rewrite app_nil_r. destruct d. reflexivity. }
  unfold Db.insertSnapshots.
  destruct rows as [| r rows'].
  - rewrite (Hnil eq_refl).
    split; [reflexivity | ]. split; [intros H; exfalso; apply H; split;
                                      [constructor | intros k []] | ].
    split; [ | discriminate].
    intros d' [= <-]. split; [split; [constructor | intros k []] | auto].
  - destruct (Db.insert_snapshot_rows (r :: rows') (Db.snapshots d))
      as [t | ] eqn:E.
    + destruct Hcases as (-> & Hnd & Hdis).
      split; [reflexivity | ]. split; [intros H; exfalso; apply H; auto | ].
      split; [ | discriminate].
      intros d' [= <-]. split; [auto | ]. cbn [Db.snapshots].
      intros Hstored.
      change (Db.stored_snapshot r :: map Db.stored_snapshot rows')
        with (map Db.stored_snapshot (r :: rows')).
      rewrite map_app, map_map.
      change (map (fun x => snapshot_key (Db.stored_snapshot x)) (r :: rows'))
        with (map snapshot_key (r :: rows')).
      apply NoDup_app; [exact Hstored | exact Hnd | ].
      intros k Hk Hin. exact (Hdis k Hin Hk).
    + split; [intros H; exfalso; exact (Hcases H) | ].
      split; [reflexivity | ]. split; [discriminate | ].
      intros e [= <-]. split; [reflexivity | exact Hcases].
Qed.

(** *** The run as a whole *)

(** [insertSnapshots] decided by the keys of the batch. *)
Lemma insertSnapshots_decided d rs :
  let compatible :=
    NoDup (map snapshot_key rs) /\
    (forall k, In k (map snapshot_key rs) ->
               ~ In k (map snapshot_key (Db.snapshots d))) in
  (compatible /\
   Db.insertSnapshots d rs
   = Ok (Db.mkDB (Db.snapshots d ++ map Db.stored_snapshot rs)
                 (Db.prices d) (Db.tokens d) (Db.meta d)))
  \/ (~ compatible /\ Db.insertSnapshots d rs = Throw SqliteError).
Proof.
  cbv zeta.
  destruct (Db.insert_snapshot_rows rs (Db.snapshots d)) as [t |] eqn:E.
  - left. apply insert_snapshot_rows_iff in E. destruct E as (-> & Hnd & Hdis).
    split; [split; assumption | ].
    destruct rs as [| r rs].
    + cbn. rewrite app_nil_r. destruct d; reflexivity.
    + unfold Db.insertSnapshots.
      rewrite (proj2 (insert_snapshot_rows_iff (r :: rs) (Db.snapshots d) _)
                 (conj eq_refl (conj Hnd Hdis))).
      reflexivity.
  - right. split.
    + intros (Hnd & Hdis).
      rewrite (proj2 (insert_snapshot_rows_iff rs (Db.snapshots d) _)
                 (conj eq_refl (conj Hnd Hdis))) in E.
      discriminate.
    + destruct rs as [| r rs]; [discriminate | ].
      unfold Db.insertSnapshots. rewrite E. reflexivity.
Qed.

(** The three ways a run goes: the early return on an empty universe;
    the RPC client refused, in a world that holds the prepared store; or
    the collection of a batch in such a world, followed by the
    hand-off. *)
Lemma snapshot_cases env o w :
  let epoch := clock o (tick w) in
  let prepared := store_after_prepare env o epoch (db w) in
  exists tokens w1,
    resolve_universe env o (next w) = (Ok tokens, w1) /\
    ((tokens = [] /\
      snapshot env o w
      = (Ok (mkResult epoch 0 (Some (pruned_counts epoch (db w)))),
         set_db prepared w1))
     \/
     (tokens <> [] /\ endpoint_ok o (RPC_URL env) = false /\
      snapshot env o w = (Throw TypeError, set_db prepared w1))
     \/
     (tokens <> [] /\ endpoint_ok o (RPC_URL env) = true /\
      exists b w2,
        collect env o epoch tokens (set_db prepared w1) = (Ok b, w2) /\
        db w2 = prepared /\
        snapshot env o w
        = match Db.insertSnapshots (Db.upsertTokens prepared (tokenRows b))
                                   (rows b) with
          | Ok d =>
              (Ok (mkResult epoch (Z.of_nat (List.length (rows b)))
                            (Some (pruned_counts epoch (db w)))),
               set_db (with_prices d (priceRows b)) w2)
          | Throw e =>
              (Throw e, set_db (Db.upsertTokens prepared (tokenRows b)) w2)
          end)).
Proof.
  intros epoch prepared.
  destruct (prepare_spec env o w) as (tokens & w1 & Hres & Hp).
  fold epoch in Hp. fold prepared in Hp.
  exists tokens, w1. split; [exact Hres | ].
  destruct tokens as [| t tokens].
  - left. split; [reflexivity | ]. unfold snapshot, assemble.
    erewrite bind_ok; [ | erewrite bind_ok by exact Hp; reflexivity].
    reflexivity.
  - right.
    destruct (collect_spec env o epoch (t :: tokens) (set_db prepared w1))
      as (r & q & wa & w2 & _ & _ & Hc & Hq & _).
    destruct (endpoint_ok o (RPC_URL env)) eqn:Hendpoint.
    + right. split; [discriminate | ]. split; [reflexivity | ].
      eexists _, w2. split; [exact Hc | ].
      assert (Hdb : db w2 = prepared)
        by (destruct Hq as (_ & _ & ->); reflexivity).
      split; [exact Hdb | ].
      assert (Ha : assemble env o w
                   = (Ok (epoch, pruned_counts epoch (db w),
                          Some (mkBatch (snd r) (merge_metrics (snd q) (fst r))
                                        (fst q ++ [base_price env epoch]))), w2)).
      { unfold assemble. erewrite bind_ok by exact Hp. cbv iota beta.
        erewrite bind_ok by exact Hc. reflexivity. }
      rewrite (snapshot_after_assemble _ _ _ _ _ _ _ Ha), Hdb. reflexivity.
    + left. split; [discriminate | ]. split; [reflexivity | ].
      unfold snapshot, assemble.
      erewrite bind_throw; [reflexivity | ].
      erewrite bind_ok by exact Hp. cbv iota beta.
      erewrite bind_throw by exact Hc. reflexivity.
Qed.

(** X7.  A run that finds its universe empty returns early.  Otherwise it
    fails with a TypeError when its RPC client cannot be made, having
    pruned and written the metadata and nothing else; and when the client
    is made it collects a batch and fails only with the constraint error
    of the store, exactly when the snapshot rows of the batch cannot all
    be inserted: two of them share a mint, or one has the epoch and mint
    of a stored row.  It has then pruned, written the metadata and
    upserted the directory rows, and stored no snapshot row and no price
    row.  Otherwise it returns, having appended the snapshot rows as their
    columns store them and upserted the price rows, and [savedTokens] is
    the number of snapshot rows. *)
Theorem snapshot_hand_off (env : Env) (o : Oracle) (w : World) :
  let epoch := clock o (tick w) in
  let prepared := store_after_prepare env o epoch (db w) in
  let pruned := pruned_counts epoch (db w) in
  (forall e w', snapshot env o w = (Throw e, w') ->
                (e = TypeError /\ endpoint_ok o (RPC_URL env) = false)
                \/ (e = SqliteError /\ endpoint_ok o (RPC_URL env) = true))
  /\ exists tokens w1,
       resolve_universe env o (next w) = (Ok tokens, w1) /\
       match tokens with
       | [] =>
           snapshot env o w
           = (Ok (mkResult epoch 0 (Some pruned)), set_db prepared w1)
       | _ :: _ =>
           if endpoint_ok o (RPC_URL env)
           then
             exists b w2,
               assemble env o w = (Ok (epoch, pruned, Some b), w2) /\
               db w2 = prepared /\
               let compatible :=
                 NoDup (map snapshot_key (rows b)) /\
                 (forall k, In k (map snapshot_key (rows b)) ->
                            ~ In k (map snapshot_key (Db.snapshots prepared))) in
               (compatible ->
                snapshot env o w
                = (Ok (mkResult epoch (Z.of_nat (List.length (rows b)))
                                (Some pruned)),
                   set_db (Db.mkDB
                             (Db.snapshots prepared
                              ++ map Db.stored_snapshot (rows b))
                             (fold_left Db.replace_price (priceRows b)
                                        (Db.prices prepared))
                             (Db.tokens (Db.upsertTokens prepared
                                           (tokenRows b)))
                             (Db.meta prepared)) w2))
               /\ (~ compatible ->
                   snapshot env o w
                   = (Throw SqliteError,
                      set_db (Db.upsertTokens prepared (tokenRows b)) w2))
           else
             snapshot env o w = (Throw TypeError, set_db prepared w1)
       end.
Proof.
  intros epoch prepared pruned.
  destruct (snapshot_cases env o w) as (tokens & w1 & Hres & Hcases).
  fold epoch in Hcases. fold prepared in Hcases. fold pruned in Hcases.
  destruct (prepare_spec env o w) as (tokens' & w1' & Hres' & Hp).
  rewrite Hres in Hres'. injection Hres' as <- <-.
  fold epoch in Hp. fold prepared in Hp. fold pruned in Hp.
  destruct Hcases as [(-> & Hs) | [(Hne & Hendpoint & Hs)
                                  | (Hne & Hendpoint & b & w2 & Hc & Hdb & Hs)]].
  - split; [intros e w'; rewrite Hs; discriminate | ].
    exists [], w1. split; [exact Hres | exact Hs].
  - split.
    + intros e w'. rewrite Hs. intros [= <- _]. left. split; [reflexivity | ].
      exact Hendpoint.
    + exists tokens, w1. split; [exact Hres | ].
      destruct tokens; [contradiction | ]. rewrite Hendpoint. exact Hs.
  - assert (Ha : assemble env o w = (Ok (epoch, pruned, Some b), w2)).
    { unfold assemble. erewrite bind_ok by exact Hp.
      destruct tokens; [contradiction | ]. cbv iota beta.
      erewrite bind_ok by exact Hc. reflexivity. }
    destruct (insertSnapshots_decided
                (Db.upsertTokens prepared (tokenRows b)) (rows b))
      as [(Hcomp & Hins) | (Hcomp & Hins)]; cbv zeta in Hcomp.
    + split; [intros e w'; rewrite Hs, Hins; discriminate | ].
      exists tokens, w1. split; [exact Hres | ].
      destruct tokens; [contradiction | ]. rewrite Hendpoint.
      exists b, w2. split; [exact Ha | ]. split; [exact Hdb | ].
      cbv zeta. split; intros Hcomp'; [ | contradiction].
      rewrite Hs, Hins. reflexivity.
    + split.
      * intros e w'. rewrite Hs, Hins. intros [= <- _]. right.
        split; [reflexivity | exact Hendpoint].
      * exists tokens, w1. split; [exact Hres | ].
        destruct tokens; [contradiction | ]. rewrite Hendpoint.
        exists b, w2. split; [exact Ha | ]. split; [exact Hdb | ].
        cbv zeta. split; intros Hcomp'; [contradiction | ].
        rewrite Hs, Hins. reflexivity.
Qed.

(** An endpoint without a scheme, refused by the client: the run has
    resolved its universe, pruned and written the metadata, and fails
    before any lookup; the command ends with exit code 1. *)
Example bad_endpoint_fails_the_run :
  snapshot Edge.env_bad_endpoint Edge.oracle_strict
           (Scenario.world Scenario.recent_cache SeedMissing)
  = (Throw TypeError,
     mkWorld 3 Scenario.recent_cache SeedMissing
             (Db.mkDB [] [] []
                [("last_snapshot_ts", "1700000000000");
                 ("rpc_url", "localhost:8899");
                 ("token_limit", "50")]) [])
  /\ Cli.exitCode
       (fst (Cli.action Edge.env_bad_endpoint Edge.oracle_strict
               (Scenario.world Scenario.recent_cache SeedMissing)))
     = Some 1.
Proof. split; vm_compute; reflexivity. Qed.



(** X9.  When the data directory cannot be made the run still returns:
    it reports zero saved tokens and the prune counts, the store is the
    pruned one with the metadata set, and only the clock read and the
    failed [mkdirSync] have happened, so the cache file is not written,
    nothing is slept and no request is made.  The same early return is
    taken whenever the universe is empty. *)
Theorem run_without_data_dir (env : Env) (o : Oracle) (w : World)
    (Hdir : mkdir_ok o (S (tick w)) = false) :
  let epoch := clock o (tick w) in
  snapshot env o w
  = (Ok (mkResult epoch 0 (Some (pruned_counts epoch (db w)))),
     set_db (store_after_prepare env o epoch (db w)) (next (next w)))
  /\ forall o' w1,
       resolve_universe env o' (next w) = (Ok [], w1) ->
       snapshot env o' w
       = (Ok (mkResult (clock o' (tick w)) 0
                       (Some (pruned_counts (clock o' (tick w)) (db w)))),
          set_db (store_after_prepare env o' (clock o' (tick w)) (db w)) w1).
Proof.
  assert (Hgen : forall o' w1,
             resolve_universe env o' (next w) = (Ok [], w1) ->
             snapshot env o' w
             = (Ok (mkResult (clock o' (tick w)) 0
                             (Some (pruned_counts (clock o' (tick w)) (db w)))),
                set_db (store_after_prepare env o' (clock o' (tick w)) (db w)) w1)).
  { intros o' w1 Hres.
    destruct (snapshot_cases env o' w) as (tokens & w1' & Hres' & Hcases).
    rewrite Hres in Hres'. injection Hres' as <- <-.
    destruct Hcases as [(_ & Hs) | [(Hne & _) | (Hne & _)]];
      [exact Hs | contradiction | contradiction]. }
  split; [ | exact Hgen].
  apply Hgen. unfold resolve_universe, try_catch.
  rewrite (loadVerifiedTokens_mkdir_fails env o _ (next w) Hdir). reflexivity.
Qed.

Lemma run_without_data_dir_witness :
  snapshot Scenario.env_online Edge.oracle_no_dir
           (Scenario.world Scenario.recent_cache Scenario.seed_bonk)
  = (Ok (mkResult Scenario.now 0 (Some (mkPruned 0 0))),
     mkWorld 2 Scenario.recent_cache Scenario.seed_bonk
             (Db.mkDB [] [] []
                [("last_snapshot_ts", "1700000000000");
                 ("rpc_url", "https://api.mainnet-beta.solana.com");
                 ("token_limit", "50")]) []).
Proof.
  refine (eq_trans
            (proj1 (run_without_data_dir Scenario.env_online Edge.oracle_no_dir
                      (Scenario.world Scenario.recent_cache Scenario.seed_bonk)
                      eq_refl)) _).
  vm_compute. reflexivity.
Defined.

Lemma slice0_nil {A} n : JS.slice0 n (@nil A) = [].
Proof. unfold JS.slice0. apply firstn_nil. Qed.

(** X10.  An empty list in the cache file is served like any other: in
    offline mode, or online while the file is younger than the TTL, the
    universe is empty whatever the seed file and the directory hold, and
    the run returns early with zero saved tokens. *)
Theorem empty_cache_empties_the_run
    (env : Env) (o : Oracle) (w : World) (stamp : option Z)
    (Hdir : mkdir_ok o (S (tick w)) = true)
    (Hcache : cacheFile w = CacheData stamp [])
    (Hmode : offline env = true \/
             clock o (S (S (tick w)))
             - match stamp with Some t => t | None => 0 end
             < Z.pos (JUP_TOKENS_CACHE_TTL_MS env)) :
  let epoch := clock o (tick w) in
  exists w1,
    resolve_universe env o (next w) = (Ok [], w1) /\
    snapshot env o w
    = (Ok (mkResult epoch 0 (Some (pruned_counts epoch (db w)))),
       set_db (store_after_prepare env o epoch (db w)) w1).
Proof.
  intros epoch.
  destruct (loadVerifiedTokens_returns env o (Pos.to_nat (TOKEN_LIMIT env))
              (next w) Hdir) as (l & w1 & Hload & Hres).
  assert (Hsoft : forall soft,
             soft = true \/
             clock o (S (S (tick w)))
             - match stamp with Some t => t | None => 0 end
             < Z.pos (JUP_TOKENS_CACHE_TTL_MS env) ->
             cache_read env o (Pos.to_nat (TOKEN_LIMIT env)) soft (next (next w))
             = Some []).
  { intros soft H. unfold cache_read. cbn [next cacheFile tick]. rewrite Hcache.
    cbv zeta. rewrite slice0_nil.
    destruct H as [-> | H]; [reflexivity | ].
    apply Z.ltb_lt in H. rewrite H, orb_true_r. reflexivity. }
  assert (Hl : l = []).
  { destruct Hres as [Hoff -> _ | Hoff Hread _
                     | tokens ws Hoff Hread _ _ _ _ _ | ws Hoff Hread _ _ _].
    - unfold fallback. rewrite (Hsoft true (or_introl eq_refl)). reflexivity.
    - destruct Hmode as [Hm | Hm]; [congruence | ].
      rewrite (Hsoft false (or_intror Hm)) in Hread. congruence.
    - destruct Hmode as [Hm | Hm]; [congruence | ].
      rewrite (Hsoft false (or_intror Hm)) in Hread. discriminate.
    - destruct Hmode as [Hm | Hm]; [congruence | ].
      rewrite (Hsoft false (or_intror Hm)) in Hread. discriminate. }
  subst l. exists w1.
  assert (Hu : resolve_universe env o (next w) = (Ok [], w1)).
  { unfold resolve_universe, try_catch. rewrite Hload. reflexivity. }
  split; [exact Hu | ].
  destruct (snapshot_cases env o w) as (tokens & w1' & Hres' & Hcases).
  rewrite Hu in Hres'. injection Hres' as <- <-.
  destruct Hcases as [(_ & Hs) | [(Hne & _) | (Hne & _)]];
      [exact Hs | contradiction | contradiction].
Qed.

Lemma empty_cache_empties_the_run_witness :
  fst (snapshot Scenario.env_offline (Scenario.oracle (Scenario.http_down None))
         (Scenario.world Edge.empty_cache Scenario.seed_bonk))
  = Ok (mkResult Scenario.now 0 (Some (mkPruned 0 0))).
Proof.
  destruct (empty_cache_empties_the_run Scenario.env_offline
              (Scenario.oracle (Scenario.http_down None))
              (Scenario.world Edge.empty_cache Scenario.seed_bonk)
              (Some (Scenario.now - 3000)) eq_refl eq_refl
              (or_introl eq_refl)) as (w1 & _ & ->).
  reflexivity.
Defined.

(** *** The limiter *)

(** What every reachable state of a limiter satisfies. *)
Lemma reachable_invariant c s tasks :
  Limit.reachable c s tasks ->
  NoDup tasks /\
  Limit.started s ++ Limit.queue s = tasks /\
  NoDup (Limit.settled s) /\
  incl (Limit.settled s) (Limit.started s) /\
  Limit.active s
  = Z.of_nat (List.length (Limit.started s))
    - Z.of_nat (List.length (Limit.settled s)) /\
  (0 <= c -> Limit.active s <= c) /\
  (Limit.queue s <> [] -> c <= Limit.active s).
Proof.
  induction 1 as [| s tasks id Hr IH Hnew | s tasks id Hr IH Hin Hnot].
  - cbn. repeat split; try constructor; try lia; try congruence.
  - destruct IH as (Hnd & Hsq & Hsn & Hincl & Hact & Hle & Hwork).
    assert (Hnd' : NoDup (tasks ++ [id])).
    { apply NoDup_app; [exact Hnd | constructor; [intros [] | constructor] | ].
      intros x Hx [<- | []]. exact (Hnew Hx). }
    split; [exact Hnd' | ].
    unfold Limit.submit. destruct (Limit.active s <? c) eqn:E.
    + apply Z.ltb_lt in E.
      assert (Hq : Limit.queue s = []).
      { destruct (Limit.queue s) eqn:Q; [reflexivity | ].
        assert (c <= Limit.active s) by (apply Hwork; discriminate). lia. }
      cbn. rewrite Hq in *. rewrite app_nil_r in *. subst tasks.
      split; [reflexivity | ]. split; [exact Hsn | ].
      split; [intros x Hx; apply in_or_app; left; apply Hincl, Hx | ].
      split; [rewrite length_app; cbn; lia | ].
      split; [lia | congruence].
    + apply Z.ltb_ge in E. cbn.
      split; [rewrite app_assoc, Hsq; reflexivity | ].
      split; [exact Hsn | ]. split; [exact Hincl | ]. split; [exact Hact | ].
      split; [exact Hle | intros _; exact E].
  - destruct IH as (Hnd & Hsq & Hsn & Hincl & Hact & Hle & Hwork).
    split; [exact Hnd | ].
    assert (Hsn' : NoDup (Limit.settled s ++ [id])).
    { apply NoDup_app; [exact Hsn | constructor; [intros [] | constructor] | ].
      intros x Hx [<- | []]. exact (Hnot Hx). }
    assert (Hcount : (S (List.length (Limit.settled s))
                      <= List.length (Limit.started s))%nat).
    { apply (NoDup_incl_length (l := id :: Limit.settled s)).
      - constructor; assumption.
      - intros x [<- | Hx]; [exact Hin | apply Hincl, Hx]. }
    assert (Hincl' : forall extra,
               incl (Limit.settled s ++ [id]) (Limit.started s ++ extra)).
    { intros extra x Hx. apply in_or_app. left. apply in_app_or in Hx.
      destruct Hx as [Hx | [<- | []]]; [apply Hincl, Hx | exact Hin]. }
    unfold Limit.settle, Limit.next. cbn [Limit.queue Limit.active
      Limit.started Limit.settled].
    destruct (Limit.queue s) as [| id' q] eqn:Q.
    + cbn. rewrite app_nil_r in *.
      split; [exact Hsq | ]. split; [exact Hsn' | ].
      split; [rewrite <- (app_nil_r (Limit.started s)); apply Hincl' | ].
      split; [rewrite length_app; cbn; lia | ].
      split; [lia | congruence].
    + cbn. split; [rewrite <- app_assoc; exact Hsq | ].
      split; [exact Hsn' | ]. split; [apply Hincl' | ].
      split; [rewrite !length_app; cbn; lia | ].
      assert (c <= Limit.active s) by (apply Hwork; discriminate).
      split; [intros Hc; specialize (Hle Hc); lia | intros _; lia].
Qed.

(** With no slot, nothing starts. *)
Lemma reachable_no_slot c s tasks :
  Limit.reachable c s tasks -> c <= 0 -> Limit.started s = [].
Proof.
  intros Hr Hc.
  induction Hr as [| s tasks id Hr IH Hnew | s tasks id Hr IH Hin Hnot].
  - reflexivity.
  - pose proof (reachable_invariant _ _ _ Hr)
      as (_ & _ & Hsn & Hincl & Hact & _).
    pose proof (NoDup_incl_length Hsn Hincl) as Hlen.
    unfold Limit.submit.
    destruct (Limit.active s <? c) eqn:E; [ | cbn; exact IH].
    apply Z.ltb_lt in E. lia.
  - rewrite IH in Hin. destruct Hin.
Qed.

(** X11.  In every state a program can drive a limiter into, the counter
    [active] is the number of tasks started and not yet settled; it is
    never negative and, for a non-negative [concurrency], never above it.
    Tasks start in the order of their submission, none is lost or started
    twice: the started tasks followed by the queue are the submitted
    ones.  A task waits in the queue only while [concurrency] tasks or
    more are running. *)
Theorem limiter_invariants
    (concurrency : Z) (s : Limit.State) (tasks : list nat)
    (Hreach : Limit.reachable concurrency s tasks) :
  Limit.started s ++ Limit.queue s = tasks /\
  NoDup (Limit.started s) /\
  incl (Limit.settled s) (Limit.started s) /\
  Limit.active s
  = Z.of_nat (List.length (Limit.started s))
    - Z.of_nat (List.length (Limit.settled s)) /\
  0 <= Limit.active s /\
  (0 <= concurrency -> Limit.active s <= concurrency) /\
  (Limit.queue s <> [] -> concurrency <= Limit.active s).
Proof.
  destruct (reachable_invariant _ _ _ Hreach)
    as (Hnd & Hsq & Hsn & Hincl & Hact & Hle & Hwork).
  split; [exact Hsq | ].
  split; [rewrite <- Hsq in Hnd; apply NoDup_app_remove_r in Hnd; exact Hnd | ].
  split; [exact Hincl | ]. split; [exact Hact | ].
  split; [ | split; assumption].
  pose proof (NoDup_incl_length Hsn Hincl). lia.
Qed.

Lemma limiter_reachable :
  Limit.reachable 2 Edge.limiter [0; 1; 2]%nat.
Proof.
  unfold Edge.limiter.
  apply Limit.Settled; [ | left; reflexivity | intros []].
  apply (Limit.Submitted 2 _ [0; 1]%nat 2%nat);
    [ | intros [H | [H | []]]; discriminate].
  apply (Limit.Submitted 2 _ [0]%nat 1%nat);
    [ | intros [H | []]; discriminate].
  apply (Limit.Submitted 2 _ [] 0%nat); [constructor | intros []].
Qed.

Lemma limiter_invariants_witness :
  Limit.started Edge.limiter ++ Limit.queue Edge.limiter = [0; 1; 2]%nat /\
  Limit.active Edge.limiter = 2.
Proof.
  pose proof (limiter_invariants 2 Edge.limiter [0; 1; 2]%nat limiter_reachable)
    as (H1 & _ & _ & H2 & _).
  split; [exact H1 | exact H2].
Defined.

(** X12.  With a positive [concurrency], once every started task has
    settled the queue is empty and every submitted task has been started:
    no task is left waiting.  With a [concurrency] of zero or less no task
    is ever started, so every submitted task waits forever. *)
Theorem limiter_drains
    (concurrency : Z) (s : Limit.State) (tasks : list nat)
    (Hreach : Limit.reachable concurrency s tasks) :
  (0 < concurrency ->
   List.length (Limit.settled s) = List.length (Limit.started s) ->
   Limit.queue s = [] /\ Limit.started s = tasks /\ Limit.active s = 0)
  /\ (concurrency <= 0 ->
      Limit.started s = [] /\ Limit.queue s = tasks /\ Limit.active s = 0).
Proof.
  destruct (reachable_invariant _ _ _ Hreach)
    as (Hnd & Hsq & Hsn & Hincl & Hact & Hle & Hwork).
  split.
  - intros Hc Hall. rewrite Hall in Hact.
    assert (Hq : Limit.queue s = []).
    { destruct (Limit.queue s) eqn:Q; [reflexivity | ].
      assert (concurrency <= Limit.active s) by (apply Hwork; discriminate).
      lia. }
    rewrite Hq, app_nil_r in Hsq. repeat split; [exact Hq | exact Hsq | lia].
  - intros Hc. pose proof (reachable_no_slot _ _ _ Hreach Hc) as Hs.
    rewrite Hs in *. cbn in Hsq.
    destruct (Limit.settled s) as [| x l] eqn:S0;
      [ | exfalso; apply (Hincl x); left; reflexivity].
    repeat split; [exact Hsq | cbn in Hact; lia].
Qed.

Lemma limiter_drains_witness :
  Limit.started (Limit.submit 0 7 Limit.init) = [] /\
  Limit.queue (Limit.submit 0 7 Limit.init) = [7%nat].
Proof.
  assert (Hr : Limit.reachable 0 (Limit.submit 0 7 Limit.init) ([] ++ [7%nat])).
  { apply Limit.Submitted; [constructor | intros []]. }
  pose proof (proj2 (limiter_drains 0 _ _ Hr) ltac:(lia)) as (H1 & H2 & _).
  split; [exact H1 | exact H2].
Defined.

(** *** The fetch, case by case *)

(** The loop entered at attempt [j], the earlier attempts having been
    retried, ends in one of three ways. *)
Lemma fetch_loop_outcome o req maxDelayMs w :
  forall k j lastErr,
    (forall m, (m < j)%nat -> retriable_failure (attempt o req (tick w) m)) ->
    let run := fetch_loop o req maxDelayMs k j lastErr
                 (after_retries o maxDelayMs j w) in
    (exists i data,
        (j <= i < j + k)%nat /\
        (forall m, (m < i)%nat -> retriable_failure (attempt o req (tick w) m)) /\
        attempt o req (tick w) i = Response data /\
        run = (Ok data, next (after_retries o maxDelayMs i w)))
    \/ (exists i e,
          (j <= i < j + k)%nat /\
          (forall m, (m < i)%nat -> retriable_failure (attempt o req (tick w) m)) /\
          attempt o req (tick w) i = Failure e /\
          retriable (status_of e) = false /\
          run = (Throw e, next (after_retries o maxDelayMs i w)))
    \/ ((forall m, (m < j + k)%nat ->
                   retriable_failure (attempt o req (tick w) m)) /\
        exists e,
          run = (Throw e, after_retries o maxDelayMs (j + k) w) /\
          ((k = 0%nat /\
            e = match lastErr with Some e' => e' | None => ThrownUndefined end)
           \/ ((0 < k)%nat /\
               attempt o req (tick w) (j + k - 1) = Failure e))).
Proof.
  induction k as [| k IH]; intros j lastErr Hfail run; subst run.
  - right. right. rewrite Nat.add_0_r. split; [exact Hfail | ].
    eexists. split; [reflexivity | left; split; reflexivity].
  - destruct (attempt o req (tick w) j) as [data | e] eqn:Hatt.
    + left. exists j, data. split; [lia | ]. split; [exact Hfail | ].
      split; [exact Hatt | ].
      cbn [fetch_loop]. unfold try_catch, axios_get.
      unfold attempt in Hatt. cbn [tick after_retries]. rewrite Hatt.
      reflexivity.
    + destruct (retriable (status_of e)) eqn:Hret.
      * rewrite (fetch_loop_retry _ _ _ _ _ _ _ _ Hatt Hret).
        assert (Hfail' : forall m, (m < S j)%nat ->
                           retriable_failure (attempt o req (tick w) m)).
        { intros m Hm. destruct (Nat.eq_dec m j) as [-> | Hne].
          - exists e. split; assumption.
          - apply Hfail. lia. }
        destruct (IH (S j) (Some e) Hfail')
          as [(i & data & Hi & Hr & Ha & Hrun)
             | [(i & e' & Hi & Hr & Ha & Hn & Hrun)
               | (Hall & e' & Hrun & Hlast)]].
        -- left. exists i, data. repeat split; try assumption; lia.
        -- right. left. exists i, e'. repeat split; try assumption; lia.
        -- right. right.
           replace (j + S k)%nat with (S j + k)%nat by lia.
           split; [exact Hall | ]. exists e'. split; [exact Hrun | ].
           right. split; [lia | ].
           destruct Hlast as [(-> & ->) | (Hk & Ha)].
           ++ replace (S j + 0 - 1)%nat with j by lia. exact Hatt.
           ++ exact Ha.
      * right. left. exists j, e. split; [lia | ]. split; [exact Hfail | ].
        split; [exact Hatt | ]. split; [exact Hret | ].
        cbn [fetch_loop]. unfold try_catch, axios_get.
        unfold attempt in Hatt. cbn [tick after_retries]. rewrite Hatt, Hret.
        reflexivity.
Qed.

(** What the worlds a fetch of [n] attempts can end in have spent. *)
Lemma after_retries_spent o maxDelayMs n w j w' :
  (j <= n)%nat ->
  w' = after_retries o maxDelayMs j w \/
  ((j < n)%nat /\ w' = next (after_retries o maxDelayMs j w)) ->
  (tick w' <= tick w + 2 * n)%nat /\
  (exists delays,
      slept w' = slept w ++ delays /\ (List.length delays <= n)%nat) /\
  quiet w w'.
Proof.
  intros Hj [-> | (Hlt & ->)]; cbn [tick slept next after_retries].
  - split; [lia | ]. split; [ | repeat split].
    eexists. split; [reflexivity | ]. rewrite length_map, length_seq. exact Hj.
  - split; [lia | ]. split; [ | repeat split].
    eexists. split; [reflexivity | ]. rewrite length_map, length_seq. exact Hj.
Qed.

(** The four outcomes of the fetch. *)
Lemma fetch_cases o req n maxDelayMs w :
  let run := fetchJsonWithBackoff o req n maxDelayMs w in
  let retried j :=
    forall m, (m < j)%nat -> retriable_failure (attempt o req (tick w) m) in
  (n = 0%nat /\ run = (Throw ThrownUndefined, w))
  \/ (exists j data,
        (j < n)%nat /\ retried j /\
        attempt o req (tick w) j = Response data /\
        run = (Ok data, next (after_retries o maxDelayMs j w)))
  \/ (exists j e,
        (j < n)%nat /\ retried j /\
        attempt o req (tick w) j = Failure e /\
        retriable (status_of e) = false /\
        run = (Throw e, next (after_retries o maxDelayMs j w)))
  \/ (exists e,
        (0 < n)%nat /\ retried n /\
        attempt o req (tick w) (n - 1) = Failure e /\
        run = (Throw e, after_retries o maxDelayMs n w)).
Proof.
  intros run retried. subst run retried. unfold fetchJsonWithBackoff.
  assert (H0 : forall m, (m < 0)%nat ->
                 retriable_failure (attempt o req (tick w) m)) by (intros; lia).
  pose proof (fetch_loop_outcome o req maxDelayMs w n 0 None H0) as Hout.
  cbv zeta in Hout. rewrite after_retries_0 in Hout. cbn [Nat.add] in Hout.
  destruct Hout as [(i & data & Hi & Hr & Ha & Hrun)
                   | [(i & e & Hi & Hr & Ha & Hn & Hrun)
                     | (Hall & e & Hrun & Hlast)]].
  - right. left. exists i, data. repeat split; try assumption; lia.
  - right. right. left. exists i, e. repeat split; try assumption; lia.
  - destruct Hlast as [(-> & ->) | (Hk & Ha)].
    + left. rewrite after_retries_0 in Hrun. split; [reflexivity | exact Hrun].
    + right. right. right. exists e. repeat split; assumption.
Qed.

(** X13.  The outcomes of [fetchJsonWithBackoff(url, headers, n, _)] are
    exhausted by four cases.  With [n = 0] it throws [undefined] without a
    request.  Otherwise some attempt [j < n] is the first that does not
    fail retriably, and the call ends there, with the body of that attempt
    or with its error; or all [n] attempts fail retriably and the error of
    the last is thrown after [n] delays.  In every case at most [n]
    requests are made and at most [n] delays slept. *)
Theorem fetch_outcomes
    (o : Oracle) (req : Request) (n : nat) (maxDelayMs : Z) (w : World) :
  let run := fetchJsonWithBackoff o req n maxDelayMs w in
  let retried j :=
    forall m, (m < j)%nat -> retriable_failure (attempt o req (tick w) m) in
  ((n = 0%nat /\ run = (Throw ThrownUndefined, w))
   \/ (exists j data,
         (j < n)%nat /\ retried j /\
         attempt o req (tick w) j = Response data /\
         run = (Ok data, next (after_retries o maxDelayMs j w)))
   \/ (exists j e,
         (j < n)%nat /\ retried j /\
         attempt o req (tick w) j = Failure e /\
         retriable (status_of e) = false /\
         run = (Throw e, next (after_retries o maxDelayMs j w)))
   \/ (exists e,
         (0 < n)%nat /\ retried n /\
         attempt o req (tick w) (n - 1) = Failure e /\
         run = (Throw e, after_retries o maxDelayMs n w)))
  /\ (tick (snd run) <= tick w + 2 * n)%nat
  /\ (exists delays,
        slept (snd run) = slept w ++ delays /\ (List.length delays <= n)%nat)
  /\ quiet w (snd run).
Proof.
  intros run retried.
  pose proof (fetch_cases o req n maxDelayMs w) as Hcases.
  fold run in Hcases. cbv zeta in Hcases. split; [exact Hcases | ].
  destruct Hcases as [(Hn & Hrun)
                     | [(j & data & Hj & _ & _ & Hrun)
                       | [(j & e & Hj & _ & _ & _ & Hrun)
                         | (e & Hn & _ & _ & Hrun)]]];
    rewrite Hrun; cbn [snd].
  - apply (after_retries_spent o maxDelayMs n w 0); [lia | left].
    symmetry. apply after_retries_0.
  - apply (after_retries_spent o maxDelayMs n w j); [lia | right].
    split; [exact Hj | reflexivity].
  - apply (after_retries_spent o maxDelayMs n w j); [lia | right].
    split; [exact Hj | reflexivity].
  - apply (after_retries_spent o maxDelayMs n w n); [lia | left; reflexivity].
Qed.

(** The body of the first attempt that does not fail retriably. *)
Lemma fetch_first_answer o req n maxDelayMs w j data :
  (j < n)%nat ->
  (forall m, (m < j)%nat -> retriable_failure (attempt o req (tick w) m)) ->
  attempt o req (tick w) j = Response data ->
  fetchJsonWithBackoff o req n maxDelayMs w
  = (Ok data, next (after_retries o maxDelayMs j w)).
Proof.
  intros Hj Hfail Hatt. unfold fetchJsonWithBackoff.
  replace n with (j + S (n - S j))%nat at 1 by lia.
  rewrite fetch_loop_retries by exact Hfail.
  cbn [fetch_loop]. unfold try_catch, axios_get.
  unfold attempt in Hatt. cbn [tick after_retries]. rewrite Hatt.
  reflexivity.
Qed.


(** *** The command *)

(** X15.  The [snapshot] command closes the database whatever happens and
    leaves the store as the run left it.  It sets the exit code to 1
    exactly when the run throws: for a universe that is not empty, when
    the RPC client cannot be made, or when the snapshot rows of the batch
    cannot all be inserted (two share a mint, or one has the epoch and
    mint of a stored row).  Otherwise, and always on an empty universe,
    the exit code is left unset. *)
Theorem command_exit_code (env : Env) (o : Oracle) (w : World) :
  let epoch := clock o (tick w) in
  let prepared := store_after_prepare env o epoch (db w) in
  let p := fst (Cli.action env o w) in
  Cli.closed p = true /\
  snd (Cli.action env o w) = snd (snapshot env o w) /\
  (Cli.exitCode p = Some 1 <-> exists e, fst (snapshot env o w) = Throw e) /\
  (Cli.exitCode p = None <-> exists res, fst (snapshot env o w) = Ok res) /\
  exists tokens w1,
    resolve_universe env o (next w) = (Ok tokens, w1) /\
    match tokens with
    | [] => Cli.exitCode p = None
    | _ :: _ =>
        if endpoint_ok o (RPC_URL env)
        then
          exists b w2,
            collect env o epoch tokens (set_db prepared w1) = (Ok b, w2) /\
            let compatible :=
              NoDup (map snapshot_key (rows b)) /\
              (forall k, In k (map snapshot_key (rows b)) ->
                         ~ In k (map snapshot_key (Db.snapshots prepared))) in
            (compatible -> Cli.exitCode p = None)
            /\ (~ compatible -> Cli.exitCode p = Some 1)
        else Cli.exitCode p = Some 1
    end.
Proof.
  intros epoch prepared p. subst p.
  assert (Hexit : forall r w',
            snapshot env o w = (r, w') ->
            Cli.exitCode (fst (Cli.action env o w))
            = match r with Ok _ => None | Throw _ => Some 1 end).
  { intros r w' H. unfold Cli.action. rewrite H. destruct r; reflexivity. }
  split; [unfold Cli.action; destruct (snapshot env o w) as [[res | e] w'];
          reflexivity | ].
  split; [unfold Cli.action; destruct (snapshot env o w) as [[res | e] w'];
          reflexivity | ].
  split; [ | split].
  - rewrite (Hexit _ _ (surjective_pairing _)).
    destruct (fst (snapshot env o w)) as [res | e].
    + split; [discriminate | intros (e & [=])].
    + split; [intros _; exists e; reflexivity | reflexivity].
  - rewrite (Hexit _ _ (surjective_pairing _)).
    destruct (fst (snapshot env o w)) as [res | e].
    + split; [intros _; exists res; reflexivity | reflexivity].
    + split; [discriminate | intros (res & [=])].
  - destruct (snapshot_cases env o w) as (tokens & w1 & Hres & Hcases).
    fold epoch in Hcases. fold prepared in Hcases.
    exists tokens, w1. split; [exact Hres | ].
    destruct Hcases as [(-> & Hs) | [(Hne & Hendpoint & Hs)
                                    | (Hne & Hendpoint & b & w2 & Hc & Hdb & Hs)]].
    + rewrite (Hexit _ _ Hs). reflexivity.
    + destruct tokens; [contradiction | ]. rewrite Hendpoint.
      rewrite (Hexit _ _ Hs). reflexivity.
    + destruct tokens; [contradiction | ]. rewrite Hendpoint.
      exists b, w2. split; [exact Hc | ]. cbv zeta.
      destruct (insertSnapshots_decided
                  (Db.upsertTokens prepared (tokenRows b)) (rows b))
        as [(Hcomp & Hins) | (Hcomp & Hins)]; cbv zeta in Hcomp;
        rewrite Hins in Hs; rewrite (Hexit _ _ Hs).
      * split; [reflexivity | intros H; contradiction].
      * split; [intros H; contradiction | reflexivity].
Qed.

(** *** What a run can add *)

Lemma onchain_fanout_length o ts tokens :
  forall acc w acc' w',
    for_each (onchain_unit o ts) tokens acc w = (Ok acc', w') ->
    (List.length (fst acc') <= List.length (fst acc) + List.length tokens)%nat.
Proof.
  induction tokens as [| t tokens IH]; intros acc w acc' w' H; cbn in H.
  - injection H as <- _. lia.
  - destruct (onchain_unit_spec o ts t acc w) as (w1 & Hu & _).
    erewrite bind_ok in H by exact Hu. apply IH in H.
    destruct (lookup o (tick w) (address t)); cbn [fst] in H;
      [rewrite length_app in H; cbn in H | ]; cbn [List.length]; lia.
Qed.

Lemma quote_units_length env o ts l :
  forall acc w acc' w',
    for_each (quote_unit env o ts) l acc w = (Ok acc', w') ->
    (List.length (fst acc') <= List.length (fst acc) + List.length l)%nat.
Proof.
  induction l as [| t l IH]; intros acc w acc' w' H; cbn in H.
  - injection H as <- _. lia.
  - pose proof (quote_unit_spec env o ts t acc w) as Hu. unfold wp in Hu.
    destruct (quote_unit env o ts t acc w) as [[acc1 | e] w1] eqn:E;
      cbn [fst snd returning] in Hu; [ | contradiction].
    erewrite bind_ok in H by exact E. apply IH in H.
    destruct Hu as (_ & m & _ & [(_ & Hf) | (s & mid & _ & _ & Hf)]);
      rewrite Hf in H; [ | rewrite length_app in H; cbn in H];
      cbn [List.length]; lia.
Qed.

Lemma toQuote_length env tokens :
  (List.length (toQuote env tokens)
   <= Nat.min (Pos.to_nat (QUOTE_MAX_TOKENS env)) (List.length tokens))%nat.
Proof. apply slice0_length. Qed.

Lemma replace_price_length t r :
  (List.length (Db.replace_price t r) <= S (List.length t))%nat.
Proof.
  unfold Db.replace_price. rewrite length_app. cbn.
  pose proof (filter_length_le (fun x => negb (Db.same_price_key x r)) t). lia.
Qed.

Lemma insert_prices_length prs :
  forall t, (List.length (fold_left Db.replace_price prs t)
             <= List.length t + List.length prs)%nat.
Proof.
  induction prs as [| p prs IH]; intros t; cbn; [lia | ].
  specialize (IH (Db.replace_price t p)).
  pose proof (replace_price_length t p). lia.
Qed.

Lemma upsert_token_length r t :
  (List.length (Db.upsert_token r t) <= S (List.length t))%nat.
Proof.
  induction t as [| x t IH]; cbn; [lia | ].
  destruct (Db.d_mint x =? Db.d_mint r)%string; cbn; lia.
Qed.

Lemma upsert_tokens_length trs :
  forall t, (List.length (fold_left (fun t r => Db.upsert_token r t) trs t)
             <= List.length t + List.length trs)%nat.
Proof.
  induction trs as [| r trs IH]; intros t; cbn; [lia | ].
  specialize (IH (Db.upsert_token r t)).
  pose proof (upsert_token_length r t). lia.
Qed.

(** The sizes of the batch a run collects from a universe. *)
Lemma collect_sizes env o ts tokens w b w' :
  collect env o ts tokens w = (Ok b, w') ->
  List.length (tokenRows b) = List.length (rows b) /\
  (List.length (rows b) <= List.length tokens)%nat /\
  (List.length (priceRows b)
   <= S (Nat.min (Pos.to_nat (QUOTE_MAX_TOKENS env)) (List.length tokens)))%nat.
Proof.
  intros H.
  destruct (collect_returns _ _ _ _ _ _ _ H)
    as (_ & r & q & w1 & Hr & Hq & -> & _ & Hrows & _).
  cbn [tokenRows rows priceRows].
  rewrite merge_metrics_length.
  split; [symmetry; eapply Forall2_length; exact Hrows | ].
  split.
  - apply onchain_fanout_length in Hr. cbn in Hr. exact Hr.
  - rewrite length_app. cbn [List.length]. unfold quote_phase in Hq.
    destruct (negb (offline env) && quotesEnabled env).
    + apply quote_units_length in Hq. cbn [fst List.length] in Hq.
      pose proof (toQuote_length env tokens). lia.
    + injection Hq as <- _. cbn. lia.
Qed.

(** X16.  The rows of a run that returns are accounted for.  It saves at
    most [TOKEN_LIMIT] tokens; the snapshots table then holds the rows it
    held before, minus the pruned ones, plus the saved ones; the prices
    table grows by at most one row per quoted token, of which there are at
    most [QUOTE_MAX_TOKENS] and at most [TOKEN_LIMIT], plus the row of the
    base asset; the directory grows by at most the saved tokens. *)
Theorem run_growth_is_bounded
    (env : Env) (o : Oracle) (w w' : World) (res : SnapshotResult)
    (Hrun : snapshot env o w = (Ok res, w')) :
  let pruned := pruned_counts (clock o (tick w)) (db w) in
  0 <= savedTokens res <= Z.pos (TOKEN_LIMIT env) /\
  Z.of_nat (List.length (Db.snapshots (db w')))
  = Z.of_nat (List.length (Db.snapshots (db w)))
    - pruned_snapshots pruned + savedTokens res /\
  Z.of_nat (List.length (Db.prices (db w')))
  <= Z.of_nat (List.length (Db.prices (db w))) - pruned_prices pruned
     + Z.min (Z.pos (QUOTE_MAX_TOKENS env)) (Z.pos (TOKEN_LIMIT env)) + 1 /\
  Z.of_nat (List.length (Db.tokens (db w')))
  <= Z.of_nat (List.length (Db.tokens (db w))) + savedTokens res.
Proof.
  intros pruned.
  set (epoch := clock o (tick w)) in *.
  set (prepared := store_after_prepare env o epoch (db w)).
  assert (Hs : Z.of_nat (List.length (Db.snapshots prepared))
               = Z.of_nat (List.length (Db.snapshots (db w)))
                 - pruned_snapshots pruned).
  { subst pruned prepared. unfold pruned_counts, Db.countRows.
    cbn [pruned_snapshots]. rewrite (proj1 (store_after_prepare_tables _ _ _ _)).
    lia. }
  assert (Hp : Z.of_nat (List.length (Db.prices prepared))
               = Z.of_nat (List.length (Db.prices (db w)))
                 - pruned_prices pruned).
  { subst pruned prepared. unfold pruned_counts, Db.countRows.
    cbn [pruned_prices]. rewrite (proj2 (store_after_prepare_tables _ _ _ _)).
    lia. }
  assert (Ht : Db.tokens prepared = Db.tokens (db w)) by reflexivity.
  destruct (snapshot_cases env o w) as (tokens & w1 & Hres & Hcases).
  fold epoch in Hcases. fold prepared in Hcases.
  assert (Hlimit : (List.length tokens <= Pos.to_nat (TOKEN_LIMIT env))%nat).
  { unfold resolve_universe, try_catch in Hres.
    pose proof (loadVerifiedTokens_spec env o (Pos.to_nat (TOKEN_LIMIT env))
                  (next w)) as Hload.
    destruct (mkdir_ok o (tick (next w))).
    - destruct Hload as (l & wl & Hl & Hr). rewrite Hl in Hres.
      injection Hres as <- _. eapply resolved_length; exact Hr.
    - rewrite Hload in Hres. injection Hres as <- _. cbn. lia. }
  clearbody prepared.
  destruct Hcases as [(-> & Hsnap) | [(Hne & _ & Hsnap)
                                     | (Hne & _ & b & w2 & Hc & Hdb & Hsnap)]];
    rewrite Hsnap in Hrun; [ | discriminate | ].
  - injection Hrun as <- <-. cbn [savedTokens db set_db].
    rewrite Hs, Hp, Ht. lia.
  - destruct (insertSnapshots_decided (Db.upsertTokens prepared (tokenRows b))
                (rows b)) as [(_ & Hins) | (_ & Hins)];
      rewrite Hins in Hrun; [ | discriminate].
    injection Hrun as <- <-.
    destruct (collect_sizes _ _ _ _ _ _ _ Hc) as (Htr & Hrows & Hprices).
    cbn [savedTokens db set_db with_prices Db.snapshots Db.prices
         Db.tokens Db.upsertTokens].
    rewrite length_app, length_map.
    pose proof (insert_prices_length (priceRows b) (Db.prices prepared)).
    pose proof (upsert_tokens_length (tokenRows b) (Db.tokens prepared)).
    rewrite Ht in *. lia.
Qed.

(** The history scenario: one row pruned and one saved in either table. *)
Lemma run_growth_is_bounded_witness :
  exists res w',
    snapshot Scenario.env_plain (Scenario.oracle (Scenario.http_down None))
      Scenario.world_with_history = (Ok res, w')
    /\ savedTokens res <= 50
    /\ List.length (Db.snapshots (db w')) = 2%nat.
Proof.
  assert (Hrun : snapshot Scenario.env_plain
                   (Scenario.oracle (Scenario.http_down None))
                   Scenario.world_with_history
                 = (Ok (mkResult Scenario.now 1 (Some (mkPruned 1 1))),
                    snd (snapshot Scenario.env_plain
                           (Scenario.oracle (Scenario.http_down None))
                           Scenario.world_with_history)))
    by (vm_compute; reflexivity).
  pose proof (run_growth_is_bounded _ _ _ _ _ Hrun) as (Hsaved & Hsnaps & _).
  eexists _, _. split; [exact Hrun | ]. split; [apply Hsaved | ].
  apply Nat2Z.inj. rewrite Hsnaps. vm_compute. reflexivity.
Defined.

(** *** What a batch holds *)

(** Every row the on-chain fan-out leaves is the row of a token of the
    universe whose lookup succeeded. *)
Lemma onchain_rows_shape o ts tokens w r w1 :
  for_each (onchain_unit o ts) tokens ([], []) w = (Ok r, w1) ->
  Forall (fun x => exists t mintInfo,
                     In t tokens /\ x = snapshot_row ts t mintInfo) (fst r).
Proof.
  intros H.
  pose proof (for_each_invariant (onchain_unit o ts) tokens
                (fun acc _ =>
                   Forall (fun x => exists t mintInfo,
                             In t tokens /\ x = snapshot_row ts t mintInfo)
                          (fst acc))) as Hinv.
  assert (Hstep : forall t acc w0,
             In t tokens ->
             Forall (fun x => exists t mintInfo,
                       In t tokens /\ x = snapshot_row ts t mintInfo) (fst acc) ->
             wp (onchain_unit o ts t acc)
                (returning (fun acc' _ =>
                   Forall (fun x => exists t mintInfo,
                             In t tokens /\ x = snapshot_row ts t mintInfo)
                          (fst acc'))) w0).
  { intros t acc w0 Hin Hacc.
    destruct (onchain_unit_spec o ts t acc w0) as (w' & Hu & _).
    unfold wp. rewrite Hu. cbn [fst snd returning].
    destruct (lookup o (tick w0) (address t)) as [mi | ]; [ | exact Hacc].
    cbn [fst]. apply Forall_app. split; [exact Hacc | ].
    constructor; [ | constructor]. exists t, mi. split; [exact Hin | reflexivity]. }
  specialize (Hinv Hstep ([], []) w (Forall_nil _)).
  unfold wp in Hinv. rewrite H in Hinv. exact Hinv.
Qed.

(** The bindings of the metrics map after the quote fan-out: each is of a
    quoted token, and one with a spread has its price row. *)
Lemma quote_metrics_bound env o ts tokens w q w' :
  quote_phase env o ts tokens w = (Ok q, w') ->
  forall k m,
    metrics_get k (snd q) = Some m ->
    (exists t, In t (toQuote env tokens) /\ address t = k) /\
    (forall s, m_spread_pct m = Some s ->
               exists p, In p (fst q) /\ Db.p_mint p = k /\ Db.p_ts p = ts).
Proof.
  unfold quote_phase.
  destruct (negb (offline env) && quotesEnabled env);
    [ | intros [= <- _] k m; discriminate].
  intros H.
  set (J := fun (acc : Quotes) (_ : World) =>
              forall k m,
                metrics_get k (snd acc) = Some m ->
                (exists t, In t (toQuote env tokens) /\ address t = k) /\
                (forall s, m_spread_pct m = Some s ->
                           exists p, In p (fst acc) /\ Db.p_mint p = k
                                     /\ Db.p_ts p = ts)).
  assert (Hstep : forall t acc w0,
             In t (toQuote env tokens) -> J acc w0 ->
             wp (quote_unit env o ts t acc) (returning J) w0).
  { intros t acc w0 Hin Hacc.
    eapply wp_mono; [apply quote_unit_spec | ].
    intros [acc' | e] w1 Hq; cbn in Hq; [ | contradiction].
    destruct Hq as (_ & m0 & Hmap & Hrows). cbn [returning].
    intros k m Hget. rewrite Hmap in Hget. cbn [metrics_set metrics_get] in Hget.
    destruct (String.eqb_spec (address t) k) as [<- | Hne].
    - injection Hget as <-. split; [exists t; split; [exact Hin | reflexivity] | ].
      intros s Hs.
      destruct Hrows as [(Hnone & _) | (s' & mid & _ & _ & ->)]; [congruence | ].
      exists (Db.mkPrice ts (address t) mid).
      split; [apply in_or_app; right; left; reflexivity | split; reflexivity].
    - destruct (Hacc k m Hget) as (Hk & Hsp). split; [exact Hk | ].
      intros s Hs. destruct (Hsp s Hs) as (p & Hp & Hpm & Hpt).
      exists p. split; [ | split; assumption].
      destruct Hrows as [(_ & ->) | (s' & mid & _ & _ & ->)];
        [exact Hp | apply in_or_app; left; exact Hp]. }
  pose proof (for_each_invariant (quote_unit env o ts) (toQuote env tokens) J
                Hstep ([], []) w) as Hinv.
  assert (H0 : J ([], []) w) by (intros k m; discriminate).
  specialize (Hinv H0). unfold wp in Hinv. rewrite H in Hinv. exact Hinv.
Qed.

(** The batch collected from a universe, piece by piece. *)
Lemma collect_shape env o ts tokens w b w' :
  collect env o ts tokens w = (Ok b, w') ->
  exists raw prs metricsMap,
    rows b = merge_metrics metricsMap raw /\
    priceRows b = prs ++ [base_price env ts] /\
    Forall (fun x => exists t mintInfo,
                       In t tokens /\ x = snapshot_row ts t mintInfo) raw /\
    Forall (quoted_price ts (toQuote env tokens)) prs /\
    (forall k m,
        metrics_get k metricsMap = Some m ->
        (exists t, In t (toQuote env tokens) /\ address t = k) /\
        (forall s, m_spread_pct m = Some s ->
                   exists p, In p prs /\ Db.p_mint p = k /\ Db.p_ts p = ts)) /\
    (negb (offline env) && quotesEnabled env = false ->
     prs = [] /\ metricsMap = []).
Proof.
  intros H.
  destruct (collect_returns _ _ _ _ _ _ _ H)
    as (_ & r & q & w1 & Hr & Hq & -> & _ & _ & Hprices & Hoff).
  exists (fst r), (fst q), (snd q). cbn [rows priceRows].
  split; [reflexivity | ]. split; [reflexivity | ].
  split; [eapply onchain_rows_shape; exact Hr | ].
  split; [exact Hprices | ].
  split; [eapply quote_metrics_bound; exact Hq | ].
  intros Hmode. rewrite (Hoff Hmode). split; reflexivity.
Qed.

(** A merged row is a row of the fan-out, with the metrics bound to its
    mint applied. *)
Lemma merge_metrics_In metricsMap raw r :
  In r (merge_metrics metricsMap raw) ->
  exists r0, In r0 raw /\
             (r = r0 \/ r = apply_metrics metricsMap r0).
Proof.
  unfold merge_metrics. destruct metricsMap as [| kv mm].
  - intros H. exists r. split; [exact H | left; reflexivity].
  - intros H. apply in_map_iff in H. destruct H as (r0 & <- & Hin).
    exists r0. split; [exact Hin | right; reflexivity].
Qed.

(** X17.  The fields no step fills are stored as the same constants in
    every snapshot row of a batch, and the two metrics are set only on
    rows of quoted tokens: a row of the base asset, or of a token beyond
    the quote cut, keeps both null.  Offline or with quotes disabled no
    row has a metric and the only price row is the one of the base
    asset. *)
Theorem rows_carry_placeholders
    (env : Env) (o : Oracle) (ts : Z) (tokens : list TokenRow)
    (w w' : World) (b : Batch)
    (Hrun : collect env o ts tokens w = (Ok b, w')) :
  Forall (fun r =>
            Db.token2022_danger r = 0 /\ Db.lp_verified r = 1 /\
            Db.tvl_usd r = None /\ Db.top10_pct r = None /\
            Db.flags_json r = None /\
            Db.r_1m r = Some 0%float /\ Db.r_5m r = Some 0%float /\
            Db.r_15m r = Some 0%float /\ Db.volume_5m r = Some 0%float /\
            Db.unique_buyers_5m r = 0 /\ Db.net_buy_usd_5m r = Some 0%float)
         (rows b)
  /\ (forall r,
        In r (rows b) ->
        Db.impact_1k_pct r <> None \/ Db.spread_pct r <> None ->
        Db.s_mint r <> USDC_MINT env /\
        exists t, In t (toQuote env tokens) /\ address t = Db.s_mint r)
  /\ (negb (offline env) && quotesEnabled env = false ->
      Forall (fun r => Db.impact_1k_pct r = None /\ Db.spread_pct r = None)
             (rows b)
      /\ priceRows b = [base_price env ts]).
Proof.
  destruct (collect_shape _ _ _ _ _ _ _ Hrun)
    as (raw & prs & mm & Hrows & Hprs & Hraw & _ & Hkeys & Hoff).
  rewrite Forall_forall in Hraw.
  assert (Hcase : forall r, In r (rows b) ->
            exists t mi, In t tokens /\
              (r = snapshot_row ts t mi \/
               (exists m, metrics_get (address t) mm = Some m /\
                          r = apply_metrics mm (snapshot_row ts t mi)))).
  { intros r Hin. rewrite Hrows in Hin. apply merge_metrics_In in Hin.
    destruct Hin as (r0 & Hin0 & Hr).
    destruct (Hraw r0 Hin0) as (t & mi & Ht & ->). exists t, mi.
    split; [exact Ht | ]. destruct Hr as [-> | ->]; [left; reflexivity | ].
    unfold apply_metrics. cbn [Db.s_mint snapshot_row].
    destruct (metrics_get (address t) mm) as [m | ] eqn:E;
      [right; exists m; split; reflexivity | left; reflexivity]. }
  split; [ | split].
  - apply Forall_forall. intros r Hin.
    destruct (Hcase r Hin) as (t & mi & _ & [-> | (m & Hm & ->)]).
    + repeat split.
    + unfold apply_metrics. cbn [Db.s_mint snapshot_row]. rewrite Hm.
      repeat split.
  - intros r Hin Hset.
    destruct (Hcase r Hin) as (t & mi & _ & [-> | (m & Hm & ->)]).
    + cbn in Hset. destruct Hset as [H | H]; contradiction.
    + destruct (Hkeys _ _ Hm) as ((t' & Ht' & Ha) & _).
      unfold apply_metrics. cbn [Db.s_mint snapshot_row]. rewrite Hm.
      cbn [Db.s_mint]. split.
      * rewrite <- Ha. apply (toQuote_In _ _ _ Ht').
      * exists t'. split; assumption.
  - intros Hmode. destruct (Hoff Hmode) as (-> & ->).
    split; [ | exact Hprs].
    apply Forall_forall. intros r Hin.
    destruct (Hcase r Hin) as (t & mi & _ & [-> | (m & Hm & _)]);
      [split; reflexivity | discriminate].
Qed.

Lemma rows_carry_placeholders_witness :
  exists b w',
    collect Scenario.env_online (Scenario.oracle (Scenario.http_quotes "2000000"))
            Scenario.now [Scenario.base_token; Scenario.bonk_token]
            (Scenario.world CacheMissing SeedMissing) = (Ok b, w')
    /\ Forall (fun r => Db.lp_verified r = 1) (rows b).
Proof.
  destruct (collect Scenario.env_online
              (Scenario.oracle (Scenario.http_quotes "2000000"))
              Scenario.now [Scenario.base_token; Scenario.bonk_token]
              (Scenario.world CacheMissing SeedMissing))
    as [[b | e] w'] eqn:Hrun; [ | vm_compute in Hrun; discriminate].
  exists b, w'. split; [reflexivity | ].
  pose proof (rows_carry_placeholders _ _ _ _ _ _ _ Hrun) as (H & _).
  eapply Forall_impl; [ | exact H]. intros r Hr. apply Hr.
Defined.

(** X18.  A snapshot row of a batch that carries a spread has a price
    row in the same batch, for the same mint and epoch, whose price is
    finite and strictly positive; and every price row of a batch is
    stamped with the epoch and priced so, the last being the base asset
    at exactly 1. *)
Theorem spread_comes_with_a_price
    (env : Env) (o : Oracle) (ts : Z) (tokens : list TokenRow)
    (w w' : World) (b : Batch)
    (Hrun : collect env o ts tokens w = (Ok b, w')) :
  (forall r s,
      In r (rows b) -> Db.spread_pct r = Some s ->
      exists p, In p (priceRows b) /\
                Db.p_mint p = Db.s_mint r /\ Db.p_ts p = Db.s_ts r /\
                accepted (Db.price_usd p) = true)
  /\ Forall (fun p => Db.p_ts p = ts /\ accepted (Db.price_usd p) = true)
            (priceRows b)
  /\ exists prs, priceRows b = prs ++ [Db.mkPrice ts (USDC_MINT env) 1%float].
Proof.
  destruct (collect_shape _ _ _ _ _ _ _ Hrun)
    as (raw & prs & mm & Hrows & Hprs & Hraw & Hq & Hkeys & _).
  rewrite Forall_forall in Hraw, Hq.
  split; [ | split; [ | exists prs; exact Hprs]].
  - intros r s Hin Hs. rewrite Hrows in Hin. apply merge_metrics_In in Hin.
    destruct Hin as (r0 & Hin0 & Hr).
    destruct (Hraw r0 Hin0) as (t & mi & Ht & ->).
    destruct Hr as [-> | ->]; [discriminate | ].
    unfold apply_metrics in Hs |- *. cbn [Db.s_mint snapshot_row] in Hs |- *.
    destruct (metrics_get (address t) mm) as [m | ] eqn:E; [ | discriminate].
    cbn [Db.spread_pct Db.s_mint Db.s_ts] in Hs |- *.
    destruct (m_spread_pct m) as [s0 | ] eqn:Es; [ | discriminate].
    destruct (Hkeys _ _ E) as (_ & Hp).
    destruct (Hp s0 Es) as (p & Hpin & Hpm & Hpt).
    exists p. rewrite Hprs.
    split; [apply in_or_app; left; exact Hpin | ].
    split; [exact Hpm | ]. split; [exact Hpt | ].
    apply (Hq p Hpin).
  - rewrite Hprs. apply Forall_app. split.
    + apply Forall_forall. intros p Hp. destruct (Hq p Hp) as (Ht & _ & Ha).
      split; assumption.
    + constructor; [ | constructor]. split; [reflexivity | ].
      vm_compute. reflexivity.
Qed.

Lemma spread_comes_with_a_price_witness :
  exists b w',
    collect Scenario.env_online (Scenario.oracle (Scenario.http_quotes "2000000"))
            Scenario.now [Scenario.base_token; Scenario.bonk_token]
            (Scenario.world CacheMissing SeedMissing) = (Ok b, w')
    /\ Forall (fun p => Db.p_ts p = Scenario.now) (priceRows b).
Proof.
  destruct (collect Scenario.env_online
              (Scenario.oracle (Scenario.http_quotes "2000000"))
              Scenario.now [Scenario.base_token; Scenario.bonk_token]
              (Scenario.world CacheMissing SeedMissing))
    as [[b | e] w'] eqn:Hrun; [ | vm_compute in Hrun; discriminate].
  exists b, w'. split; [reflexivity | ].
  pose proof (spread_comes_with_a_price _ _ _ _ _ _ _ Hrun) as (_ & H & _).
  eapply Forall_impl; [ | exact H]. intros p Hp. apply Hp.
Defined.

(** X19.  Whether a run returns or fails, every price row the store then
    holds was either there before, stamped no more than 48 hours before
    the epoch, or is stamped with the epoch and is finite and strictly
    positive.  So a prices table that holds only finite, strictly
    positive prices still does after any run. *)
Theorem stored_prices_stay_positive (env : Env) (o : Oracle) (w : World) :
  let epoch := clock o (tick w) in
  let d' := db (snd (snapshot env o w)) in
  (forall p,
      In p (Db.prices d') ->
      (In p (Db.prices (db w)) /\ epoch - RETENTION_MS <= Db.p_ts p)
      \/ (Db.p_ts p = epoch /\ accepted (Db.price_usd p) = true))
  /\ (Forall (fun p => accepted (Db.price_usd p) = true) (Db.prices (db w)) ->
      Forall (fun p => accepted (Db.price_usd p) = true) (Db.prices d')).
Proof.
  intros epoch d'.
  assert (Hmain : forall p,
             In p (Db.prices d') ->
             (In p (Db.prices (db w)) /\ epoch - RETENTION_MS <= Db.p_ts p)
             \/ (Db.p_ts p = epoch /\ accepted (Db.price_usd p) = true)).
  { subst d'. intros p.
    assert (Hold : In p (Db.prices (store_after_prepare env o epoch (db w))) ->
                   In p (Db.prices (db w)) /\ epoch - RETENTION_MS <= Db.p_ts p).
    { rewrite (proj2 (store_after_prepare_tables _ _ _ _)).
      apply prune_prices_In. }
    destruct (snapshot_cases env o w) as (tokens & w1 & _ & Hcases).
    fold epoch in Hcases.
    destruct Hcases as [(_ & ->) | [(_ & _ & ->)
                                   | (_ & _ & b & w2 & Hc & _ & ->)]].
    - intros H. left. apply Hold, H.
    - intros H. left. apply Hold, H.
    - destruct (insertSnapshots_decided
                  (Db.upsertTokens (store_after_prepare env o epoch (db w))
                                   (tokenRows b)) (rows b))
        as [(_ & ->) | (_ & ->)]; cbn [snd db set_db with_prices Db.prices].
      + intros H. apply insert_prices_from in H. destruct H as [H | H].
        * left. apply Hold, H.
        * right.
          destruct (collect_shape _ _ _ _ _ _ _ Hc)
            as (raw & prs & mm & _ & Hprs & _ & Hq & _).
          rewrite Hprs in H. apply in_app_or in H.
          destruct H as [H | [<- | []]].
          -- rewrite Forall_forall in Hq. destruct (Hq p H) as (Ht & _ & Ha).
             split; assumption.
          -- split; [reflexivity | vm_compute; reflexivity].
      + intros H. left. apply Hold, H. }
  split; [exact Hmain | ].
  intros Hinv. rewrite Forall_forall in Hinv |- *. intros p Hp.
  destruct (Hmain p Hp) as [(Hin & _) | (_ & Ha)]; [apply Hinv, Hin | exact Ha].
Qed.

(** *** What a run asks of the network *)

Lemma bind_ext {A B} (m m' : M A) (k k' : A -> M B) w :
  m w = m' w -> (forall a w1, k a w1 = k' a w1) ->
  bind m k w = bind m' k' w.
Proof.
  intros Hm Hk. unfold bind. rewrite Hm.
  destruct (m' w) as [[a | e] w1]; [apply Hk | reflexivity].
Qed.

Lemma try_catch_ext {A} (m m' : M A) (h h' : Exn -> M A) w :
  m w = m' w -> (forall e w1, h e w1 = h' e w1) ->
  try_catch m h w = try_catch m' h' w.
Proof.
  intros Hm Hh. unfold try_catch. rewrite Hm.
  destruct (m' w) as [[a | e] w1]; [reflexivity | apply Hh].
Qed.

(** The fetch of [req] depends on the network through the answers to
    [req] alone. *)
Lemma fetch_loop_ext o h req maxDelayMs :
  (forall n, h n req = http o n req) ->
  forall k i lastErr w,
    fetch_loop (with_http h o) req maxDelayMs k i lastErr w
    = fetch_loop o req maxDelayMs k i lastErr w.
Proof.
  intros Hh. induction k as [| k IH]; intros i lastErr w; cbn [fetch_loop].
  - reflexivity.
  - apply try_catch_ext.
    + unfold axios_get. cbn [http with_http]. rewrite Hh. reflexivity.
    + intros e w1. destruct (retriable (status_of e)); [ | reflexivity].
      apply bind_ext; [reflexivity | ]. intros r w2.
      apply bind_ext; [reflexivity | ]. intros _ w3. apply IH.
Qed.

Lemma loadVerifiedTokens_ext env o h limit w :
  (forall n, h n (tag_request env) = http o n (tag_request env)) ->
  loadVerifiedTokens env (with_http h o) limit w
  = loadVerifiedTokens env o limit w.
Proof.
  intros Hh. unfold loadVerifiedTokens.
  apply bind_ext; [reflexivity | ]. intros _ w1.
  destruct (offline env); [reflexivity | ].
  apply bind_ext; [reflexivity | ]. intros c w2.
  destruct c as [cached | ]; [reflexivity | ].
  apply bind_ext; [ | reflexivity].
  unfold directory_call. apply try_catch_ext; [ | reflexivity].
  apply bind_ext; [ | reflexivity].
  unfold fetchJsonWithBackoff. apply fetch_loop_ext. exact Hh.
Qed.

(** A run that makes no quote request depends on the network through the
    answers to the directory request alone. *)
Lemma snapshot_ext env o h w :
  negb (offline env) && quotesEnabled env = false ->
  (forall n, h n (tag_request env) = http o n (tag_request env)) ->
  snapshot env (with_http h o) w = snapshot env o w.
Proof.
  intros Hmode Hh. unfold snapshot.
  apply bind_ext; [ | reflexivity]. unfold assemble.
  apply bind_ext.
  - unfold prepare. apply bind_ext; [reflexivity | ]. intros ts w1.
    apply bind_ext; [ | reflexivity]. unfold resolve_universe.
    apply try_catch_ext; [ | reflexivity].
    apply loadVerifiedTokens_ext. exact Hh.
  - intros [[ts tokens] pruned] w1. destruct tokens as [| t tokens];
      [reflexivity | ].
    apply bind_ext; [ | reflexivity]. unfold collect.
    apply bind_ext; [reflexivity | ]. intros _ w2.
    apply bind_ext; [reflexivity | ]. intros r w3.
    apply bind_ext; [ | reflexivity]. unfold quote_phase.
    rewrite Hmode. reflexivity.
Qed.

(** [asBool] trims the white space of ECMAScript, a no-break space
    (bytes C2 A0) and a line separator (bytes E2 80 A8) included, before
    it compares. *)
Example asBool_trims :
  asBool (Some (String (ascii_of_nat 194) (String (ascii_of_nat 160)
                  (" TRUE"
                   ++ String (ascii_of_nat 226) (String (ascii_of_nat 128)
                        (String (ascii_of_nat 168) EmptyString))))))
  = true
  /\ asBool (Some " 1 ") = true
  /\ asBool (Some "yes") = false
  /\ asBool (Some "") = false.
Proof. repeat split; vm_compute; reflexivity. Qed.

(** X20.  Offline, a run makes no HTTP request, neither for the directory
    nor for a quote: its result and the world it leaves are the same
    whatever the HTTP service would answer.  Online with quotes disabled
    it makes no quote request: they depend on the HTTP service through
    the answers to the directory request alone.  This is about the HTTP
    service only; the lookups of the RPC client are made in every
    mode. *)
Theorem network_use_follows_the_mode
    (env : Env) (o : Oracle) (h : nat -> Request -> HttpOutcome) (w : World) :
  (offline env = true ->
   snapshot env (with_http h o) w = snapshot env o w)
  /\ (quotesEnabled env = false ->
      (forall n, h n (tag_request env) = http o n (tag_request env)) ->
      snapshot env (with_http h o) w = snapshot env o w).
Proof.
  split.
  - intros Hoff.
    unfold snapshot, assemble, prepare, resolve_universe, loadVerifiedTokens,
      collect, quote_phase.
    rewrite Hoff. reflexivity.
  - intros Hq Hh. apply snapshot_ext; [ | exact Hh].
    rewrite Hq. apply andb_false_r.
Qed.

Lemma network_use_follows_the_mode_witness :
  snapshot Scenario.env_offline
    (with_http (Scenario.http_quotes "2000000")
               (Scenario.oracle (Scenario.http_down None)))
    (Scenario.world Scenario.recent_cache Scenario.seed_bonk)
  = snapshot Scenario.env_offline (Scenario.oracle (Scenario.http_down None))
      (Scenario.world Scenario.recent_cache Scenario.seed_bonk).
Proof.
  apply (proj1 (network_use_follows_the_mode Scenario.env_offline
                  (Scenario.oracle (Scenario.http_down None))
                  (Scenario.http_quotes "2000000")
                  (Scenario.world Scenario.recent_cache Scenario.seed_bonk))).
  vm_compute. reflexivity.
Defined.

(** Offline, the run still asks the RPC node: on a chain where the base
    mint is found it saves one token, on a chain where nothing is found
    it saves none. *)
Example offline_run_reads_the_chain :
  fst (snapshot Scenario.env_offline
         (Scenario.oracle_on Scenario.chain_base_only (Scenario.http_down None))
         (Scenario.world Scenario.recent_cache SeedMissing))
  = Ok (mkResult Scenario.now 1 (Some (mkPruned 0 0)))
  /\ fst (snapshot Scenario.env_offline
            (Scenario.oracle_on Scenario.chain_empty (Scenario.http_down None))
            (Scenario.world Scenario.recent_cache SeedMissing))
     = Ok (mkResult Scenario.now 0 (Some (mkPruned 0 0))).
Proof. split; vm_compute; reflexivity. Qed.

(** *** The cache, written and read back *)

(** A fresh cache hit, whatever the network. *)
Lemma fresh_hit_eq env o h limit w l :
  offline env = false ->
  mkdir_ok o (tick w) = true ->
  cache_read env o limit false (next w) = Some l ->
  loadVerifiedTokens env (with_http h o) limit w
  = (Ok l, after_read (next w)).
Proof.
  intros Hon Hdir Hread. unfold loadVerifiedTokens, mkdirSync.
  erewrite bind_ok
    by (cbv beta; cbn [mkdir_ok with_http]; rewrite Hdir; reflexivity).
  rewrite Hon. erewrite bind_ok by apply readCache_eq.
  change (cache_read env (with_http h o) limit false (next w))
    with (cache_read env o limit false (next w)).
  rewrite Hread. reflexivity.
Qed.

(** The list an online call returns when it did not hit a fresh cache is
    cut to the limit, and the call ends with [saveCache]. *)
Lemma resolved_saved env o limit w l w1 :
  offline env = false ->
  cache_read env o limit false (next w) = None ->
  resolved env o limit w l w1 ->
  JS.slice0 limit l = l /\ exists ws, w1 = after_save o l ws.
Proof.
  intros Hon Hmiss [Hoff _ _ | _ Hread _
                   | tokens ws _ _ _ _ -> _ -> | ws _ _ _ -> ->].
  - congruence.
  - congruence.
  - split; [apply slice0_idempotent | eexists; reflexivity].
  - split; [apply fallback_sliced | eexists; reflexivity].
Qed.

(** X21.  The cache round trip online.  When a call of
    [loadVerifiedTokens] that did not hit a fresh cache returned a list
    and its write succeeded, the cache file holds that list under the
    clock value read just before the write; and a second call made while
    that stamp is younger than the TTL returns exactly the same list
    after the directory check and one clock read, without a request,
    whatever the network would answer, and without writing. *)
Theorem online_round_trip
    (env : Env) (o : Oracle) (limit : nat) (w w1 : World) (l : list TokenRow)
    (Hon : offline env = false)
    (Hmiss : cache_read env o limit false (next w) = None)
    (Hfirst : loadVerifiedTokens env o limit w = (Ok l, w1))
    (Hwrite : write_ok o (tick w1 - 1) = true)
    (Hdir : mkdir_ok o (tick w1) = true)
    (Hfresh : clock o (S (tick w1)) - clock o (tick w1 - 2)
              < Z.pos (JUP_TOKENS_CACHE_TTL_MS env)) :
  cacheFile w1 = CacheData (Some (clock o (tick w1 - 2))) l /\
  forall h,
    loadVerifiedTokens env (with_http h o) limit w1 = (Ok l, next (next w1)).
Proof.
  pose proof (loadVerifiedTokens_spec env o limit w) as Hspec.
  destruct (mkdir_ok o (tick w)); [ | rewrite Hspec in Hfirst; discriminate].
  destruct Hspec as (l' & w1' & Hl & Hres). rewrite Hl in Hfirst.
  injection Hfirst as -> ->.
  destruct (resolved_saved _ _ _ _ _ _ Hon Hmiss Hres) as (Hcut & ws & ->).
  destruct (after_save_cache o l ws) as (Hcache & Htick).
  rewrite Htick in *.
  replace (S (S (tick ws)) - 1)%nat with (S (tick ws)) in Hwrite by lia.
  replace (S (S (tick ws)) - 2)%nat with (tick ws) in * by lia.
  rewrite Hwrite in Hcache.
  split; [exact Hcache | ]. intros h.
  assert (Hread : cache_read env o limit false (next (after_save o l ws))
                  = Some l).
  { unfold cache_read. cbn [next cacheFile tick]. rewrite Hcache, Htick.
    cbv zeta. apply Z.ltb_lt in Hfresh. rewrite Hfresh, Hcut. reflexivity. }
  rewrite (fresh_hit_eq env o h limit _ l Hon);
    [ | rewrite Htick; exact Hdir | exact Hread].
  unfold after_read. cbn [next cacheFile]. rewrite Hcache. reflexivity.
Qed.

Lemma online_round_trip_witness :
  exists w1,
    loadVerifiedTokens Scenario.env_online
      (Scenario.oracle (Scenario.http_down (Some 404))) 50
      (Scenario.world CacheMissing Scenario.seed_bonk)
    = (Ok [Scenario.bonk_token], w1)
    /\ loadVerifiedTokens Scenario.env_online
         (with_http (Scenario.http_quotes "1")
                    (Scenario.oracle (Scenario.http_down (Some 404)))) 50 w1
       = (Ok [Scenario.bonk_token], next (next w1)).
Proof.
  eexists. split; [vm_compute; reflexivity | ].
  refine (proj2 (online_round_trip Scenario.env_online
                   (Scenario.oracle (Scenario.http_down (Some 404))) 50
                   (Scenario.world CacheMissing Scenario.seed_bonk) _
                   [Scenario.bonk_token] eq_refl eq_refl _ _ _ _) _).
  - vm_compute. reflexivity.
  - vm_compute. reflexivity.
  - vm_compute. reflexivity.
  - vm_compute. reflexivity.
Defined.

(** *** A universe that lists a mint twice *)

(** The fan-out leaves one row per listing of a mint that is found
    whenever it is looked up. *)
Lemma onchain_fanout_count o ts a :
  (forall n, lookup o n a <> None) ->
  forall tokens acc w acc' w',
    for_each (onchain_unit o ts) tokens acc w = (Ok acc', w') ->
    count_occ string_dec (map Db.s_mint (fst acc')) a
    = (count_occ string_dec (map Db.s_mint (fst acc)) a
       + count_occ string_dec (map address tokens) a)%nat.
Proof.
  intros Hfound. induction tokens as [| t tokens IH];
    intros acc w acc' w' H; cbn [for_each] in H.
  - injection H as <- _. cbn. lia.
  - destruct (onchain_unit_spec o ts t acc w) as (w1 & Hu & _).
    erewrite bind_ok in H by exact Hu. apply IH in H. rewrite H.
    cbn [map count_occ].
    destruct (string_dec (address t) a) as [<- | Hne].
    + destruct (lookup o (tick w) (address t)) as [mi | ] eqn:E;
        [ | exfalso; exact (Hfound _ E)].
      cbn [fst]. rewrite map_app, count_occ_app. cbn [map count_occ snapshot_row
        Db.s_mint].
      destruct (string_dec (address t) (address t)); [lia | contradiction].
    + destruct (lookup o (tick w) (address t)) as [mi | ]; [ | reflexivity].
      cbn [fst]. rewrite map_app, count_occ_app. cbn [map count_occ snapshot_row
        Db.s_mint].
      destruct (string_dec (address t) a); [contradiction | lia].
Qed.

Lemma merge_metrics_mint_list metricsMap raw :
  map Db.s_mint (merge_metrics metricsMap raw) = map Db.s_mint raw.
Proof.
  unfold merge_metrics. destruct metricsMap; [reflexivity | ].
  rewrite map_map. apply map_ext. intros r. apply apply_metrics_keeps.
Qed.

(** Rows of one epoch have distinct keys only if they have distinct
    mints. *)
Lemma keys_of_one_epoch ts rs :
  Forall (fun r => Db.s_ts r = ts) rs ->
  NoDup (map snapshot_key rs) -> NoDup (map Db.s_mint rs).
Proof.
  intros Hts Hnd.
  assert (E : map snapshot_key rs = map (fun m => (ts, m)) (map Db.s_mint rs)).
  { rewrite map_map. apply map_ext_in. intros r Hr.
    rewrite Forall_forall in Hts. unfold snapshot_key. rewrite (Hts r Hr).
    reflexivity. }
  rewrite E in Hnd. apply NoDup_map_inv in Hnd. exact Hnd.
Qed.

(** X22.  When the RPC client can be made, a universe that lists twice a
    mint found on chain at every lookup makes the run fail with the
    constraint error of the store: the two snapshot rows share the key.
    The store is then the pruned one with the metadata set and the
    directory rows upserted; no snapshot row and no price row of the run
    is kept. *)
Theorem duplicate_mint_fails_the_run
    (env : Env) (o : Oracle) (w w1 : World) (tokens : list TokenRow)
    (a : string)
    (Huniverse : resolve_universe env o (next w) = (Ok tokens, w1))
    (Htwice : (2 <= count_occ string_dec (map address tokens) a)%nat)
    (Hfound : forall n, lookup o n a <> None)
    (Hendpoint : endpoint_ok o (RPC_URL env) = true) :
  let pruned := Db.pruneOlderThanMs (db w) (clock o (tick w) - RETENTION_MS) in
  exists w',
    snapshot env o w = (Throw SqliteError, w') /\
    Db.snapshots (db w') = Db.snapshots pruned /\
    Db.prices (db w') = Db.prices pruned.
Proof.
  intros pruned.
  destruct (snapshot_cases env o w) as (tokens' & w1' & Hres & Hcases).
  rewrite Huniverse in Hres. injection Hres as <- <-.
  destruct Hcases as [(-> & _) | [(_ & Hno & _)
                                 | (_ & _ & b & w2 & Hc & Hdb & Hs)]];
    [cbn in Htwice; lia | congruence | ].
  set (prepared := store_after_prepare env o (clock o (tick w)) (db w)) in *.
  destruct (insertSnapshots_decided (Db.upsertTokens prepared (tokenRows b))
              (rows b)) as [((Hnd & _) & _) | (_ & Hins)].
  - exfalso.
    destruct (collect_epoch _ _ _ _ _ _ _ Hc) as (Hts & _).
    apply (keys_of_one_epoch _ _ Hts) in Hnd.
    destruct (collect_returns _ _ _ _ _ _ _ Hc)
      as (_ & r & q & wa & Hr & _ & -> & _).
    cbn [rows] in Hnd.
    rewrite merge_metrics_mint_list in Hnd.
    pose proof (onchain_fanout_count o _ a Hfound _ _ _ _ _ Hr) as Hcount.
    cbn [fst map count_occ] in Hcount.
    pose proof (proj1 (NoDup_count_occ string_dec _) Hnd a). lia.
  - rewrite Hins in Hs. eexists. split; [exact Hs | ].
    split; reflexivity.
Qed.

Lemma duplicate_mint_fails_the_run_witness :
  fst (snapshot Scenario.env_plain (Scenario.oracle (Scenario.http_down None))
         (Scenario.world Edge.twin_cache SeedMissing))
  = Throw SqliteError.
Proof.
  destruct (duplicate_mint_fails_the_run Scenario.env_plain
              (Scenario.oracle (Scenario.http_down None))
              (Scenario.world Edge.twin_cache SeedMissing)
              (snd (resolve_universe Scenario.env_plain
                      (Scenario.oracle (Scenario.http_down None))
                      (next (Scenario.world Edge.twin_cache SeedMissing))))
              [Scenario.base_token; Scenario.base_token] Scenario.USDC)
    as (w' & -> & _).
  - vm_compute. reflexivity.
  - vm_compute. lia.
  - intros n. vm_compute. discriminate.
  - reflexivity.
  - reflexivity.
Defined.

(** *** The price of the base asset *)

Lemma find_none_filter_neg {A} (f : A -> bool) (l : list A) :
  find f (filter (fun x => negb (f x)) l) = None.
Proof.
  induction l as [| x l IH]; cbn; [reflexivity | ].
  destruct (f x) eqn:E; cbn; [exact IH | rewrite E; exact IH].
Qed.

Lemma filter_filter_neg {A} (f : A -> bool) (l : list A) :
  filter f (filter (fun x => negb (f x)) l) = [].
Proof.
  induction l as [| x l IH]; cbn; [reflexivity | ].
  destruct (f x) eqn:E; cbn; [exact IH | rewrite E; exact IH].
Qed.

(** X23.  A run over a non-empty universe that returns leaves exactly
    one price row for the base asset at its epoch, priced 1, whatever the
    quotes were and whatever row the table held under that key; reading
    that key back gives this row. *)
Theorem base_price_is_recorded
    (env : Env) (o : Oracle) (w w1 w' : World) (tokens : list TokenRow)
    (res : SnapshotResult)
    (Huniverse : resolve_universe env o (next w) = (Ok tokens, w1))
    (Hsome : tokens <> [])
    (Hrun : snapshot env o w = (Ok res, w')) :
  let epoch := clock o (tick w) in
  let base := Db.mkPrice epoch (USDC_MINT env) 1%float in
  price_at epoch (USDC_MINT env) (Db.prices (db w')) = Some base /\
  filter (fun p => Db.same_price_key p base) (Db.prices (db w')) = [base].
Proof.
  intros epoch base.
  destruct (snapshot_cases env o w) as (tokens' & w1' & Hres & Hcases).
  rewrite Huniverse in Hres. injection Hres as <- <-.
  destruct Hcases as [(Hnil & _) | [(_ & _ & Hs)
                                   | (_ & _ & b & w2 & Hc & Hdb & Hs)]];
    [contradiction | congruence | ].
  fold epoch in Hc, Hs.
  destruct (insertSnapshots_decided
              (Db.upsertTokens (store_after_prepare env o epoch (db w))
                               (tokenRows b)) (rows b))
    as [(_ & Hins) | (_ & Hins)]; rewrite Hins, Hrun in Hs; [ | discriminate].
  injection Hs as _ ->.
  destruct (collect_shape _ _ _ _ _ _ _ Hc) as (raw & prs & mm & _ & Hprs & _).
  cbn [db set_db with_prices Db.prices]. rewrite Hprs, fold_left_app.
  change (base_price env epoch) with base.
  cbn [fold_left]. unfold Db.replace_price at 1.
  set (T := fold_left Db.replace_price prs _).
  assert (Hbase : Db.same_price_key base base = true).
  { unfold Db.same_price_key. rewrite Z.eqb_refl, String.eqb_refl. reflexivity. }
  split.
  - unfold price_at. rewrite find_app.
    change (fun x : Db.PriceRow =>
              (Db.p_ts x =? epoch) && (Db.p_mint x =? USDC_MINT env)%string)
      with (fun x => Db.same_price_key x base).
    rewrite find_none_filter_neg. cbn [find]. cbv beta. rewrite Hbase.
    reflexivity.
  - unfold Db.replace_price. rewrite filter_app, filter_filter_neg.
    cbn [filter app]. cbv beta.
    rewrite Hbase.
    reflexivity.
Qed.

Lemma base_price_is_recorded_witness :
  price_at Scenario.now Scenario.USDC
    (Db.prices (db (snd (snapshot Scenario.env_plain
                           (Scenario.oracle (Scenario.http_down None))
                           Scenario.world_with_history))))
  = Some (Db.mkPrice Scenario.now Scenario.USDC 1%float).
Proof.
  refine (proj1 (base_price_is_recorded Scenario.env_plain
                   (Scenario.oracle (Scenario.http_down None))
                   Scenario.world_with_history
                   (snd (resolve_universe Scenario.env_plain
                           (Scenario.oracle (Scenario.http_down None))
                           (next Scenario.world_with_history)))
                   (snd (snapshot Scenario.env_plain
                           (Scenario.oracle (Scenario.http_down None))
                           Scenario.world_with_history))
                   [Scenario.base_token; Scenario.bonk_token]
                   (mkResult Scenario.now 1 (Some (mkPruned 1 1)))
                   _ _ _)).
  - vm_compute. reflexivity.
  - discriminate.
  - vm_compute. reflexivity.
Defined.

(** *** When the universe is empty *)

Lemma slice0_empty {A} (n : nat) (l : list A) :
  (0 < n)%nat -> JS.slice0 n l = [] -> l = [].
Proof.
  unfold JS.slice0. destruct n as [| n]; [lia | ].
  destruct l; [reflexivity | discriminate].
Qed.

Lemma seed_list_not_empty env limit f :
  (0 < limit)%nat -> seed_list env limit f <> [].
Proof.
  intros Hl H. unfold seed_list in H.
  destruct f as [ | | | [| x l]]; apply slice0_empty in H;
    try exact Hl; discriminate.
Qed.

(** An empty list read from the cache is an empty list in the file. *)
Lemma cache_read_empty env o limit soft w :
  (0 < limit)%nat ->
  cache_read env o limit soft w = Some [] ->
  exists stamp, cacheFile w = CacheData stamp [].
Proof.
  intros Hl. unfold cache_read.
  destruct (cacheFile w) as [ | | | stamp items]; try discriminate.
  match goal with |- context [if ?c then _ else _] => destruct c end;
    [ | discriminate].
  intros [= H]. apply slice0_empty in H; [ | exact Hl]. subst items.
  exists stamp. reflexivity.
Qed.

Lemma fallback_empty env o limit w :
  (0 < limit)%nat ->
  fallback env o limit w = [] ->
  exists stamp, cacheFile w = CacheData stamp [].
Proof.
  intros Hl. unfold fallback.
  destruct (cache_read env o limit true w) as [l | ] eqn:E.
  - intros ->. eapply cache_read_empty; eauto.
  - intros H. exfalso. exact (seed_list_not_empty _ _ _ Hl H).
Qed.

(** X24.  The universe of a run is empty in two cases only: the data
    directory could not be made, or the cache file holds an empty list.
    The directory service and the seed never make it empty. *)
Theorem empty_universe_has_two_causes
    (env : Env) (o : Oracle) (w w1 : World)
    (Hempty : resolve_universe env o (next w) = (Ok [], w1)) :
  mkdir_ok o (S (tick w)) = false \/
  exists stamp, cacheFile w = CacheData stamp [].
Proof.
  assert (Hl : (0 < Pos.to_nat (TOKEN_LIMIT env))%nat) by lia.
  unfold resolve_universe, try_catch in Hempty.
  pose proof (loadVerifiedTokens_spec env o (Pos.to_nat (TOKEN_LIMIT env))
                (next w)) as Hspec.
  cbn [tick next] in Hspec.
  destruct (mkdir_ok o (S (tick w))); [right | left; reflexivity].
  destruct Hspec as (l & wl & Hload & Hres). rewrite Hload in Hempty.
  injection Hempty as -> ->.
  destruct Hres as [_ Hf _ | _ Hread _
                   | tokens ws _ _ _ Hne Hcut _ _ | ws _ _ Hq Hf _].
  - symmetry in Hf. apply fallback_empty in Hf; [ | exact Hl]. exact Hf.
  - apply cache_read_empty in Hread; [ | exact Hl]. exact Hread.
  - symmetry in Hcut. apply slice0_empty in Hcut; [ | exact Hl]. contradiction.
  - symmetry in Hf. apply fallback_empty in Hf; [ | exact Hl].
    destruct Hf as (stamp & Hc). exists stamp.
    destruct Hq as (Hcache & _). cbn [next cacheFile] in Hcache.
    rewrite <- Hcache. exact Hc.
Qed.

Lemma empty_universe_has_two_causes_witness :
  mkdir_ok Edge.oracle_no_dir 1 = false \/
  exists stamp, Scenario.recent_cache = CacheData stamp [].
Proof.
  apply (empty_universe_has_two_causes Scenario.env_online Edge.oracle_no_dir
           (Scenario.world Scenario.recent_cache Scenario.seed_bonk)
           (next (next (Scenario.world Scenario.recent_cache
                          Scenario.seed_bonk)))).
  vm_compute. reflexivity.
Defined.

(** *** The delays of a run *)

Lemma sleeps_refl w : sleeps 0 w w.
Proof.
  exists []. rewrite app_nil_r. split; [reflexivity | ].
  split; [cbn; lia | constructor].
Qed.

Lemma sleeps_trans k1 k2 w w1 w2 :
  sleeps k1 w w1 -> sleeps k2 w1 w2 -> sleeps (k1 + k2) w w2.
Proof.
  intros (d1 & E1 & L1 & F1) (d2 & E2 & L2 & F2). exists (d1 ++ d2).
  split; [rewrite E2, E1, app_assoc; reflexivity | ].
  split; [rewrite length_app; lia | apply Forall_app; split; assumption].
Qed.

Lemma sleeps_le k k' w w' : sleeps k w w' -> (k <= k')%nat -> sleeps k' w w'.
Proof.
  intros (d & E & L & F) Hk. exists d. split; [exact E | ].
  split; [lia | exact F].
Qed.

Lemma costs_le {A} k k' (m : M A) : costs k m -> (k <= k')%nat -> costs k' m.
Proof. intros H Hk w. eapply sleeps_le; [apply H | exact Hk]. Qed.

Lemma costs_silent {A} (m : M A) :
  (forall w, slept (snd (m w)) = slept w) -> costs 0 m.
Proof.
  intros H w. exists []. rewrite app_nil_r. split; [apply H | ].
  split; [cbn; lia | constructor].
Qed.

Lemma costs_ret {A} (a : A) : costs 0 (ret a).
Proof. apply costs_silent. reflexivity. Qed.

Lemma costs_bind {A B} k1 k2 (m : M A) (f : A -> M B) :
  costs k1 m -> (forall a, costs k2 (f a)) -> costs (k1 + k2) (bind m f).
Proof.
  intros Hm Hf w. unfold bind. specialize (Hm w).
  destruct (m w) as [[a | e] w1]; cbn [snd] in *.
  - eapply sleeps_trans; [exact Hm | apply Hf].
  - eapply sleeps_le; [exact Hm | lia].
Qed.

Lemma costs_try {A} k1 k2 (m : M A) (h : Exn -> M A) :
  costs k1 m -> (forall e, costs k2 (h e)) -> costs (k1 + k2) (try_catch m h).
Proof.
  intros Hm Hh w. unfold try_catch. specialize (Hm w).
  destruct (m w) as [[a | e] w1]; cbn [snd] in *.
  - eapply sleeps_le; [exact Hm | lia].
  - eapply sleeps_trans; [exact Hm | apply Hh].
Qed.

Lemma costs_for_each {A S} k (f : A -> S -> M S) (l : list A) :
  (forall x acc, costs k (f x acc)) ->
  forall acc, costs (List.length l * k) (for_each f l acc).
Proof.
  intros Hf. induction l as [| x l IH]; intros acc; cbn [for_each List.length].
  - apply costs_ret.
  - eapply costs_le; [apply (costs_bind k (List.length l * k)) | lia].
    + apply Hf.
    + intros acc'. apply IH.
Qed.

Section Delays.

Variable o : Oracle.

(** [Math.random()] is in [0, 1), so the jitter is between 0 and 149. *)
Hypothesis Hjitter : forall n, 0 <= jitter (random o n) <= 149.

Lemma delay_after_bounds t j : 400 <= delay_after o 1500 t j <= 1649.
Proof.
  unfold delay_after, backoff_delay.
  pose proof (Hjitter (t + 2 * j + 1)%nat).
  assert (0 < 2 ^ Z.of_nat j) by (apply Z.pow_pos_nonneg; lia).
  lia.
Qed.

Lemma after_retries_sleeps n j w :
  (j <= n)%nat ->
  sleeps n w (after_retries o 1500 j w) /\
  sleeps n w (next (after_retries o 1500 j w)).
Proof.
  intros Hj.
  assert (H : Forall (fun d => 400 <= d <= 1649)
                     (map (delay_after o 1500 (tick w)) (seq 0 j))).
  { apply Forall_forall. intros d Hd. apply in_map_iff in Hd.
    destruct Hd as (i & <- & _). apply delay_after_bounds. }
  split; eexists; (split; [reflexivity | ]);
    (split; [rewrite length_map, length_seq; exact Hj | exact H]).
Qed.

Lemma costs_fetch req n : costs n (fetchJsonWithBackoff o req n 1500).
Proof.
  intros w.
  pose proof (fetch_cases o req n 1500 w) as Hcases. cbv zeta in Hcases.
  destruct Hcases as [(_ & ->)
                     | [(j & data & Hj & _ & _ & ->)
                       | [(j & e & Hj & _ & _ & _ & ->)
                         | (e & _ & _ & _ & ->)]]]; cbn [snd].
  - eapply sleeps_le; [apply sleeps_refl | lia].
  - apply after_retries_sleeps. lia.
  - apply after_retries_sleeps. lia.
  - apply after_retries_sleeps. lia.
Qed.

Lemma costs_jupQuote env inputMint outputMint amount :
  costs 3 (jupQuote env o inputMint outputMint amount).
Proof.
  unfold jupQuote. apply (costs_try 3 0); [ | intros; apply costs_ret].
  apply (costs_bind 3 0); [apply costs_fetch | intros; apply costs_ret].
Qed.

Lemma costs_to_BigInt x : costs 0 (to_BigInt x).
Proof.
  apply costs_silent. intros w. unfold to_BigInt.
  destruct (JS.round x); reflexivity.
Qed.

Lemma costs_round_trip env ts t dec priceRows :
  costs 6 (round_trip env o ts t dec priceRows).
Proof.
  unfold round_trip.
  apply (costs_bind 0 6); [apply costs_to_BigInt | intros smallUsd].
  apply (costs_bind 3 3); [apply costs_jupQuote | intros rBuy].
  destruct (quote_of rBuy) as [qBuy | ];
    [ | apply (costs_le 0); [apply costs_ret | lia]].
  destruct (JS.truthy_str (outAmount qBuy));
    [ | apply (costs_le 0); [apply costs_ret | lia]].
  apply (costs_bind 3 0); [apply costs_jupQuote | intros rSell].
  destruct (quote_of rSell) as [qSell | ]; [ | apply costs_ret].
  destruct (JS.truthy_str (outAmount qSell)); [ | apply costs_ret].
  match goal with |- context [if ?c then _ else _] => destruct c end;
    apply costs_ret.
Qed.

Lemma costs_quote_unit env ts t acc : costs 9 (quote_unit env o ts t acc).
Proof.
  unfold quote_unit, quote_body.
  apply (costs_try 9 0); [ | intros; apply costs_ret].
  apply (costs_bind 0 9); [apply costs_to_BigInt | intros buyAmountUSDC].
  apply (costs_bind 3 6); [apply costs_jupQuote | intros qi].
  apply (costs_bind 6 0); [apply costs_round_trip | intros; apply costs_ret].
Qed.

(** The quote phase sleeps only online with quotes enabled, at most nine
    delays per quoted token. *)
Lemma costs_quote_phase env ts tokens :
  costs (if negb (offline env) && quotesEnabled env
         then 9 * List.length (toQuote env tokens) else 0)
        (quote_phase env o ts tokens).
Proof.
  unfold quote_phase. destruct (negb (offline env) && quotesEnabled env).
  - eapply costs_le; [apply (costs_for_each 9) | lia].
    intros; apply costs_quote_unit.
  - apply costs_ret.
Qed.

Lemma costs_onchain_unit ts t acc : costs 0 (onchain_unit o ts t acc).
Proof.
  apply costs_silent. intros w. unfold onchain_unit, try_catch, bind,
    new_PublicKey, getAccountInfo, getMint, ret.
  destruct (pubkey_ok o (address t)); [ | reflexivity].
  destruct (accountInfo o (tick w) (address t)) as [[owner | ] | e];
    try reflexivity.
  cbn [tick next].
  match goal with |- context [mintOf o ?n ?a ?p] => destruct (mintOf o n a p) end;
    reflexivity.
Qed.

Lemma costs_collect env ts tokens :
  costs (if negb (offline env) && quotesEnabled env
         then 9 * List.length (toQuote env tokens) else 0)
        (collect env o ts tokens).
Proof.
  unfold collect.
  pose proof (costs_quote_phase env ts tokens) as Hq.
  set (kq := (if negb (offline env) && quotesEnabled env
              then 9 * List.length (toQuote env tokens) else 0)%nat) in *.
  apply (costs_le (0 + (List.length tokens * 0 + (kq + 0)))%nat); [ | lia].
  apply costs_bind.
  { apply costs_silent. intros w. unfold new_Connection.
    destruct (endpoint_ok o (RPC_URL env)); reflexivity. }
  intros _.
  apply costs_bind;
    [apply costs_for_each; intros; apply costs_onchain_unit | intros r].
  apply costs_bind; [exact Hq | intros; apply costs_ret].
Qed.

Lemma costs_cache_or_seed env limit : costs 0 (cache_or_seed env o limit).
Proof.
  apply costs_silent. intros w. rewrite cache_or_seed_eq. cbn [snd].
  unfold after_read. destruct (cacheFile w); reflexivity.
Qed.

Lemma costs_readCache env limit soft : costs 0 (readCache env o limit soft).
Proof.
  apply costs_silent. intros w. rewrite readCache_eq. cbn [snd].
  unfold after_read. destruct (cacheFile w); reflexivity.
Qed.

Lemma costs_saveCache items : costs 0 (saveCache o items).
Proof.
  apply costs_silent. intros w. rewrite saveCache_eq. cbn [snd].
  unfold after_save. destruct (write_ok o (S (tick w))); reflexivity.
Qed.

Lemma costs_directory_call env : costs 3 (directory_call env o).
Proof.
  unfold directory_call. apply (costs_try 3 0); [ | intros; apply costs_ret].
  apply (costs_bind 3 0); [apply costs_fetch | intros data].
  destruct data as [q | [| x l] | [| x l] | ]; apply costs_ret.
Qed.

(** The resolver sleeps only online, at most three delays. *)
Lemma costs_resolve_universe env :
  costs (if offline env then 0 else 3) (resolve_universe env o).
Proof.
  unfold resolve_universe.
  apply (costs_le ((0 + (if offline env then 0 else 3)) + 0)%nat);
    [apply costs_try; [ | intros; apply costs_ret] | ].
  - unfold loadVerifiedTokens.
    apply (costs_bind 0 (if offline env then 0 else 3)).
    + apply costs_silent. intros w. unfold mkdirSync. reflexivity.
    + intros _. destruct (offline env).
      * apply (costs_bind 0 0); [apply costs_cache_or_seed | intros cached].
        apply (costs_bind 0 0); [apply costs_saveCache | intros; apply costs_ret].
      * apply (costs_bind 0 3); [apply costs_readCache | intros [cached | ]];
          [apply (costs_le 0); [apply costs_ret | lia] | ].
        apply (costs_bind 3 0); [apply costs_directory_call | intros tokens].
        apply (costs_bind 0 0);
          [ | intros chosen; apply (costs_bind 0 0);
              [apply costs_saveCache | intros; apply costs_ret]].
        destruct tokens as [[| t ts] | ];
          [apply costs_cache_or_seed | apply costs_ret
           | apply costs_cache_or_seed].
  - lia.
Qed.

(** The delays of a whole run. *)
Lemma snapshot_sleeps env w :
  exists tokens w1,
    resolve_universe env o (next w) = (Ok tokens, w1) /\
    sleeps ((if offline env then 0 else 3)
            + (if negb (offline env) && quotesEnabled env
               then 9 * List.length (toQuote env tokens) else 0))
           w (snd (snapshot env o w)).
Proof.
  destruct (snapshot_cases env o w) as (tokens & w1 & Hres & Hcases).
  exists tokens, w1. split; [exact Hres | ].
  pose proof (costs_resolve_universe env (next w)) as Hr.
  rewrite Hres in Hr. cbn [snd] in Hr.
  assert (Hr' : sleeps (if offline env then 0 else 3) w w1).
  { destruct Hr as (d & E & L & F). exists d. repeat split; assumption. }
  destruct Hcases as [(_ & ->) | [(_ & _ & ->) | (_ & _ & b & w2 & Hc & _ & ->)]].
  - eapply sleeps_le; [ | apply Nat.le_add_r].
    destruct Hr' as (d & E & L & F). exists d. repeat split; assumption.
  - eapply sleeps_le; [ | apply Nat.le_add_r].
    destruct Hr' as (d & E & L & F). exists d. repeat split; assumption.
  - pose proof (costs_collect env (clock o (tick w)) tokens
                  (set_db (store_after_prepare env o (clock o (tick w)) (db w))
                          w1)) as Hcol.
    rewrite Hc in Hcol. cbn [snd] in Hcol.
    assert (Hcol' : sleeps (if negb (offline env) && quotesEnabled env
                            then 9 * List.length (toQuote env tokens) else 0)
                           w1 w2).
    { destruct Hcol as (d & E & L & F). exists d. repeat split; assumption. }
    pose proof (sleeps_trans _ _ _ _ _ Hr' Hcol') as (d & E & L & F).
    exists d. split; [ | split; assumption].
    rewrite <- E.
    destruct (Db.insertSnapshots _ _); reflexivity.
Qed.

End Delays.

(** X25.  The delays of a run are bounded.  With a jitter between 0 and
    149 ms, as [Math.random] gives, a run sleeps at most three delays for
    the directory request and nine for each quoted token, so at most
    [3 + 9 * min(QUOTE_MAX_TOKENS, TOKEN_LIMIT)] delays, each between 400
    and 1649 ms.  Offline it sleeps none, and with quotes disabled at most
    three. *)
Theorem run_sleeps_are_bounded
    (env : Env) (o : Oracle) (w : World)
    (Hjitter : forall n, 0 <= jitter (random o n) <= 149) :
  exists delays,
    slept (snd (snapshot env o w)) = slept w ++ delays /\
    (List.length delays
     <= 3 + 9 * Nat.min (Pos.to_nat (QUOTE_MAX_TOKENS env))
                        (Pos.to_nat (TOKEN_LIMIT env)))%nat /\
    Forall (fun d => 400 <= d <= 1649) delays /\
    (offline env = true -> delays = []) /\
    (quotesEnabled env = false -> (List.length delays <= 3)%nat).
Proof.
  destruct (snapshot_sleeps o Hjitter env w)
    as (tokens & w1 & Hres & d & E & L & F).
  assert (Hlimit : (List.length tokens <= Pos.to_nat (TOKEN_LIMIT env))%nat).
  { unfold resolve_universe, try_catch in Hres.
    pose proof (loadVerifiedTokens_spec env o (Pos.to_nat (TOKEN_LIMIT env))
                  (next w)) as Hload.
    destruct (mkdir_ok o (tick (next w))).
    - destruct Hload as (l & wl & Hl & Hr). rewrite Hl in Hres.
      injection Hres as <- _. eapply resolved_length; exact Hr.
    - rewrite Hload in Hres. injection Hres as <- _. cbn. lia. }
  pose proof (toQuote_length env tokens) as Hq.
  exists d. split; [exact E | ]. split; [ | split; [exact F | split]].
  - destruct (offline env), (quotesEnabled env); cbn [negb andb] in L; lia.
  - intros Hoff. rewrite Hoff in L. cbn [negb andb] in L.
    destruct d; [reflexivity | cbn in L; lia].
  - intros Hquotes. rewrite Hquotes, andb_false_r in L.
    destruct (offline env); lia.
Qed.

Lemma run_sleeps_are_bounded_witness :
  exists delays,
    slept (snd (snapshot Scenario.env_online
                  (Scenario.oracle (Scenario.http_down (Some 503)))
                  (Scenario.world CacheMissing SeedMissing)))
    = [] ++ delays /\
    (List.length delays <= 228)%nat.
Proof.
  destruct (run_sleeps_are_bounded Scenario.env_online
              (Scenario.oracle (Scenario.http_down (Some 503)))
              (Scenario.world CacheMissing SeedMissing))
    as (delays & E & L & _).
  - intros n. vm_compute. split; discriminate.
  - exists delays. split; [exact E | exact L].
Defined.

(** *** Snapshot rows and the directory *)

Lemma upsert_tokens_other rows mint :
  ~ In mint (map Db.d_mint rows) ->
  forall t,
    token_at mint (fold_left (fun t r => Db.upsert_token r t) rows t)
    = token_at mint t.
Proof.
  induction rows as [| r rows IH]; intros Hnot t; cbn [fold_left];
    [reflexivity | ].
  rewrite IH by (intros H; apply Hnot; right; exact H).
  rewrite upsert_token_at.
  destruct (String.eqb_spec (Db.d_mint r) mint) as [E | _]; [ | reflexivity].
  exfalso. apply Hnot. left. exact E.
Qed.

(** A row of a batch with distinct mints is the row read back. *)
Lemma upsert_tokens_at rows d :
  NoDup (map Db.d_mint rows) -> In d rows ->
  forall t,
    token_at (Db.d_mint d) (fold_left (fun t r => Db.upsert_token r t) rows t)
    = Some d.
Proof.
  induction rows as [| r rows IH]; intros Hnd Hin t; [destruct Hin | ].
  cbn [map] in Hnd. inversion Hnd as [| ? ? Hfirst Hrest]; subst.
  cbn [fold_left]. destruct Hin as [-> | Hin].
  - rewrite upsert_tokens_other by exact Hfirst.
    rewrite upsert_token_at, String.eqb_refl. reflexivity.
  - apply IH; assumption.
Qed.

Lemma Forall2_In_left {A B} (R : A -> B -> Prop) l1 l2 a :
  Forall2 R l1 l2 -> In a l1 -> exists b, In b l2 /\ R a b.
Proof.
  induction 1 as [| x y l1 l2 Hxy _ IH]; intros Hin; [destruct Hin | ].
  destruct Hin as [<- | Hin].
  - exists y. split; [left; reflexivity | exact Hxy].
  - destruct (IH Hin) as (b & Hb & Hr). exists b. split; [right | ]; assumption.
Qed.

Lemma row_of_mints o ts tokens rs ds :
  Forall2 (row_of o ts tokens) rs ds ->
  map Db.d_mint ds = map Db.s_mint rs.
Proof.
  induction 1 as [| r d rs ds Hrd _ IH]; [reflexivity | ].
  cbn [map]. rewrite IH.
  destruct Hrd as (t & mi & n & _ & _ & _ & Hm & _ & ->).
  cbn [token_row Db.d_mint]. rewrite Hm. reflexivity.
Qed.

(** X26.  After a run that returns, every snapshot row it saved has its
    row in the token directory: looking the mint of the snapshot row up
    gives a verified directory row with the same mint and the same
    decimals.  The saved rows are the ones appended to the pruned table,
    [savedTokens] of them. *)
Theorem saved_rows_have_directory_rows
    (env : Env) (o : Oracle) (w w' : World) (res : SnapshotResult)
    (Hrun : snapshot env o w = (Ok res, w')) :
  let pruned := Db.pruneOlderThanMs (db w) (clock o (tick w) - RETENTION_MS) in
  exists saved,
    Db.snapshots (db w') = Db.snapshots pruned ++ saved /\
    savedTokens res = Z.of_nat (List.length saved) /\
    forall r,
      In r saved ->
      exists d,
        token_at (Db.s_mint r) (Db.tokens (db w')) = Some d /\
        Db.d_mint d = Db.s_mint r /\
        Db.d_decimals d = Db.s_decimals r /\
        Db.verified d = 1.
Proof.
  intros pruned.
  destruct (snapshot_cases env o w) as (tokens & w1 & _ & Hcases).
  set (epoch := clock o (tick w)) in *.
  set (prepared := store_after_prepare env o epoch (db w)) in *.
  destruct Hcases as [(_ & Hs) | [(_ & _ & Hs)
                                 | (_ & _ & b & w2 & Hc & _ & Hs)]];
    rewrite Hs in Hrun; [ | discriminate | ].
  - injection Hrun as <- <-. exists []. rewrite app_nil_r.
    split; [reflexivity | ]. split; [reflexivity | intros r []].
  - destruct (insertSnapshots_decided (Db.upsertTokens prepared (tokenRows b))
                (rows b)) as [((Hnd & _) & Hins) | (_ & Hins)];
      rewrite Hins in Hrun; [ | discriminate].
    injection Hrun as <- <-. exists (map Db.stored_snapshot (rows b)).
    split; [reflexivity | ].
    split; [rewrite length_map; reflexivity | ].
    cbn [db set_db with_prices Db.tokens Db.upsertTokens].
    destruct (collect_epoch _ _ _ _ _ _ _ Hc) as (Hts & _).
    apply (keys_of_one_epoch _ _ Hts) in Hnd.
    destruct (collect_returns _ _ _ _ _ _ _ Hc)
      as (_ & r0 & q & wa & _ & _ & -> & _ & Hrows & _).
    cbn [rows tokenRows] in *.
    apply (merge_metrics_row_of _ _ _ (snd q)) in Hrows.
    rewrite <- (row_of_mints _ _ _ _ _ Hrows) in Hnd.
    intros r' Hin'. apply in_map_iff in Hin'.
    destruct Hin' as (r & <- & Hin).
    change (Db.s_mint (Db.stored_snapshot r)) with (Db.s_mint r).
    change (Db.s_decimals (Db.stored_snapshot r)) with (Db.s_decimals r).
    destruct (Forall2_In_left _ _ _ _ Hrows Hin) as (d & Hd & Hrd).
    exists d.
    destruct Hrd as (t & mi & n & _ & _ & _ & Hm & Hdec & ->).
    rewrite Hm.
    change (address t) with (Db.d_mint (token_row t mi)) at 1.
    rewrite (upsert_tokens_at _ _ Hnd Hd).
    split; [reflexivity | ]. split; [reflexivity | ].
    split; [symmetry; exact Hdec | reflexivity].
Qed.

Lemma saved_rows_have_directory_rows_witness :
  exists d,
    token_at Scenario.USDC
      (Db.tokens (db (snd (snapshot Scenario.env_plain
                             (Scenario.oracle (Scenario.http_down None))
                             Scenario.world_with_history))))
    = Some d /\ Db.d_decimals d = 6.
Proof.
  assert (Hrun : snapshot Scenario.env_plain
                   (Scenario.oracle (Scenario.http_down None))
                   Scenario.world_with_history
                 = (Ok (mkResult Scenario.now 1 (Some (mkPruned 1 1))),
                    snd (snapshot Scenario.env_plain
                           (Scenario.oracle (Scenario.http_down None))
                           Scenario.world_with_history)))
    by (vm_compute; reflexivity).
  destruct (saved_rows_have_directory_rows _ _ _ _ _ Hrun)
    as (saved & Hsaved & _ & Hdir).
  assert (Hin : In (Db.mkSnap Scenario.now Scenario.USDC (Some "USDC") 6 0 0 0 1
                      None None None (Some 0%float) (Some 0%float)
                      (Some 0%float) (Some 0%float) 0 (Some 0%float)
                      None None) saved).
  { assert (E : saved = [Db.mkSnap Scenario.now Scenario.USDC (Some "USDC") 6
                           0 0 0 1 None None None (Some 0%float)
                           (Some 0%float) (Some 0%float) (Some 0%float) 0
                           (Some 0%float) None None]).
    { apply (app_inv_head
               (Db.snapshots
                  (Db.pruneOlderThanMs (db Scenario.world_with_history)
                     (clock (Scenario.oracle (Scenario.http_down None))
                            (tick Scenario.world_with_history)
                      - RETENTION_MS)))).
      rewrite <- Hsaved. vm_compute. reflexivity. }
    rewrite E. left. reflexivity. }
  destruct (Hdir _ Hin) as (d & Hd & _ & Hdec & _).
  exists d. split; [exact Hd | exact Hdec].
Defined.
